(** * Task-tracking backend: task lifecycle and team authorization

    A shallow embedding of the Express controllers of the task tracking
    system ([controller/taskcontroller.js], [controller/teamscontroller.js]),
    of the token middleware of [app.js], of the login route of
    [controller/authenticationcontroller.js], of the schemas of [models/]
    and of [service/emailservice.js].

    Modelling conventions.
    - A JavaScript value that reaches the controllers through a JSON body, a
      query string or a decoded token is a [jsval]: [undefined], [null], a
      boolean, a number, a string or an array. An object whose properties
      are read by name ([req.body], [req.query], [req.user]) is a finite
      map from property names to [jsval], and reading a property that is
      not there gives [JUndefined]. Plain objects as values of properties
      are not modelled.
    - Strings are sequences of 8-bit code units; [length] counts code units.
    - Numbers are rationals with [NaN] and the two infinities.
    - A Mongo collection is the list of its documents in natural order.
      The [createdAt]/[updatedAt] bookkeeping of [{ timestamps: true }] is
      not part of the model.
    - A route is a function from the store to an [Outcome]: the reply (or
      the exception that escaped the handler), the store it leaves and
      the trace of what it logged and sent.
    - Functions of the JavaScript runtime and of the libraries (the
      [Number] conversion of strings, the ObjectId cast of mongoose,
      [jwt.verify], the SMTP transport) are parameters of the development. *)

From Stdlib Require Import ZArith QArith String Ascii List Bool Lia.
From stdpp Require Import base option strings pretty list gmap.

Set Warnings "-register-all".

Local Open Scope Z_scope.
Local Open Scope string_scope.
Local Open Scope list_scope.

(** ** JavaScript values *)

Inductive jsnum : Type :=
  | NaN
  | Num (q : Q)
  | Infinity (negative : bool).

Inductive jsval : Type :=
  | JUndefined
  | JNull
  | JBool (b : bool)
  | JNum (n : jsnum)
  | JStr (s : string)
  | JArr (items : list jsval).

Abbreviation jsobject := (gmap string jsval).

(** [o.k] for a plain object [o]. *)
Definition get (o : jsobject) (k : string) : jsval :=
  default JUndefined (o !! k).

Definition isNaN (n : jsnum) : bool :=
  match n with NaN => true | _ => false end.

(** [n < k] and [n > k] against an integer literal; every comparison with
    [NaN] is false. *)
Definition num_lt (n : jsnum) (k : Z) : bool :=
  match n with
  | NaN => false
  | Num q => negb (Qle_bool (inject_Z k) q)
  | Infinity negative => negative
  end.

Definition num_gt (n : jsnum) (k : Z) : bool :=
  match n with
  | NaN => false
  | Num q => negb (Qle_bool q (inject_Z k))
  | Infinity negative => negb negative
  end.

(** [n - 1]. *)
Definition num_pred (n : jsnum) : jsnum :=
  match n with
  | Num q => Num (q - 1)%Q
  | _ => n
  end.

(** [x < k] and [x > k] where [x] is the result of reading [.length]:
    a number, or [undefined], which converts to [NaN]. *)
Definition less (x : jsval) (k : Z) : bool :=
  match x with JNum n => num_lt n k | _ => false end.

Definition greater (x : jsval) (k : Z) : bool :=
  match x with JNum n => num_gt n k | _ => false end.

(** ToBoolean. *)
Definition truthy (v : jsval) : bool :=
  match v with
  | JUndefined | JNull => false
  | JBool b => b
  | JNum NaN => false
  | JNum (Num q) => negb (Qeq_bool q 0)
  | JNum (Infinity _) => true
  | JStr s => negb (String.eqb s EmptyString)
  | JArr _ => true
  end.

Definition falsy (v : jsval) : bool := negb (truthy v).

(** ** Strings *)

Definition dquote : string := String (ascii_of_nat 34) EmptyString.

Definition is_whitespace (c : ascii) : bool :=
  let n := nat_of_ascii c in
  ((9 <=? n)%nat && (n <=? 13)%nat) || (n =? 32)%nat || (n =? 160)%nat.

Fixpoint trimStart (s : string) : string :=
  match s with
  | EmptyString => EmptyString
  | String c s' => if is_whitespace c then trimStart s' else s
  end.

Definition trim (s : string) : string :=
  String.rev (trimStart (String.rev (trimStart s))).

(** [s.split(sep)] for a one-character separator. *)
Fixpoint split (sep : ascii) (s : string) : list string :=
  match s with
  | EmptyString => [EmptyString]
  | String c s' =>
      if Ascii.eqb c sep then EmptyString :: split sep s'
      else match split sep s' with
           | [] => [String c EmptyString]
           | p :: ps => String c p :: ps
           end
  end.

(** [s.substring(n)]. *)
Fixpoint substring_from (n : nat) (s : string) : string :=
  match n, s with
  | O, _ => s
  | S n', String _ s' => substring_from n' s'
  | S _, EmptyString => EmptyString
  end.

Definition str_length (s : string) : jsval :=
  JNum (Num (inject_Z (Z.of_nat (String.length s)))).

Definition arr_length (items : list jsval) : jsval :=
  JNum (Num (inject_Z (Z.of_nat (List.length items)))).

(** ** Documents, from the schemas of [models/] *)

Abbreviation ObjectId := N.

(** The Date built by [new Date(year, monthIndex, day)], kept as the three
    arguments of the constructor. *)
Inductive jsdate : Type :=
  | new_Date (year monthIndex day : jsnum).

Module User.
Record t : Type := {
    _id : ObjectId;
    firstName : string;
    lastName : string;
    email : string;
    password : string
}.
End User.

Module Comment.
Record t : Type := {
    user : ObjectId;
    text : string;
    createdAt : Z
}.
End Comment.

Module Task.
Record t : Type := {
    _id : ObjectId;
    title : string;
    description : string;
    status : string;
    dueDate : option jsdate;
    assignedTo : option ObjectId;
    comments : list Comment.t
}.
End Task.

Module Team.
Record t : Type := {
    _id : ObjectId;
    name : string;
    description : option string;
    members : list ObjectId;
    createdBy : ObjectId
}.
End Team.

Record Store : Type := {
  users : list User.t;
  tasks : list Task.t;
  teams : list Team.t
}.

(** ** Errors, responses and effects *)

Inductive jserror : Type :=
  | CastError (path : string)
  | ValidationError (path : string)
  | MongoServerError (code : Z) (errmsg : string)
  | ReferenceError (name : string)
  | TypeError (message : string).

(** [err.code] and [err.errmsg]: only the errors of the Mongo server carry
    them. *)
Definition err_code (err : jserror) : option Z :=
  match err with MongoServerError code _ => Some code | _ => None end.

Definition err_errmsg (err : jserror) : option string :=
  match err with MongoServerError _ errmsg => Some errmsg | _ => None end.

Inductive body : Type :=
  | Text (s : string)                (* res.send("...") *)
  | JsonText (s : string)            (* res.json({ text: ... }) *)
  | JsonError (s : string)           (* res.send({ error: ... }) *)
  | JsonTask (task : Task.t)
  | JsonTasks (tasks : list Task.t)
  | JsonTeam (team : Team.t)
  | Errmsg (errmsg : option string)  (* res.send(err.errmsg) *)
  | ErrMessage (err : jserror).      (* res.send(err.message) *)

Record Response : Type := {
  statusCode : Z;
  payload : body
}.

(** [helpers/constants.js]. *)
Module HTTP_STATUS_CODES.
Definition NOT_FOUND : Z := 404.
Definition SUCCESS : Z := 200.
Definition CREATED : Z := 201.
Definition BAD_REQUEST : Z := 400.
Definition INTERNAL_SERVER_ERROR : Z := 500.
End HTTP_STATUS_CODES.

Module RESPONSE_MESSAGES.
Definition NO_TASKS_FOUND : string := "No tasks found".
End RESPONSE_MESSAGES.

Record MailOptions : Type := {
  from : option string;   (* [None] is [undefined] *)
  to : option string;
  subject : string;
  text : string;
  html : string
}.

Inductive Event : Type :=
  | ConsoleLog (line : string)
  | ConsoleLogError (prefix : string) (err : jserror)
  | ConsoleLogMail (mailOptions : MailOptions)
  | SendMail (mailOptions : MailOptions)     (* transporter.sendMail(mailOptions) *)
  | ConsoleErrorMail (error : string).       (* console.error("Error sending email:", error) *)

(** What [transporter.sendMail] comes back with. *)
Inductive transport_result : Type :=
  | Delivered (response : string)
  | Failed (error : string).

(** What a route leaves behind: the reply (or the exception that escaped
    the handler), the store and the trace of effects. *)
Inductive Reply : Type :=
  | Responds (res : Response)
  | Escapes (err : jserror).

Record Outcome : Type := {
  reply : Reply;
  db : Store;
  events : list Event
}.

Definition respond (status : Z) (b : body) (s : Store) (evs : list Event) : Outcome :=
  {| reply := Responds {| statusCode := status; payload := b |};
     db := s; events := evs |}.

(** The result of a middleware: it answers, it calls [next()] (passing on
    what it attached to the request), or it throws. *)
Inductive Middleware (A : Type) : Type :=
  | Answer (res : Response)
  | Next (a : A)
  | Throw (err : jserror).
Arguments Answer {A} res.
Arguments Next {A} a.
Arguments Throw {A} err.

Definition answer {A} (status : Z) (b : body) : Middleware A :=
  Answer {| statusCode := status; payload := b |}.

(** Modelled from the spec: the module [enums/taskstatus], whose values
    [Object.values(TaskStatus)] lists, is not among the sources; the data
    model gives status ∈ {open, closed}, and so does the message of
    [validateTask]. *)
Definition TaskStatus_values : list string := ["open"; "closed"].

(** [values.includes(v)]: strict equality, so only a string can be found
    in a list of strings. *)
Definition includes (values : list string) (v : jsval) : bool :=
  match v with
  | JStr s => bool_decide (s ∈ values)
  | _ => false
  end.

(** [isEmpty] of [taskcontroller.js]: [null] and [undefined], a string
    that is blank once trimmed, an array of length 0, and an object
    without keys, which among the values of the model is again the empty
    array. *)
Definition isEmpty (value : jsval) : bool :=
  match value with
  | JUndefined | JNull => true
  | JStr s => bool_decide (trim s = EmptyString)
  | JArr items => bool_decide (List.length items = 0%nat)
  | JBool _ | JNum _ => false
  end.

(** Reading [v.length]. *)
Definition prop_length (v : jsval) : jserror + jsval :=
  match v with
  | JUndefined | JNull => inl (TypeError "Cannot read properties of undefined (reading 'length')")
  | JStr s => inr (str_length s)
  | JArr items => inr (arr_length items)
  | JBool _ | JNum _ => inr JUndefined
  end.

(** ** A runtime and a small database for the examples *)

Module Sample.

Definition digit (c : ascii) : option Z :=
  let n := Z.of_nat (nat_of_ascii c) in
  if (48 <=? n)%Z && (n <=? 57)%Z then Some (n - 48) else None.

Fixpoint digits (s : string) (acc : Z) : option Z :=
  match s with
  | EmptyString => Some acc
  | String c s' =>
      match digit c with
      | Some d => digits s' (10 * acc + d)
      | None => None
      end
  end.

(** [Number] on strings of decimal digits; the empty string is 0. *)
Definition Number (s : string) : jsnum :=
  match digits s 0 with
  | Some z => Num (inject_Z z)
  | None => NaN
  end.

(** [String] on whole numbers. *)
Definition String_of_num (n : jsnum) : string :=
  match n with
  | NaN => "NaN"
  | Infinity negative => if negative then "-Infinity" else "Infinity"
  | Num q => pretty (Qnum q)
  end.

Definition hex_digit (c : ascii) : option N :=
  let n := N.of_nat (nat_of_ascii c) in
  if (48 <=? n)%N && (n <=? 57)%N then Some (n - 48)%N
  else if (97 <=? n)%N && (n <=? 102)%N then Some (n - 87)%N
  else if (65 <=? n)%N && (n <=? 70)%N then Some (n - 55)%N
  else None.

Fixpoint hex_value (s : string) (acc : N) : option N :=
  match s with
  | EmptyString => Some acc
  | String c s' =>
      match hex_digit c with
      | Some d => hex_value s' (16 * acc + d)%N
      | None => None
      end
  end.

(** The cast of mongoose on strings of 24 hexadecimal digits. *)
Definition castObjectId (v : jsval) : option ObjectId :=
  match v with
  | JStr s => if (String.length s =? 24)%nat then hex_value s 0%N else None
  | _ => None
  end.

Definition hex_char (d : N) : ascii :=
  ascii_of_N (if (d <? 10)%N then d + 48 else d + 87)%N.

Fixpoint hex_string (width : nat) (n : N) (acc : string) : string :=
  match width with
  | O => acc
  | S width' => hex_string width' (n / 16)%N (String (hex_char (n mod 16)%N) acc)
  end.

Definition toHexString (oid : ObjectId) : string :=
  hex_string 24 oid EmptyString.

Definition toLocaleString (d : jsdate) : string :=
  "Wednesday, January 1, 2025 at 12:00:00 AM".

(** [ToIntegerOrInfinity] on a finite number: the fraction is dropped. *)
Definition truncate (q : Q) : Z := Z.quot (Qnum q) (Zpos (Qden q)).

(** The number of days from the first of January 1970 to a day of the
    proleptic Gregorian calendar, the month counted from 1. *)
Definition days_from_civil (year month day : Z) : Z :=
  let y := if (month <=? 2)%Z then (year - 1)%Z else year in
  let era := (y / 400)%Z in
  let yoe := (y - era * 400)%Z in
  let mp := ((month + 9) mod 12)%Z in
  let doy := ((153 * mp + 2) / 5 + day - 1)%Z in
  let doe := (yoe * 365 + yoe / 4 - yoe / 100 + doy)%Z in
  (era * 146097 + doe - 719468)%Z.

(** [!isNaN(new Date(year, monthIndex, day).valueOf())] on a server
    whose time zone is UTC: the three arguments are finite and the day
    is at most 100,000,000 days from the first of January 1970. A year
    from 0 to 99 counts from 1900. *)
Definition Date_isValid (d : jsdate) : bool :=
  match d with
  | new_Date (Num y) (Num m) (Num dt) =>
      let yi := truncate y in
      let yi := if (0 <=? yi)%Z && (yi <=? 99)%Z then (1900 + yi)%Z else yi in
      let mi := truncate m in
      let ym := (yi + mi / 12)%Z in
      let mn := (mi mod 12)%Z in
      let day := (days_from_civil ym (mn + 1) 1 + truncate dt - 1)%Z in
      (Z.abs day <=? 100000000)%Z
  | _ => false
  end.

Definition EMAIL_USER : option string := Some "tracker@example.com".

Definition john : User.t :=
  {| User._id := 1%N; User.firstName := "John"; User.lastName := "Doe";
     User.email := "john@example.com"; User.password := "$2b$08$hash" |}.

Definition john_id : string := "000000000000000000000001".
Definition task_id : string := "000000000000000000000002".
Definition team_id : string := "000000000000000000000003".

(** The token of John, decoded. *)
Definition john_token : jsobject :=
  {[ "email" := JStr "john@example.com";
     "id" := JStr john_id;
     "firstName" := JStr "John";
     "lastName" := JStr "Doe";
     "iat" := JNum (Num (inject_Z 1700000000));
     "exp" := JNum (Num (inject_Z 1700086400)) ]}.

Definition jwt_verify (token : string) : option jsobject :=
  if String.eqb token "john.jwt" then Some john_token else None.

Definition test_task : Task.t :=
  {| Task._id := 2%N; Task.title := "Test Task";
     Task.description := "This is a test task"; Task.status := "open";
     Task.dueDate := Some (new_Date (Num 2025) (Num 0) (Num 1));
     Task.assignedTo := Some 1%N; Task.comments := [] |}.

Definition core_team : Team.t :=
  {| Team._id := 3%N; Team.name := "Core"; Team.description := None;
     Team.members := [1%N]; Team.createdBy := 1%N |}.

Definition store : Store :=
  {| users := [john]; tasks := [test_task]; teams := [core_team] |}.

Definition updated_task : jsobject :=
  {[ "title" := JStr "Updated Task";
     "description" := JStr "This is an updated task";
     "status" := JStr "closed";
     "dueDate" := JStr "02-02-2025" ]}.

(** The same update with a year that no Date can hold. *)
Definition update_in_year_999999 : jsobject :=
  {[ "title" := JStr "Updated Task";
     "description" := JStr "This is an updated task";
     "status" := JStr "closed";
     "dueDate" := JStr "02-02-999999" ]}.

Definition only_status : jsobject := {[ "status" := JStr "closed" ]}.

Definition without_status : jsobject :=
  {[ "title" := JStr "New Task";
     "description" := JStr "This is a new task";
     "dueDate" := JStr "01-01-2025" ]}.

Definition same_title : jsobject :=
  {[ "title" := JStr "Test Task";
     "description" := JStr "Another description";
     "status" := JStr "open";
     "dueDate" := JStr "01-01-2025" ]}.

Definition new_team : jsobject :=
  {[ "name" := JStr "Platform";
     "memberEmails" := JArr [JStr "john@example.com"] ]}.



Definition assign_to_john : jsobject := {[ "assignedTo" := JStr john_id ]}.

Definition rename_team : jsobject := {[ "name" := JStr "Core 2" ]}.

Definition pending_filter : jsobject := {[ "status" := JStr "pending" ]}.

Definition empty_filter : jsobject := {[ "status" := JStr EmptyString ]}.

Definition smtp_down (m : MailOptions) : transport_result :=
  Failed "connect ECONNREFUSED".

Definition smtp_up (m : MailOptions) : transport_result :=
  Delivered "250 OK".

(** [new ObjectId(v)] on the values that the cast accepts. *)
Definition ObjectId_from (v : jsval) : option ObjectId := castObjectId v.

Fixpoint has_at (s : string) : bool :=
  match s with
  | EmptyString => false
  | String c s' => Ascii.eqb c "@"%char || has_at s'
  end.

(** A stand-in for the pattern of emails: a string with an [@]. *)
Definition EMAIL_REGEX_test (v : jsval) : bool :=
  match v with
  | JStr s => has_at s
  | _ => false
  end.

(** A stand-in for [bcrypt]: the hash is the password behind a prefix. *)
Definition hashSync (v : jsval) : jserror + string :=
  match v with
  | JStr password => inr ("$2b$08$" ++ password)%string
  | _ => inl (TypeError "data must be a string or Buffer")
  end.

Definition compareSync (v : jsval) (hash : string) : jserror + bool :=
  match v with
  | JStr password => inr (String.eqb ("$2b$08$" ++ password)%string hash)
  | _ => inl (TypeError "data and hash arguments required")
  end.

(** The only token of the examples is the one of John. *)
Definition jwt_sign (payload : jsobject) (now : Z) : string := "john.jwt".

(** The names that the authentication controller takes from
    [helpers/constants], which exports [HTTP_STATUS_CODES] and
    [RESPONSE_MESSAGES] only: each one is [undefined]. *)
Definition ERROR_EMAIL_FORMAT : jsval := JUndefined.
Definition ERROR_EMAIL_EXISTS : jsval := JUndefined.
Definition ERROR_PASSWORD_MANDATORY : jsval := JUndefined.
Definition ERROR_EMAIL_NOT_FOUND : jsval := JUndefined.
Definition ERROR_INVALID_PASSWORD : jsval := JUndefined.

Definition new_task : jsobject :=
  {[ "title" := JStr "New Task";
     "description" := JStr "This is a new task";
     "status" := JStr "open";
     "dueDate" := JStr "01-01-2025" ]}.

Definition new_task_id : string := "000000000000000000000005".

(** A payload whose due date is a number. *)
Definition dated_by_number : jsobject :=
  {[ "title" := JStr "New Task";
     "description" := JStr "This is a new task";
     "status" := JStr "open";
     "dueDate" := JNum (Num 5) ]}.

Definition undated_task : Task.t :=
  {| Task._id := 4%N; Task.title := "Undated Task";
     Task.description := "A task without a due date"; Task.status := "open";
     Task.dueDate := None; Task.assignedTo := None; Task.comments := [] |}.

Definition undated_task_id : string := "000000000000000000000004".

Definition store_with_undated : Store :=
  {| users := [john]; tasks := [test_task; undated_task]; teams := [core_team] |}.

(** An update of "Test Task" that takes the title of the other task. *)
Definition taken_title : jsobject :=
  {[ "title" := JStr "Undated Task";
     "description" := JStr "This is an updated task";
     "status" := JStr "closed";
     "dueDate" := JStr "02-02-2025" ]}.

Definition looks_good : jsobject := {[ "text" := JStr "Looks good" ]}.

Definition no_text : jsobject := ∅.

(** John, named twice. *)
Definition team_of_john_twice : jsobject :=
  {[ "name" := JStr "Platform";
     "memberEmails" := JArr [JStr "john@example.com"; JStr "john@example.com"] ]}.

(** A team with the name of the stored one. *)
Definition second_core_team : jsobject :=
  {[ "name" := JStr "Core";
     "memberEmails" := JArr [JStr "john@example.com"] ]}.

(** An identity that carries [_id], which no login token does. *)
Definition john_with__id : jsobject := {[ "_id" := JStr john_id ]}.

Definition register_mary : jsobject :=
  {[ "firstName" := JStr "Mary";
     "lastName" := JStr "Major";
     "email" := JStr "mary@example.com";
     "password" := JStr "secret" ]}.

Definition register_john_again : jsobject :=
  {[ "firstName" := JStr "Johnny";
     "lastName" := JStr "Doe";
     "email" := JStr "john@example.com";
     "password" := JStr "other" ]}.

Definition login_john : jsobject :=
  {[ "email" := JStr "john@example.com"; "password" := JStr "hash" ]}.

Definition open_filter : jsobject := {[ "status" := JStr "open" ]}.

End Sample.

Section Controllers.

Set Default Proof Using "Type".

(** *** The runtime and the libraries *)

(** [Number(s)] on a string. *)
Variable Number : string -> jsnum.
(** [String(n)] on a number. *)
Variable String_of_num : jsnum -> string.
(** The cast of mongoose from a value that is neither [null] nor
    [undefined] to an ObjectId; [None] when it raises a CastError.
    [ObjectId.isValid] accepts what the cast accepts. *)
Variable castObjectId : jsval -> option ObjectId.
(** The JSON form of an ObjectId, as [jwt.sign] serialises it. *)
Variable toHexString : ObjectId -> string.
(** [date.toLocaleString("en-US", options)] with the options of
    [populateEmailForAssignee]. *)
Variable toLocaleString : jsdate -> string.
(** Whether [new Date(year, monthIndex, day)] has a time value, that is,
    [!isNaN(date.valueOf())]: not when an argument is not finite or the
    day is out of the range of dates. *)
Variable Date_isValid : jsdate -> bool.
(** [jwt.verify(token, process.env.JWT_SIGNING_SECRET)]: the decoded
    payload, or [None] when verification fails. *)
Variable jwt_verify : string -> option jsobject.
(** [process.env.EMAIL_USER]. *)
Variable EMAIL_USER : option string.

Definition isValid (id : string) : bool :=
  bool_decide (is_Some (castObjectId (JStr id))).

(** *** Task validation *)

(** [parseDate]: day, month and year of [DD-MM-YYYY], month made
    zero-based. A missing component is [undefined], hence [NaN]. *)
Definition parseDate (dateString : string) : jsdate :=
  let parts := map Number (split "-" dateString) in
  let day := nth 0 parts NaN in
  let month := nth 1 parts NaN in
  let year := nth 2 parts NaN in
  new_Date year (num_pred month) day.

Definition bad_request (message : string) : Middleware unit :=
  answer 400 (Text message).

Definition validateTask (body : jsobject) : Middleware unit :=
  let title := get body "title" in
  let description := get body "description" in
  let status := get body "status" in
  let dueDate := get body "dueDate" in
  if isEmpty title then
    bad_request "Bad Request : Title cannot be blank"
  else match prop_length title with
  | inl err => Throw err
  | inr title_length =>
  if less title_length 5 || greater title_length 100 then
    bad_request "Bad Request: Title must be between 5 and 100 characters long."
  else if isEmpty description then
    bad_request "Bad Request : Description cannot be blank"
  else match prop_length description with
  | inl err => Throw err
  | inr description_length =>
  if greater description_length 1000 then
    bad_request "Bad Request: Description must not exceed 500 characters."
  else if negb (includes TaskStatus_values status) then
    bad_request
      ("Bad Request : Invalid Task Status. Status must be either "
         ++ dquote ++ "open" ++ dquote ++ " or " ++ dquote ++ "closed" ++ dquote)
  else if isEmpty status then
    bad_request "Bad Request : Status cannot be blank"
  else if isEmpty dueDate then
    bad_request "Bad Request : Due Date cannot be blank"
  else if truthy dueDate then
    match dueDate with
    | JStr s =>
        let dateParts := split "-" s in
        if negb (List.length dateParts =? 3)%nat then
          bad_request "Bad Request : Invalid due date format"
        else
          let day := nth 0 (map Number dateParts) NaN in
          let month := nth 1 (map Number dateParts) NaN in
          let year := nth 2 (map Number dateParts) NaN in
          if isNaN day || isNaN month || isNaN year
             || num_lt month 1 || num_gt month 12
             || num_lt day 1 || num_gt day 31
          then bad_request "Bad Request : Invalid due date"
          else Next tt
    | _ => Throw (TypeError "dueDate.split is not a function")
    end
  else Next tt
  end end.

(** *** The mongoose layer *)

(** A path of a document under construction: never set, set to a value
    the schema type accepts, or set to a value whose cast failed. *)
Inductive cast (A : Type) : Type :=
  | Unset
  | Cast (a : A)
  | CastFailed.
Arguments Unset {A}.
Arguments Cast {A} a.
Arguments CastFailed {A}.

(** The String cast: numbers and booleans are converted with
    [toString], arrays are refused. *)
Definition castString (v : jsval) : cast string :=
  match v with
  | JUndefined | JNull => Unset
  | JStr s => Cast s
  | JNum n => Cast (String_of_num n)
  | JBool b => Cast (if b then "true" else "false")
  | JArr _ => CastFailed
  end.

Definition castId (v : jsval) : cast ObjectId :=
  match v with
  | JUndefined | JNull => Unset
  | _ => match castObjectId v with
         | Some oid => Cast oid
         | None => CastFailed
         end
  end.

(** [!doc.path] *)
Definition path_falsy {A} (c : cast A) : bool :=
  match c with Cast _ => false | _ => true end.

(** A required String path with its validators. Validation reports the
    first path that fails. *)
Definition required_string (path : string) (valid : string -> bool)
    (c : cast string) : jserror + string :=
  match c with
  | Cast s =>
      if negb (String.eqb s EmptyString) && valid s then inr s
      else inl (ValidationError path)
  | Unset | CastFailed => inl (ValidationError path)
  end.

Definition optional_string (path : string) (valid : string -> bool)
    (c : cast string) : jserror + option string :=
  match c with
  | Unset => inr None
  | Cast s => if valid s then inr (Some s) else inl (ValidationError path)
  | CastFailed => inl (ValidationError path)
  end.

Definition length_between (lo hi : nat) (s : string) : bool :=
  (lo <=? String.length s)%nat && (String.length s <=? hi)%nat.

Definition title_valid : string -> bool := length_between 5 100.
Definition description_valid : string -> bool := length_between 0 1000.
Definition status_valid (s : string) : bool := bool_decide (s ∈ TaskStatus_values).
Definition name_valid : string -> bool := length_between 3 100.

#[local] Instance sum_bind : MBind (sum jserror) :=
  fun A B f m => match m with inl err => inl err | inr a => f a end.
#[local] Instance sum_ret : MRet (sum jserror) := fun A a => inr a.

(** The duplicate-key error of the server for a unique index. *)
Definition E11000 (index : string) : jserror :=
  MongoServerError 11000 ("E11000 duplicate key error index: " ++ index).

Definition set_tasks (s : Store) (ts : list Task.t) : Store :=
  {| users := users s; tasks := ts; teams := teams s |}.

Definition set_teams (s : Store) (ts : list Team.t) : Store :=
  {| users := users s; tasks := tasks s; teams := ts |}.

Definition Task_lookup (oid : ObjectId) (s : Store) : option Task.t :=
  List.find (fun t => N.eqb (Task._id t) oid) (tasks s).

Definition User_lookup (oid : ObjectId) (s : Store) : option User.t :=
  List.find (fun u => N.eqb (User._id u) oid) (users s).

Definition Team_lookup (oid : ObjectId) (s : Store) : option Team.t :=
  List.find (fun t => N.eqb (Team._id t) oid) (teams s).

(** [Model.findById(id)]: [null] for [null] and [undefined], a CastError
    for an id that is no ObjectId. *)
Definition findById {D} (lookup : ObjectId -> Store -> option D)
    (id : jsval) (s : Store) : jserror + option D :=
  match castId id with
  | Unset => inr None
  | CastFailed => inl (CastError "_id")
  | Cast oid => inr (lookup oid s)
  end.

(** [Task.find(filter)] for the filters of [GET /tasks]: no condition, or
    equality on [status]. *)
Definition Task_find (filter : jsobject) (s : Store) : jserror + list Task.t :=
  match filter !! "status" with
  | None => inr (tasks s)
  | Some v =>
      match castString v with
      | Cast st => inr (List.filter (fun t => String.eqb (Task.status t) st) (tasks s))
      | Unset => inr []
      | CastFailed => inl (CastError "status")
      end
  end.

(** The Date cast on a path that was given a Date or [null]: an Invalid
    Date is refused, which fails the validation of the document. *)
Definition castDate (path : string) (date : option jsdate)
    : jserror + option jsdate :=
  match date with
  | Some d => if Date_isValid d then inr (Some d) else inl (ValidationError path)
  | None => inr None
  end.

(** [new Task({ title, description, status, dueDate }).save()]: casts,
    validators, then the insert under the unique indexes on [_id] and
    [title]. *)
Definition Task_create (newId : ObjectId) (title description status : jsval)
    (dueDate : option jsdate) (s : Store) : jserror + (Task.t * Store) :=
  t ← required_string "title" title_valid (castString title);
  d ← required_string "description" description_valid (castString description);
  st ← required_string "status" status_valid (castString status);
  dueDate ← castDate "dueDate" dueDate;
  let task := {| Task._id := newId; Task.title := t; Task.description := d;
                 Task.status := st; Task.dueDate := dueDate;
                 Task.assignedTo := None; Task.comments := [] |} in
  if existsb (fun t' => N.eqb (Task._id t') newId) (tasks s) then inl (E11000 "_id_")
  else if existsb (fun t' => String.eqb (Task.title t') t) (tasks s) then inl (E11000 "title_1")
  else inr (task, set_tasks s (tasks s ++ [task])).

(** [task.save()] for a document loaded from the store whose four
    paths were assigned. *)
Definition Task_save (task : Task.t) (title description status : jsval)
    (dueDate : option jsdate) (s : Store) : jserror + (Task.t * Store) :=
  t ← required_string "title" title_valid (castString title);
  d ← required_string "description" description_valid (castString description);
  st ← required_string "status" status_valid (castString status);
  dueDate ← castDate "dueDate" dueDate;
  let task' := {| Task._id := Task._id task; Task.title := t; Task.description := d;
                  Task.status := st; Task.dueDate := dueDate;
                  Task.assignedTo := Task.assignedTo task;
                  Task.comments := Task.comments task |} in
  if existsb (fun t' => negb (N.eqb (Task._id t') (Task._id task))
                        && String.eqb (Task.title t') t) (tasks s)
  then inl (E11000 "title_1")
  else inr (task', set_tasks s
              (map (fun t' => if N.eqb (Task._id t') (Task._id task) then task' else t')
                   (tasks s))).

(** [Task.findByIdAndUpdate(id, update, { new: true })]: the updated
    document, or [null] when there is none with that id. *)
Definition Task_findByIdAndUpdate (id : jsval) (update : Task.t -> Task.t)
    (s : Store) : jserror + (option Task.t * Store) :=
  found ← findById Task_lookup id s;
  match found with
  | None => inr (None, s)
  | Some task =>
      inr (Some (update task),
           set_tasks s (map (fun t' => if N.eqb (Task._id t') (Task._id task)
                                       then update t' else t') (tasks s)))
  end.

(** *** Handlers: store, exceptions and trace *)

Definition M (A : Type) : Type :=
  Store -> (jserror + A) * Store * list Event.

#[local] Instance M_ret : MRet M := fun A a s => (inr a, s, []).

#[local] Instance M_bind : MBind M := fun A B f m s =>
  match m s with
  | (inl err, s', evs) => (inl err, s', evs)
  | (inr a, s', evs) =>
      match f a s' with
      | (r, s'', evs') => (r, s'', evs ++ evs')
      end
  end.

Definition throw {A} (err : jserror) : M A := fun s => (inl err, s, []).

Definition emit (ev : Event) : M unit := fun s => (inr tt, s, [ev]).

(** A store operation that only reads. *)
Definition reading {A} (op : Store -> jserror + A) : M A :=
  fun s => (op s, s, []).

(** A store operation that writes when it succeeds. *)
Definition writing {A} (op : Store -> jserror + (A * Store)) : M A :=
  fun s => match op s with
           | inl err => (inl err, s, [])
           | inr (a, s') => (inr a, s', [])
           end.

Definition send (status : Z) (b : body) : M Response :=
  mret {| statusCode := status; payload := b |}.

(** [try { block } catch (err) { handler }] around the body of a route. *)
Definition try_catch (block : M Response) (handler : jserror -> M Response)
    (s : Store) : Outcome :=
  match block s with
  | (inr res, s', evs) => {| reply := Responds res; db := s'; events := evs |}
  | (inl err, s', evs) =>
      match handler err s' with
      | (inr res, s'', evs') =>
          {| reply := Responds res; db := s''; events := evs ++ evs' |}
      | (inl err', s'', evs') =>
          {| reply := Escapes err'; db := s''; events := evs ++ evs' |}
      end
  end.

(** A middleware in front of a route: its answer ends the request, an
    exception it throws escapes, [next()] runs the route. *)
Definition guarded {A} (mw : Middleware A) (route : A -> Store -> Outcome)
    (s : Store) : Outcome :=
  match mw with
  | Answer res => {| reply := Responds res; db := s; events := [] |}
  | Throw err => {| reply := Escapes err; db := s; events := [] |}
  | Next a => route a s
  end.

(** The same for a middleware that reads the store and logs. *)
Definition guarded_by {A} (mw : Store -> Middleware A * list Event)
    (route : A -> Store -> Outcome) (s : Store) : Outcome :=
  match mw s with
  | (Answer res, evs) => {| reply := Responds res; db := s; events := evs |}
  | (Throw err, evs) => {| reply := Escapes err; db := s; events := evs |}
  | (Next a, evs) =>
      let o := route a s in
      {| reply := reply o; db := db o; events := evs ++ events o |}
  end.

(** The [catch] of the task routes. *)
Definition log_and_500 (err : jserror) : M Response :=
  _ ← emit (ConsoleLogError "Error logged: " err);
  send HTTP_STATUS_CODES.INTERNAL_SERVER_ERROR (Errmsg (err_errmsg err)).

(** *** Notification *)

(** [sendEmail] of [service/emailservice.js]: the whole body is inside
    [try], so whatever the transport does is logged inside the function
    and the promise it returns resolves. The routes do not await it. *)
Definition sendEmail (sendMail : MailOptions -> transport_result)
    (mailOptions : MailOptions) : M unit :=
  _ ← emit (SendMail mailOptions);
  match sendMail mailOptions with
  | Delivered response => emit (ConsoleLog ("Email sent: " ++ response))
  | Failed error => emit (ConsoleErrorMail error)
  end.

(** The payloads handed to the transport in a trace. *)
Fixpoint sent_mails (evs : list Event) : list MailOptions :=
  match evs with
  | [] => []
  | SendMail m :: rest => m :: sent_mails rest
  | _ :: rest => sent_mails rest
  end.

(** The second argument of [populateEmailForAssignee] as its callers
    pass it: a user document, or the ObjectId held by [assignedTo]. *)
Inductive recipient : Type :=
  | UserDoc (u : User.t)
  | Id (oid : ObjectId).

(** [user.email], [user.firstName], [user.lastName]; an ObjectId has
    none of these properties. *)
Definition prop (user : recipient) (field : User.t -> string) : option string :=
  match user with
  | UserDoc u => Some (field u)
  | Id _ => None
  end.

(** [${v}] in a template literal. *)
Definition interpolate (v : option string) : string :=
  default "undefined" v.

Definition nl : string := String (ascii_of_nat 10) EmptyString.

Definition populateEmailForAssignee (task : Task.t) (user : recipient)
    (isUpdate : bool) : jserror + MailOptions :=
  match Task.dueDate task with
  | None =>
      inl (TypeError "Cannot read properties of undefined (reading 'toLocaleString')")
  | Some dueDate =>
      let formattedDateTime := toLocaleString dueDate in
      let hello :=
        ("Hello " ++ interpolate (prop user User.firstName) ++ " "
                  ++ interpolate (prop user User.lastName) ++ ",")%string in
      let p_hello := ("<p>" ++ hello ++ "</p>")%string in
      let indent := (nl ++ "         ")%string in
      inr {|
        from := EMAIL_USER;
        to := prop user User.email;
        subject :=
          if isUpdate then "Task Update Notification"
          else "Task Assignment Notification";
        text :=
          if isUpdate then
            hello ++ nl ++ "  " ++ nl ++ "  Your task titled " ++ dquote
              ++ Task.title task ++ dquote
              ++ " has been updated. Please review the latest changes to ensure you are up-to-date."
          else
            hello ++ nl ++ "  " ++ nl ++ "  You have been assigned a new task titled "
              ++ dquote ++ Task.title task ++ dquote
              ++ ". Please complete it by " ++ formattedDateTime ++ ".";
        html :=
          if isUpdate then
            p_hello
              ++ indent ++ "<p>Your task titled <strong>" ++ Task.title task
              ++ "</strong> has been updated.</p>"
              ++ indent
              ++ "<p>Please review the latest changes to ensure you are up-to-date.</p>"
          else
            p_hello
              ++ indent ++ "<p>You have been assigned a new task.</p>"
              ++ indent ++ "<p>Task Title: <strong>" ++ Task.title task ++ "</strong>.</p>"
              ++ indent ++ "<p>Please complete it by " ++ formattedDateTime ++ ".</p>"
      |}
  end.

(** *** Task routes *)

(** [GET /tasks]: the part of the handler that runs before [Task.find],
    which either answers or builds the filter. *)
Definition tasks_filter (query : jsobject) : Response + jsobject :=
  let status := get query "status" in
  if truthy status && negb (includes TaskStatus_values status) then
    inl {| statusCode := 400; payload := Text "Invalid task status" |}
  else
    inr (if truthy status then {[ "status" := status ]} else ∅).

Definition get_tasks (query : jsobject) : Store -> Outcome :=
  try_catch
    (match tasks_filter query with
     | inl res => mret res
     | inr filter =>
         tasks ← reading (Task_find filter);
         if (List.length tasks =? 0)%nat then send 404 (Text "No tasks found")
         else send 200 (JsonTasks tasks)
     end)
    log_and_500.

(** [dueDate ? parseDate(dueDate) : null] *)
Definition parsedDueDate (dueDate : jsval) : jserror + option jsdate :=
  if truthy dueDate then
    match dueDate with
    | JStr s => inr (Some (parseDate s))
    | _ => inl (TypeError "dateString.split is not a function")
    end
  else inr None.

(** [POST /tasks] *)
Definition post_tasks (newId : ObjectId) (body : jsobject) : Store -> Outcome :=
  guarded (validateTask body) (fun _ =>
    try_catch
      (let title := get body "title" in
       let description := get body "description" in
       let status := get body "status" in
       let dueDate := get body "dueDate" in
       parsed ← reading (fun _ => parsedDueDate dueDate);
       persistedTask ← writing (Task_create newId title description status parsed);
       send HTTP_STATUS_CODES.CREATED (JsonTask persistedTask))
      log_and_500).

(** [value || task.path]: the right operand reads a variable [task]
    that the handler never declares. *)
Definition or_task {A} (value : A) (is_truthy : A -> bool) : M A :=
  if is_truthy value then mret value else throw (ReferenceError "task").

(** [PUT /tasks/:id] *)
Definition put_tasks_id (sendMail : MailOptions -> transport_result)
    (id : string) (body : jsobject) : Store -> Outcome :=
  guarded (validateTask body) (fun _ =>
    try_catch
      (let taskIdToUpdate := id in
       let updatedTaskData := body in
       parsed ← reading (fun _ => parsedDueDate (get body "dueDate"));
       taskfromDB ← reading (findById Task_lookup (JStr taskIdToUpdate));
       match taskfromDB with
       | None =>
           (* [res.status(404).send(RESPONSE_MESSAGES.TASK_NOT_FOUND)]: the
              argument is the function itself, which [res.send] cannot
              turn into a body *)
           throw (TypeError
                    ("The first argument must be of type string or an instance "
                     ++ "of Buffer, ArrayBuffer, or Array or an Array-like "
                     ++ "Object. Received function TASK_NOT_FOUND")%string)
       | Some taskfromDB =>
           title ← or_task (get updatedTaskData "title") truthy;
           description ← or_task (get updatedTaskData "description") truthy;
           status ← or_task (get updatedTaskData "status") truthy;
           dueDate ← or_task parsed (fun d => bool_decide (is_Some d));
           updatedTask ← writing (Task_save taskfromDB title description status dueDate);
           _ ← match Task.assignedTo updatedTask with
               | Some assignedTo =>
                   mailOptions ← reading (fun _ =>
                     populateEmailForAssignee updatedTask (Id assignedTo) true);
                   _ ← emit (ConsoleLogMail mailOptions);
                   sendEmail sendMail mailOptions
               | None => mret tt
               end;
           send HTTP_STATUS_CODES.SUCCESS (JsonTask updatedTask)
       end)
      log_and_500).

(** [userExists]: looks up [req.body.assignedTo] and attaches the user
    to the request as [req.user]. *)
Definition userExists (body : jsobject) (s : Store)
    : Middleware User.t * list Event :=
  let userId := get body "assignedTo" in
  match findById User_lookup userId s with
  | inr None => (answer 400 (JsonError "User not found"), [])
  | inr (Some user) => (Next user, [])
  | inl err =>
      (answer HTTP_STATUS_CODES.INTERNAL_SERVER_ERROR (Errmsg (err_errmsg err)),
       [ConsoleLogError "Error logged: " err])
  end.

(** [taskExists]: looks up [req.params.id]. *)
Definition taskExists (id : string) (s : Store)
    : Middleware Task.t * list Event :=
  let taskId := id in
  match findById Task_lookup (JStr taskId) s with
  | inr None => (answer 404 (JsonError "Task not found"), [])
  | inr (Some task) => (Next task, [])
  | inl err =>
      (answer HTTP_STATUS_CODES.INTERNAL_SERVER_ERROR (Errmsg (err_errmsg err)),
       [ConsoleLogError "Error logged: " err])
  end.

Definition with_status (status : string) (t : Task.t) : Task.t :=
  {| Task._id := Task._id t; Task.title := Task.title t;
     Task.description := Task.description t; Task.status := status;
     Task.dueDate := Task.dueDate t; Task.assignedTo := Task.assignedTo t;
     Task.comments := Task.comments t |}.

Definition with_assignedTo (assignedTo : option ObjectId) (t : Task.t) : Task.t :=
  {| Task._id := Task._id t; Task.title := Task.title t;
     Task.description := Task.description t; Task.status := Task.status t;
     Task.dueDate := Task.dueDate t; Task.assignedTo := assignedTo;
     Task.comments := Task.comments t |}.

(** The update document [{ assignedTo }]: an [undefined] value is
    dropped, [null] clears the path, any other value is cast. *)
Definition assignedTo_update (assignedTo : jsval) : jserror + (Task.t -> Task.t) :=
  match assignedTo with
  | JUndefined => inr (fun t => t)
  | JNull => inr (with_assignedTo None)
  | _ => match castObjectId assignedTo with
         | Some oid => inr (with_assignedTo (Some oid))
         | None => inl (CastError "assignedTo")
         end
  end.

(** [PUT /tasks/:id/assign] *)
Definition put_tasks_id_assign (sendMail : MailOptions -> transport_result)
    (id : string) (body : jsobject) : Store -> Outcome :=
  guarded_by (userExists body) (fun user =>
  guarded_by (taskExists id) (fun _ =>
    try_catch
      (let taskId := id in
       let assignedTo := get body "assignedTo" in
       update ← reading (fun _ => assignedTo_update assignedTo);
       updatedTask ← writing (Task_findByIdAndUpdate (JStr taskId) update);
       match updatedTask with
       | None => send 404 (JsonError "Task not found")
       | Some updatedTask =>
           mailOptions ← reading (fun _ =>
             populateEmailForAssignee updatedTask (UserDoc user) false);
           _ ← emit (ConsoleLogMail mailOptions);
           _ ← sendEmail sendMail mailOptions;
           send 200 (JsonTask updatedTask)
       end)
      log_and_500)).

(** [PATCH /tasks/:id/complete] *)
Definition patch_tasks_id_complete (id : string) : Store -> Outcome :=
  try_catch
    (let taskId := id in
     if negb (isValid taskId) then send 400 (Text "Invalid task ID")
     else
       task ← writing (Task_findByIdAndUpdate (JStr taskId) (with_status "closed"));
       match task with
       | None => send 404 (Text "Task not found")
       | Some task => send 200 (JsonTask task)
       end)
    log_and_500.

(** *** Identity: the login token and the shared middleware *)

(** The payload that [POST /login] signs. The ObjectId is serialised as
    its hexadecimal string. *)
Definition login_payload (user : User.t) : jsobject :=
  {[ "email" := JStr (User.email user);
     "id" := JStr (toHexString (User._id user));
     "firstName" := JStr (User.firstName user);
     "lastName" := JStr (User.lastName user) ]}.

(** What [jwt.sign(payload, secret, { expiresIn: 86400 })] issued at
    [iat] decodes to: the payload with the two time claims. *)
Definition claims (payload : jsobject) (iat : Z) : jsobject :=
  <[ "iat" := JNum (Num (inject_Z iat)) ]>
    (<[ "exp" := JNum (Num (inject_Z (iat + 86400))) ]> payload).

(** [sharedMiddleware] of [app.js]: on success the decoded token becomes
    [req.user]. *)
Definition sharedMiddleware (authorization : option string) : Middleware jsobject :=
  match authorization with
  | None => answer 401 (JsonError "Unauthorized: No token provided")
  | Some token =>
      if String.eqb token EmptyString then
        answer 401 (JsonError "Unauthorized: No token provided")
      else
        let token := substring_from 7 token in
        match jwt_verify token with
        | None => answer 403 (JsonError "Forbidden: Invalid token")
        | Some decoded => Next decoded
        end
  end.

(** *** Team routes *)

(** The elements of [$in] cast to the type of the [email] path. *)
Fixpoint cast_emails (items : list jsval) : jserror + list (option string) :=
  match items with
  | [] => inr []
  | v :: rest =>
      match castString v with
      | CastFailed => inl (CastError "email")
      | Unset => emails ← cast_emails rest; inr (None :: emails)
      | Cast e => emails ← cast_emails rest; inr (Some e :: emails)
      end
  end.

(** The users whose email is one of [emails]. *)
Definition with_email_in (emails : list (option string)) (us : list User.t)
    : list User.t :=
  List.filter (fun u => bool_decide (Some (User.email u) ∈ emails)) us.

(** The value of [$in] as the query casts it: a value that is no array
    is wrapped into an array of one element. Both routes ask only when
    [memberEmails] is truthy, and those are the values covered here: a
    falsy one, which no route passes, is answered with a cast error. *)
Definition in_values (memberEmails : jsval) : jserror + list jsval :=
  match memberEmails with
  | JArr items => inr items
  | v => if truthy v then inr [v] else inl (CastError "email")
  end.

(** [User.find({ email: { $in: memberEmails } })] *)
Definition User_find_by_emails (memberEmails : jsval) (s : Store)
    : jserror + list User.t :=
  items ← in_values memberEmails;
  emails ← cast_emails items;
  inr (with_email_in emails (users s)).

(** [members.length !== memberEmails.length] *)
Definition length_differs (members : list User.t) (memberEmails : jsval) : bool :=
  match prop_length memberEmails with
  | inr (JNum (Num q)) =>
      negb (Qeq_bool (inject_Z (Z.of_nat (List.length members))) q)
  | _ => true
  end.

(** A Team document before it is saved. *)
Record TeamDraft : Type := {
  draft_id : ObjectId;
  draft_name : cast string;
  draft_description : cast string;
  draft_members : list ObjectId;
  draft_createdBy : cast ObjectId
}.

(** [team.save()]: the validators of the schema, then the write under
    the unique indexes on [_id] and [name]: an insert for a new document,
    an update for one loaded from the store. *)
Definition Team_save (isNew : bool) (team : TeamDraft) (s : Store)
    : jserror + (Team.t * Store) :=
  name ← required_string "name" name_valid (draft_name team);
  description ← optional_string "description" (length_between 0 1000)
                  (draft_description team);
  createdBy ← match draft_createdBy team with
              | Cast oid => inr oid
              | _ => inl (ValidationError "createdBy")
              end;
  let saved := {| Team._id := draft_id team; Team.name := name;
                  Team.description := description;
                  Team.members := draft_members team;
                  Team.createdBy := createdBy |} in
  if isNew then
    if existsb (fun t' => N.eqb (Team._id t') (draft_id team)) (teams s)
    then inl (E11000 "_id_")
    else if existsb (fun t' => String.eqb (Team.name t') name) (teams s)
    then inl (E11000 "name_1")
    else inr (saved, set_teams s (teams s ++ [saved]))
  else
    if existsb (fun t' => negb (N.eqb (Team._id t') (draft_id team))
                          && String.eqb (Team.name t') name) (teams s)
    then inl (E11000 "name_1")
    else inr (saved, set_teams s
                (map (fun t' => if N.eqb (Team._id t') (draft_id team)
                                then saved else t')
                     (teams s))).

(** The branch of the [catch] blocks of [teamscontroller.js] for
    duplicate keys: the file does not import [RESPONSE_MESSAGES], so
    building the answer throws. *)
Definition duplicate_key_answer (err : jserror) : M Response :=
  _ ← emit (ConsoleLogError "Duplicate key error: " err);
  throw (ReferenceError "RESPONSE_MESSAGES").

(** The [catch] of [POST /teams]. *)
Definition catch_post_teams (err : jserror) : M Response :=
  if bool_decide (err_code err = Some 11000) then duplicate_key_answer err
  else
    res ← send 500 (ErrMessage err);
    _ ← emit (ConsoleLogError EmptyString err);
    _ ← emit (ConsoleLog "Ankur Mandalllll");
    mret res.

(** The [catch] of [PUT /teams/:id]. *)
Definition catch_put_teams (err : jserror) : M Response :=
  if bool_decide (err_code err = Some 11000) then duplicate_key_answer err
  else send 500 (ErrMessage err).

(** [POST /teams]; [user] is [req.user]. *)
Definition post_teams (newId : ObjectId) (user : jsobject) (body : jsobject)
    : Store -> Outcome :=
  let name := get body "name" in
  let description := get body "description" in
  let memberEmails := get body "memberEmails" in
  try_catch
    (if falsy name || falsy memberEmails then
       send 400 (JsonText "Name and member emails are required")
     else
       members ← reading (User_find_by_emails memberEmails);
       if length_differs members memberEmails then
         send 404 (JsonText "Some members not found")
       else
         let team := {| draft_id := newId;
                        draft_name := castString name;
                        draft_description := castString description;
                        draft_members := map User._id members;
                        draft_createdBy := castId (get user "_id") |} in
         if path_falsy (draft_createdBy team) then
           send 400 (JsonText "Created by cannot be blank")
         else
           savedTeam ← writing (Team_save true team);
           send 201 (JsonTeam savedTeam))
    catch_post_teams.

(** [oid.equals(other)] *)
Definition equals (oid : ObjectId) (other : jsval) : bool :=
  match other with
  | JUndefined | JNull => false
  | _ => bool_decide (castObjectId other = Some oid)
  end.

(** [authorizeTeamEdit]; [user] is [req.user]. *)
Definition authorizeTeamEdit (id : string) (user : jsobject) (s : Store)
    : Middleware unit * list Event :=
  match findById Team_lookup (JStr id) s with
  | inr None => (answer 404 (JsonText "Team not found"), [])
  | inr (Some team) =>
      if negb (equals (Team.createdBy team) (get user "_id")) then
        (answer 403 (JsonText "You are not authorized to edit this team"), [])
      else (Next tt, [])
  | inl err =>
      if bool_decide (err_code err = Some 11000) then
        (Throw (ReferenceError "RESPONSE_MESSAGES"),
         [ConsoleLogError "Duplicate key error: " err])
      else (answer 500 (ErrMessage err), [])
  end.

(** [PUT /teams/:id] behind its gate; [user] is [req.user]. *)
Definition put_teams_id (id : string) (user : jsobject) (body : jsobject)
    : Store -> Outcome :=
  guarded_by (authorizeTeamEdit id user) (fun _ =>
    let name := get body "name" in
    let description := get body "description" in
    let memberEmails := get body "memberEmails" in
    try_catch
      (if falsy name && falsy description && falsy memberEmails then
         send 400 (JsonText "Nothing to update")
       else
         members ←
           (if truthy memberEmails then
              found ← reading (User_find_by_emails memberEmails);
              mret (Some found)
            else mret None);
         if match members with
            | Some found => length_differs found memberEmails
            | None => false
            end
         then send 404 (JsonText "Some members not found")
         else
           team ← reading (findById Team_lookup (JStr id));
           match team with
           | None => send 404 (JsonText "Team not found")
           | Some team =>
               let draft :=
                 {| draft_id := Team._id team;
                    draft_name :=
                      if truthy name then castString name else Cast (Team.name team);
                    draft_description :=
                      if truthy description then castString description
                      else match Team.description team with
                           | Some d => Cast d
                           | None => Unset
                           end;
                    draft_members :=
                      match members with
                      | Some found => map User._id found
                      | None => Team.members team
                      end;
                    draft_createdBy := Cast (Team.createdBy team) |} in
               updatedTeam ← writing (Team_save false draft);
               send 200 (JsonTeam updatedTeam)
           end)
      catch_put_teams).

(** A request to [/api/team-management/teams/:id] as [app.js] routes it:
    [sharedMiddleware] first, then the router of the teams. *)
Definition app_put_teams_id (authorization : option string) (id : string)
    (body : jsobject) : Store -> Outcome :=
  guarded (sharedMiddleware authorization) (fun user => put_teams_id id user body).

Definition app_post_teams (authorization : option string) (newId : ObjectId)
    (body : jsobject) : Store -> Outcome :=
  guarded (sharedMiddleware authorization) (fun user => post_teams newId user body).

(** The two verdicts of [validateTask] about the status. *)
Definition status_invalid : Middleware unit :=
  bad_request
    ("Bad Request : Invalid Task Status. Status must be either "
       ++ dquote ++ "open" ++ dquote ++ " or " ++ dquote ++ "closed" ++ dquote).

Definition status_blank : Middleware unit :=
  bad_request "Bad Request : Status cannot be blank".

(** *** The other task routes *)

(** The test of [validateTask] on the three parts of a due date. *)
Definition date_parts_ok (dd mm yy : string) : bool :=
  negb (isNaN (Number dd) || isNaN (Number mm) || isNaN (Number yy)
        || num_lt (Number mm) 1 || num_gt (Number mm) 12
        || num_lt (Number dd) 1 || num_gt (Number dd) 31).

(** [RESPONSE_MESSAGES.TASK_NOT_FOUND(id)] of [helpers/constants.js]. *)
Definition TASK_NOT_FOUND (id : string) : string :=
  "The task with id " ++ id ++ " not found !".

(** [RESPONSE_MESSAGES.NOT_FOUND_ERROR] and [.LOGIN_SUCCESSFUL]. *)
Definition NOT_FOUND_ERROR : string := "User not found.".
Definition LOGIN_SUCCESSFUL : string := "Login Successful.".

(** [GET /tasks/:id] *)
Definition get_tasks_id (id : string) : Store -> Outcome :=
  let idToFetch := id in
  try_catch
    (task ← reading (findById Task_lookup (JStr idToFetch));
     match task with
     | None => send HTTP_STATUS_CODES.NOT_FOUND (Text (TASK_NOT_FOUND idToFetch))
     | Some task => send HTTP_STATUS_CODES.SUCCESS (JsonTask task)
     end)
    log_and_500.

(** [Task.find({ assignedTo: oid })] *)
Definition Task_find_assignedTo (oid : ObjectId) (s : Store) : list Task.t :=
  List.filter (fun t => bool_decide (Task.assignedTo t = Some oid)) (tasks s).

(** [GET /tasks/assigned-to/:userId] *)
Definition get_tasks_assigned_to (userId : string) : Store -> Outcome :=
  try_catch
    (if negb (isValid userId) then send 400 (Text "Invalid user ID")
     else
       tasks ← reading (fun s =>
         match castObjectId (JStr userId) with
         | Some oid => inr (Task_find_assignedTo oid s)
         | None => inl (CastError "assignedTo")
         end);
       if (List.length tasks =? 0)%nat then
         send 404 (Text "No tasks assigned to this user")
       else send 200 (JsonTasks tasks))
    log_and_500.

(** [new mongoose.Types.ObjectId(v)]: a fresh id when [v] is [undefined]
    or [null]; otherwise the id that [v] denotes, or an exception. *)
Variable ObjectId_from : jsval -> option ObjectId.

Definition new_ObjectId (fresh : ObjectId) (v : jsval) : jserror + ObjectId :=
  match v with
  | JUndefined | JNull => inr fresh
  | _ => match ObjectId_from v with
         | Some oid => inr oid
         | None => inl (TypeError "input must be a 24 character hex string, 12 byte Uint8Array, or an integer")
         end
  end.

(** [GET /tasks/assigned-to-me]; [user] is [req.user]. The debugging
    output of the route is left out of the trace. *)
Definition get_tasks_assigned_to_me (fresh : ObjectId) (user : jsobject)
    : Store -> Outcome :=
  try_catch
    (userObjectId ← reading (fun _ => new_ObjectId fresh (get user "id"));
     tasks ← reading (fun s => inr (Task_find_assignedTo userObjectId s));
     if (List.length tasks =? 0)%nat then send 404 (Text "No tasks found.")
     else send 200 (JsonTasks tasks))
    log_and_500.

(** The validators of a comment: [text] is required and at most 1000
    characters long. *)
Definition comment_valid (c : Comment.t) : bool :=
  negb (String.eqb (Comment.text c) EmptyString)
  && length_between 0 1000 (Comment.text c).

(** The comment that [task.comments.push({ user, text })] builds;
    [createdAt] defaults to the time of the push. *)
Definition new_comment (now : Z) (user text : jsval) : jserror + Comment.t :=
  author ← match castId user with
           | Cast oid => inr oid
           | Unset | CastFailed => inl (ValidationError "comments.user")
           end;
  text ← required_string "comments.text" (length_between 0 1000) (castString text);
  inr {| Comment.user := author; Comment.text := text; Comment.createdAt := now |}.

Definition with_comments (comments : list Comment.t) (t : Task.t) : Task.t :=
  {| Task._id := Task._id t; Task.title := Task.title t;
     Task.description := Task.description t; Task.status := Task.status t;
     Task.dueDate := Task.dueDate t; Task.assignedTo := Task.assignedTo t;
     Task.comments := comments |}.

(** [task.save()] after the push: the required paths of the document
    and its comments are validated, then the document is written. *)
Definition Task_save_comments (task : Task.t) (comments : list Comment.t)
    (s : Store) : jserror + (Task.t * Store) :=
  _ ← required_string "title" title_valid (Cast (Task.title task));
  _ ← required_string "description" description_valid (Cast (Task.description task));
  _ ← required_string "status" status_valid (Cast (Task.status task));
  if forallb comment_valid comments then
    let task' := with_comments comments task in
    inr (task', set_tasks s
           (map (fun t' => if N.eqb (Task._id t') (Task._id task) then task' else t')
                (tasks s)))
  else inl (ValidationError "comments").

(** [POST /tasks/:taskId/comments]; [user] is [req.user], [now] the
    clock. *)
Definition post_tasks_taskId_comments (now : Z) (user : jsobject)
    (taskId : string) (body : jsobject) : Store -> Outcome :=
  let text := get body "text" in
  let userId := get user "id" in
  try_catch
    (task ← reading (findById Task_lookup (JStr taskId));
     match task with
     | None => send 404 (Text "Task not found")
     | Some task =>
         comment ← reading (fun _ => new_comment now userId text);
         task ← writing (Task_save_comments task (Task.comments task ++ [comment]));
         send 201 (JsonTask task)
     end)
    (fun err => send 500 (ErrMessage err)).

(** *** Routes that answer with other bodies *)

(** The bodies of the task and team routes, [null], a user document, or
    an object literal. *)
Inductive json : Type :=
  | Plain (b : body)
  | JsonNull
  | JsonUser (user : User.t)
  | JsonObject (o : jsobject).

Record Sent : Type := {
  code : Z;
  content : json
}.

Inductive Result : Type :=
  | Replies (res : Sent)
  | Raises (err : jserror).

Record Served : Type := {
  result : Result;
  state : Store;
  trace : list Event
}.

Definition reply_with (status : Z) (c : json) : M Sent :=
  mret {| code := status; content := c |}.

(** [try { block } catch (err) { handler }] for these routes. *)
Definition trying (block : M Sent) (handler : jserror -> M Sent)
    (s : Store) : Served :=
  match block s with
  | (inr res, s', evs) => {| result := Replies res; state := s'; trace := evs |}
  | (inl err, s', evs) =>
      match handler err s' with
      | (inr res, s'', evs') =>
          {| result := Replies res; state := s''; trace := evs ++ evs' |}
      | (inl err', s'', evs') =>
          {| result := Raises err'; state := s''; trace := evs ++ evs' |}
      end
  end.

(** A route without [try]: what it throws escapes. *)
Definition unguarded (block : M Sent) (s : Store) : Served :=
  match block s with
  | (inr res, s', evs) => {| result := Replies res; state := s'; trace := evs |}
  | (inl err, s', evs) => {| result := Raises err; state := s'; trace := evs |}
  end.

(** The [catch] of the task routes, for these bodies. *)
Definition log_and_500' (err : jserror) : M Sent :=
  _ ← emit (ConsoleLogError "Error logged: " err);
  reply_with HTTP_STATUS_CODES.INTERNAL_SERVER_ERROR (Plain (Errmsg (err_errmsg err))).

(** The tasks without the first one whose id is [oid]. *)
Fixpoint without_task (oid : ObjectId) (ts : list Task.t) : list Task.t :=
  match ts with
  | [] => []
  | t :: rest =>
      if N.eqb (Task._id t) oid then rest else t :: without_task oid rest
  end.

(** [Task.findByIdAndDelete(id)]: removes the document and returns it,
    or returns [null]. *)
Definition Task_findByIdAndDelete (id : jsval) (s : Store)
    : jserror + (option Task.t * Store) :=
  found ← findById Task_lookup id s;
  match found with
  | None => inr (None, s)
  | Some task => inr (Some task, set_tasks s (without_task (Task._id task) (tasks s)))
  end.

(** [res.json(task)] for a task or [null]. *)
Definition json_task (task : option Task.t) : json :=
  match task with
  | Some t => Plain (JsonTask t)
  | None => JsonNull
  end.

(** [DELETE /tasks/:id] *)
Definition delete_tasks_id (id : string) : Store -> Served :=
  let taskId := id in
  trying
    (task ← reading (findById Task_lookup (JStr taskId));
     match task with
     | None =>
         reply_with HTTP_STATUS_CODES.NOT_FOUND (Plain (Text (TASK_NOT_FOUND taskId)))
     | Some _ =>
         deletedTask ← writing (Task_findByIdAndDelete (JStr taskId));
         reply_with HTTP_STATUS_CODES.SUCCESS (json_task deletedTask)
     end)
    log_and_500'.

(** *** Registration and login, [controller/authenticationcontroller.js] *)

(** [RESPONSE_MESSAGES.EMAIL_REGEX.test(v)] *)
Variable EMAIL_REGEX_test : jsval -> bool.
(** [bcrypt.hashSync(password, 8)] and [bcrypt.compareSync(password,
    hash)], which throw on arguments they do not accept. *)
Variable hashSync : jsval -> jserror + string.
Variable compareSync : jsval -> string -> jserror + bool.
(** [jwt.sign(payload, process.env.JWT_SIGNING_SECRET, { expiresIn:
    86400 })] at a given time. *)
Variable jwt_sign : jsobject -> Z -> string.
(** The bindings that the controller takes from [helpers/constants]. *)
Variable ERROR_EMAIL_FORMAT : jsval.
Variable ERROR_EMAIL_EXISTS : jsval.
Variable ERROR_PASSWORD_MANDATORY : jsval.
Variable ERROR_EMAIL_NOT_FOUND : jsval.
Variable ERROR_INVALID_PASSWORD : jsval.

Definition json_error (v : jsval) : json := JsonObject {[ "error" := v ]}.

Definition json_body_status (message : string) (status : Z) : json :=
  JsonObject {[ "body" := JStr message;
                "status" := JNum (Num (inject_Z status)) ]}.

(** [validateRequestBodyForRegistration]: [Some] answer, or [None] for
    [next()]. *)
Definition validateRequestBodyForRegistration (body : jsobject) : option Sent :=
  let firstName := get body "firstName" in
  let lastName := get body "lastName" in
  let email := get body "email" in
  let password := get body "password" in
  if falsy firstName then
    Some {| code := 400;
            content := json_body_status "Bad Request: First Name cannot be blank" 400 |}
  else if falsy lastName then
    Some {| code := 400;
            content := json_body_status "Bad Request: Last Name cannot be blank" 400 |}
  else if falsy password then
    Some {| code := 400; content := json_error ERROR_PASSWORD_MANDATORY |}
  else if falsy email || negb (EMAIL_REGEX_test email) then
    Some {| code := 400; content := json_error ERROR_EMAIL_FORMAT |}
  else None.

Definition set_users (s : Store) (us : list User.t) : Store :=
  {| users := us; tasks := tasks s; teams := teams s |}.

(** [User.findOne({ email: v })]: [undefined] and [null] ask for a
    document without an email, and every user has one. *)
Definition User_findOne_email (v : jsval) (s : Store) : jserror + option User.t :=
  match castString v with
  | Cast e => inr (List.find (fun u => String.eqb (User.email u) e) (users s))
  | Unset => inr None
  | CastFailed => inl (CastError "email")
  end.

Definition any_string (s : string) : bool := true.  (* no validator besides [required] *)

(** [new User({ firstName, lastName, email, password }).save()]: four
    required strings, unique indexes on [_id] and [email]. *)
Definition User_create (newId : ObjectId) (firstName lastName email : jsval)
    (password : string) (s : Store) : jserror + (User.t * Store) :=
  f ← required_string "firstName" any_string (castString firstName);
  l ← required_string "lastName" any_string (castString lastName);
  e ← required_string "email" any_string (castString email);
  p ← required_string "password" any_string (Cast password);
  let user := {| User._id := newId; User.firstName := f; User.lastName := l;
                 User.email := e; User.password := p |} in
  if existsb (fun u => N.eqb (User._id u) newId) (users s) then inl (E11000 "_id_")
  else if existsb (fun u => String.eqb (User.email u) e) (users s)
  then inl (E11000 "email_1")
  else inr (user, set_users s (users s ++ [user])).

(** [POST /register] *)
Definition post_register (newId : ObjectId) (body : jsobject) : Store -> Served :=
  match validateRequestBodyForRegistration body with
  | Some res => fun s => {| result := Replies res; state := s; trace := [] |}
  | None =>
      let firstName := get body "firstName" in
      let lastName := get body "lastName" in
      let email := get body "email" in
      let password := get body "password" in
      trying
        (userFromDb ← reading (User_findOne_email email);
         match userFromDb with
         | Some _ => reply_with 400 (json_error ERROR_EMAIL_EXISTS)
         | None =>
             hash ← reading (fun _ => hashSync password);
             _ ← writing (User_create newId firstName lastName email hash);
             reply_with 201 (json_body_status "User Registered Successfully" 201)
         end)
        (fun err =>
           if bool_decide (err_code err = Some 11000) then
             _ ← emit (ConsoleLogError "Duplicate key error: " err);
             reply_with 400 (json_error ERROR_EMAIL_EXISTS)
           else
             _ ← emit (ConsoleLogError "Error logged: " err);
             reply_with 500 (Plain (Errmsg (err_errmsg err))))
  end.

(** [POST /login], at time [now]; the route has no [try]. *)
Definition post_login (now : Z) (body : jsobject) : Store -> Served :=
  let email := get body "email" in
  let password := get body "password" in
  unguarded
    (user ← reading (User_findOne_email email);
     match user with
     | None => reply_with 404 (json_error ERROR_EMAIL_NOT_FOUND)
     | Some user =>
         passwordMatch ← reading (fun _ => compareSync password (User.password user));
         if negb passwordMatch then
           reply_with 401 (json_error ERROR_INVALID_PASSWORD)
         else
           let token := jwt_sign (login_payload user) now in
           reply_with 200
             (JsonObject {[ "email" := JStr (User.email user);
                            "message" := JStr LOGIN_SUCCESSFUL;
                            "token" := JStr token ]})
     end).

(** [GET /me] of [controller/usercontroller.js]; [user] is [req.user]. *)
Definition get_me (user : jsobject) : Store -> Served :=
  let email := get user "email" in
  trying
    (found ← reading (User_findOne_email email);
     match found with
     | None => reply_with HTTP_STATUS_CODES.NOT_FOUND (Plain (Text NOT_FOUND_ERROR))
     | Some found => reply_with HTTP_STATUS_CODES.SUCCESS (JsonUser found)
     end)
    log_and_500'.

(** *** What the store is expected to satisfy *)

(** The validators of the Task schema on a stored document. *)
Definition schema_valid (t : Task.t) : bool :=
  negb (String.eqb (Task.title t) EmptyString) && title_valid (Task.title t)
  && negb (String.eqb (Task.description t) EmptyString)
  && description_valid (Task.description t)
  && status_valid (Task.status t)
  && forallb comment_valid (Task.comments t).

(** The tasks of a store that the unique indexes and the validators
    have let in: no two with the same [_id] or the same title, each one
    valid. *)
Definition tasks_ok (s : Store) : Prop :=
  NoDup (map Task._id (tasks s))
  /\ NoDup (map Task.title (tasks s))
  /\ Forall (fun t => schema_valid t = true) (tasks s).

(** The same for the users: unique [_id], unique email. *)
Definition users_ok (s : Store) : Prop :=
  NoDup (map User._id (users s)) /\ NoDup (map User.email (users s)).

(** The same for the teams: unique [_id], unique name. *)
Definition teams_ok (s : Store) : Prop :=
  NoDup (map Team._id (teams s)) /\ NoDup (map Team.name (teams s)).

(** A computation keeps a property of the store when the store it leaves,
    whether it returns or throws, has the property if the one it started
    from had it. *)
Definition keeps {A} (P : Store -> Prop) (m : M A) : Prop :=
  forall s, P s -> P (m s).1.2.

(** Every assignee among [ts] is one of the users [us]. *)
Definition assignees_in (us : list User.t) (ts : list Task.t) : Prop :=
  Forall (fun t => forall uid, Task.assignedTo t = Some uid ->
                               uid ∈ map User._id us) ts.

(** Every task of the store that has an assignee is assigned to a stored
    user. *)
Definition assignees_ok (s : Store) : Prop :=
  assignees_in (users s) (tasks s).

(** The same, for a store whose users are [us]. *)
Definition assigned_within (us : list User.t) (s : Store) : Prop :=
  users s = us /\ assignees_in us (tasks s).

(** Who created which team. *)
Definition owners (s : Store) : list (ObjectId * ObjectId) :=
  map (fun t => (Team._id t, Team.createdBy t)) (teams s).

(** * Properties *)

(** Unfolds the plumbing of a handler. *)
Ltac run :=
  unfold try_catch, log_and_500, reading, writing, send, emit, throw;
  unfold mbind, mret, M_bind, M_ret, sum_bind, sum_ret;
  simpl.

(** Brings the tests recorded by a case analysis into a usable form. *)
Ltac tests :=
  repeat match goal with
         | H : negb _ = false |- _ => apply negb_false_iff in H
         | H : _ || _ = false |- _ => apply orb_false_iff in H as [? ?]
         end.

(** ** Numbers and strings *)

Lemma Qle_bool_inject_Z (a b : Z) :
  Qle_bool (inject_Z a) (inject_Z b) = (a <=? b)%Z.
Proof. unfold Qle_bool, inject_Z; simpl. by rewrite !Z.mul_1_r. Qed.

Lemma less_str_length (s : string) (k : Z) :
  less (str_length s) k = (Z.of_nat (String.length s) <? k)%Z.
Proof.
  unfold less, str_length, num_lt. rewrite Qle_bool_inject_Z.
  by rewrite Z.ltb_antisym.
Qed.

Lemma greater_str_length (s : string) (k : Z) :
  greater (str_length s) k = (k <? Z.of_nat (String.length s))%Z.
Proof.
  unfold greater, str_length, num_gt. rewrite Qle_bool_inject_Z.
  by rewrite Z.ltb_antisym.
Qed.

Lemma includes_status (v : jsval) :
  includes TaskStatus_values v = true -> v = JStr "open" \/ v = JStr "closed".
Proof.
  destruct v; simpl; try discriminate.
  intros H. apply bool_decide_eq_true in H.
  unfold TaskStatus_values in H.
  apply elem_of_cons in H as [-> | H]; [by left |].
  apply elem_of_cons in H as [-> | H]; [by right |].
  by apply elem_of_nil in H.
Qed.

Lemma includes_not_empty (v : jsval) :
  includes TaskStatus_values v = true -> isEmpty v = false.
Proof. intros H. by destruct (includes_status v H) as [-> | ->]. Qed.

(** ** The validator *)

(** The check "Status cannot be blank" stands behind the membership
    test, which an empty status has already failed: no payload gets
    that verdict. *)
Lemma validateTask_never_status_blank (body : jsobject) :
  validateTask body <> status_blank.
Proof.
  unfold validateTask, status_blank, bad_request, answer.
  repeat match goal with
         | |- context [if ?c then _ else _] => destruct c eqn:?
         | |- context [match ?x with _ => _ end] => destruct x eqn:?
         end;
    try discriminate.
  tests.
  match goal with
  | H : includes _ _ = true |- _ => apply includes_not_empty in H; congruence
  end.
Qed.

Lemma isEmpty_not_included (v : jsval) :
  isEmpty v = true -> includes TaskStatus_values v = false.
Proof.
  intros H. destruct (includes TaskStatus_values v) eqn:E; [| done].
  apply includes_not_empty in E. congruence.
Qed.

(** A payload with an empty field is answered with 400. *)
Lemma validateTask_empty_field (body : jsobject) :
  isEmpty (get body "title") = true \/ isEmpty (get body "description") = true
  \/ isEmpty (get body "status") = true \/ isEmpty (get body "dueDate") = true ->
  exists message, validateTask body = bad_request message.
Proof.
  intros H. unfold validateTask.
  repeat match goal with
         | |- context [if ?c then _ else _] => destruct c eqn:?
         | |- context [match ?x with _ => _ end] => destruct x eqn:?
         end;
    try (eexists; reflexivity);
    try (destruct (get body "title"); discriminate);
    try (destruct (get body "description"); discriminate);
    tests;
    destruct H as [H | [H | [H | H]]]; try congruence;
    apply isEmpty_not_included in H; congruence.
Qed.

(** What a payload that passes has gone through. *)
Lemma validateTask_Next (body : jsobject) :
  validateTask body = Next tt ->
  isEmpty (get body "title") = false
  /\ (exists len, prop_length (get body "title") = inr len
                  /\ less len 5 = false /\ greater len 100 = false)
  /\ isEmpty (get body "description") = false
  /\ (exists len, prop_length (get body "description") = inr len
                  /\ greater len 1000 = false)
  /\ includes TaskStatus_values (get body "status") = true
  /\ isEmpty (get body "dueDate") = false
  /\ (truthy (get body "dueDate") = true -> exists s, get body "dueDate" = JStr s).
Proof.
  unfold validateTask.
  repeat match goal with
         | |- context [if ?c then _ else _] => destruct c eqn:?
         | |- context [match ?x with _ => _ end] => destruct x eqn:?
         end;
    try discriminate; intros _;
    tests;
    repeat split; try done; try (eexists; done); try (intros; congruence).
Qed.

(** C4. With a valid title and a valid description, a status that is
    absent or empty is answered with the verdict of the membership test
    ("Invalid Task Status"), and not with "Status cannot be blank". *)
Theorem validateTask_blank_status_reported_invalid
    (body : jsobject) (t d : string) :
  get body "title" = JStr t -> trim t <> EmptyString ->
  (5 <= String.length t <= 100)%nat ->
  get body "description" = JStr d -> trim d <> EmptyString ->
  (String.length d <= 1000)%nat ->
  isEmpty (get body "status") = true ->
  validateTask body = status_invalid /\ validateTask body <> status_blank.
Proof.
  intros Ht Htrim Hlen Hd Hdtrim Hdlen Hstatus.
  split; [| apply validateTask_never_status_blank].
  unfold validateTask. rewrite Ht, Hd. simpl.
  rewrite (bool_decide_eq_false_2 _ Htrim), (bool_decide_eq_false_2 _ Hdtrim).
  rewrite !Qle_bool_inject_Z.
  replace (5 <=? Z.of_nat (String.length t))%Z with true by lia.
  replace (Z.of_nat (String.length t) <=? 100)%Z with true by lia.
  replace (Z.of_nat (String.length d) <=? 1000)%Z with true by lia.
  simpl. by rewrite (isEmpty_not_included _ Hstatus).
Qed.

(** ** Listing tasks *)

(** C10, as amended. A status filter that is truthy and not one of the
    enumerated values is answered with 400 "Invalid task status" whatever
    the store holds; a filter that is falsy (the empty string) is treated
    as absent; and the filter handed to [Task.find] is empty or asks for
    one of the two enumerated values. *)
Theorem get_tasks_status_filter (query : jsobject) :
  (truthy (get query "status") = true ->
   includes TaskStatus_values (get query "status") = false ->
   forall s, get_tasks query s = respond 400 (Text "Invalid task status") s [])
  /\ (truthy (get query "status") = false -> tasks_filter query = inr ∅)
  /\ (forall filter, tasks_filter query = inr filter ->
        filter = ∅ \/ filter = {[ "status" := JStr "open" ]}
        \/ filter = {[ "status" := JStr "closed" ]}).
Proof.
  split; [| split].
  - intros Htruthy Hnot s.
    unfold get_tasks, try_catch, tasks_filter. by rewrite Htruthy, Hnot.
  - intros Hfalsy. unfold tasks_filter. by rewrite Hfalsy.
  - intros filter. unfold tasks_filter.
    destruct (truthy (get query "status")) eqn:Htruthy; simpl.
    + destruct (includes TaskStatus_values (get query "status")) eqn:Hin;
        simpl; [| discriminate].
      intros [= <-]. destruct (includes_status _ Hin) as [-> | ->]; auto.
    + intros [= <-]. by left.
Qed.

(** ** Completing a task *)

Lemma lookup_after_update (update : Task.t -> Task.t) (oid : ObjectId)
    (ts : list Task.t) :
  (forall t, Task._id t = oid -> Task._id (update t) = oid) ->
  List.find (fun t => N.eqb (Task._id t) oid)
    (map (fun t' => if N.eqb (Task._id t') oid then update t' else t') ts)
  = update <$> List.find (fun t => N.eqb (Task._id t) oid) ts.
Proof.
  intros Hid. induction ts as [| t ts IH]; [done |].
  simpl. destruct (N.eqb (Task._id t) oid) eqn:E; simpl.
  - rewrite (Hid t) by (by apply N.eqb_eq). by rewrite N.eqb_refl.
  - by rewrite E.
Qed.

Lemma Task_lookup_id (oid : ObjectId) (s : Store) (task : Task.t) :
  Task_lookup oid s = Some task -> Task._id task = oid.
Proof.
  unfold Task_lookup. intros H. apply find_some in H as [_ H].
  by apply N.eqb_eq in H.
Qed.

(** [PATCH /tasks/:id/complete] on the three kinds of id. *)
Lemma complete_outcome (id : string) (s : Store) :
  patch_tasks_id_complete id s =
  match castObjectId (JStr id) with
  | None => respond 400 (Text "Invalid task ID") s []
  | Some oid =>
      match Task_lookup oid s with
      | None => respond 404 (Text "Task not found") s []
      | Some task =>
          respond 200 (JsonTask (with_status "closed" task))
            (set_tasks s
               (map (fun t' => if N.eqb (Task._id t') oid
                               then with_status "closed" t' else t') (tasks s)))
            []
      end
  end.
Proof.
  unfold patch_tasks_id_complete, isValid, Task_findByIdAndUpdate, findById, castId.
  destruct (castObjectId (JStr id)) as [oid |] eqn:Hcast.
  - rewrite bool_decide_eq_true_2 by eauto. run.
    destruct (Task_lookup oid s) as [task |] eqn:Hfind; simpl; [| done].
    by rewrite (Task_lookup_id _ _ _ Hfind).
  - rewrite bool_decide_eq_false_2 by (intros [? ?]; discriminate). done.
Qed.

(** C6. A malformed id is answered with 400 and an id without a task
    with 404, the store unchanged in both cases; for the id of a stored
    task, Complete answers 200 with the task closed whatever its status
    was, and a second Complete answers 200 with the task closed again. *)
Theorem complete_is_idempotent (id : string) (s : Store) :
  let first := patch_tasks_id_complete id s in
  let second := patch_tasks_id_complete id (db first) in
  match castObjectId (JStr id) with
  | None =>
      isValid id = false
      /\ first = respond 400 (Text "Invalid task ID") s []
  | Some oid =>
      match Task_lookup oid s with
      | None => first = respond 404 (Text "Task not found") s []
      | Some task =>
          let closed := with_status "closed" task in
          reply first = Responds {| statusCode := 200; payload := JsonTask closed |}
          /\ Task_lookup oid (db first) = Some closed
          /\ Task.status closed = "closed"
          /\ reply second = Responds {| statusCode := 200; payload := JsonTask closed |}
          /\ Task_lookup oid (db second) = Some closed
      end
  end.
Proof.
  intros first second. subst second first.
  rewrite (complete_outcome id s).
  destruct (castObjectId (JStr id)) as [oid |] eqn:Hcast.
  - destruct (Task_lookup oid s) as [task |] eqn:Hfind; [| done].
    assert (Hfirst : Task_lookup oid
              (set_tasks s (map (fun t' => if N.eqb (Task._id t') oid
                                           then with_status "closed" t' else t')
                              (tasks s)))
            = Some (with_status "closed" task)).
    { unfold Task_lookup in Hfind |- *. simpl.
      rewrite lookup_after_update by done. by rewrite Hfind. }
    simpl. rewrite complete_outcome, Hcast, Hfirst. simpl.
    repeat split; try done.
    unfold Task_lookup in Hfind |- *. simpl.
    rewrite lookup_after_update by done.
    rewrite lookup_after_update by done. by rewrite Hfind.
  - split; [| done].
    unfold isValid. rewrite Hcast.
    apply bool_decide_eq_false_2. intros [? ?]; discriminate.
Qed.

(** ** Notification dispatch *)

(** [sendEmail] resolves whatever the transport does, and does not touch
    the store. *)
Lemma sendEmail_resolves (sendMail : MailOptions -> transport_result)
    (m : MailOptions) (s : Store) :
  sendEmail sendMail m s =
  (inr tt, s,
   SendMail m :: match sendMail m with
                 | Delivered response => [ConsoleLog ("Email sent: " ++ response)]
                 | Failed error => [ConsoleErrorMail error]
                 end).
Proof. unfold sendEmail. run. by destruct (sendMail m). Qed.

(** The reply and the store of an Update do not depend on the transport. *)
Lemma put_tasks_id_transport (sendMail sendMail' : MailOptions -> transport_result)
    (id : string) (body : jsobject) (s : Store) :
  reply (put_tasks_id sendMail id body s) = reply (put_tasks_id sendMail' id body s)
  /\ db (put_tasks_id sendMail id body s) = db (put_tasks_id sendMail' id body s).
Proof.
  unfold put_tasks_id, guarded.
  destruct (validateTask body); [done | | done].
  unfold or_task. run.
  destruct (parsedDueDate (get body "dueDate")); [done |]. simpl.
  destruct (findById Task_lookup (JStr id) s) as [| [taskfromDB |]]; [done | | done].
  simpl.
  destruct (truthy (get body "title")); [| done]. simpl.
  destruct (truthy (get body "description")); [| done]. simpl.
  destruct (truthy (get body "status")); [| done]. simpl.
  destruct (bool_decide (is_Some o)); [| done]. simpl.
  destruct (Task_save _ _ _ _ _ _) as [| [updatedTask s']]; [done |]. simpl.
  destruct (Task.assignedTo updatedTask); [| done]. simpl.
  destruct (populateEmailForAssignee _ _ _); [done |]. simpl.
  rewrite !sendEmail_resolves. done.
Qed.

(** The reply and the store of an Assign do not depend on it either. *)
Lemma put_tasks_id_assign_transport
    (sendMail sendMail' : MailOptions -> transport_result)
    (id : string) (body : jsobject) (s : Store) :
  reply (put_tasks_id_assign sendMail id body s)
  = reply (put_tasks_id_assign sendMail' id body s)
  /\ db (put_tasks_id_assign sendMail id body s)
     = db (put_tasks_id_assign sendMail' id body s).
Proof.
  unfold put_tasks_id_assign, guarded_by.
  destruct (userExists body s) as [[| user |] ?]; [done | | done].
  destruct (taskExists id s) as [[| task |] ?]; [done | | done].
  run.
  destruct (assignedTo_update _); [done |]. simpl.
  destruct (Task_findByIdAndUpdate _ _ _) as [| [[updatedTask |] s']];
    [done | | done].
  simpl.
  destruct (populateEmailForAssignee _ _ _); [done |]. simpl.
  rewrite !sendEmail_resolves. done.
Qed.

(** C7. A failure of the transport is caught inside [sendEmail], which
    logs it and resolves; the reply and the store that an Update or an
    Assign leaves are the same for every behaviour of the transport. *)
Theorem transport_failure_is_absorbed
    (sendMail sendMail' : MailOptions -> transport_result)
    (id : string) (body : jsobject) (s : Store) (m : MailOptions) :
  (exists evs, sendEmail sendMail m s = (inr tt, s, evs)
               /\ (forall error, sendMail m = Failed error ->
                     evs = [SendMail m; ConsoleErrorMail error]))
  /\ reply (put_tasks_id sendMail id body s) = reply (put_tasks_id sendMail' id body s)
  /\ db (put_tasks_id sendMail id body s) = db (put_tasks_id sendMail' id body s)
  /\ reply (put_tasks_id_assign sendMail id body s)
     = reply (put_tasks_id_assign sendMail' id body s)
  /\ db (put_tasks_id_assign sendMail id body s)
     = db (put_tasks_id_assign sendMail' id body s).
Proof.
  split.
  - eexists. split; [apply sendEmail_resolves |].
    intros error Herr. by rewrite Herr.
  - destruct (put_tasks_id_transport sendMail sendMail' id body s).
    destruct (put_tasks_id_assign_transport sendMail sendMail' id body s).
    auto.
Qed.

(** ** Identity and the teams *)

(** The decoded login token carries [id], never [_id]. *)
Lemma login_identity_has_no__id (user : User.t) (iat : Z) :
  get (claims (login_payload user) iat) "_id" = JUndefined.
Proof. unfold get, claims, login_payload. by simplify_map_eq. Qed.

Lemma login_identity_id (user : User.t) (iat : Z) :
  get (claims (login_payload user) iat) "id" = JStr (toHexString (User._id user)).
Proof. unfold get, claims, login_payload. by simplify_map_eq. Qed.

Lemma sharedMiddleware_decodes (authorization : string) (decoded : jsobject) :
  authorization <> EmptyString ->
  jwt_verify (substring_from 7 authorization) = Some decoded ->
  sharedMiddleware (Some authorization) = Next decoded.
Proof.
  intros Hne Hverify. unfold sharedMiddleware.
  destruct (String.eqb authorization EmptyString) eqn:E.
  - by apply String.eqb_eq in E.
  - by rewrite Hverify.
Qed.

(** The gate looks for the team first. *)
Lemma authorizeTeamEdit_missing_team (id : string) (user : jsobject) (s : Store) :
  findById Team_lookup (JStr id) s = inr None ->
  authorizeTeamEdit id user s = (answer 404 (JsonText "Team not found"), []).
Proof. intros H. unfold authorizeTeamEdit. by rewrite H. Qed.

(** With an identity that does carry [_id], as the test harness attaches
    it, the gate is the ownership test. *)
Lemma authorizeTeamEdit_with__id (id : string) (user : jsobject) (s : Store)
    (team : Team.t) (hex : string) (uid : ObjectId) :
  findById Team_lookup (JStr id) s = inr (Some team) ->
  get user "_id" = JStr hex ->
  castObjectId (JStr hex) = Some uid ->
  authorizeTeamEdit id user s = (Next tt, []) <-> Team.createdBy team = uid.
Proof.
  intros Hteam Hid Hcast. unfold authorizeTeamEdit, equals.
  rewrite Hteam, Hid, Hcast.
  destruct (decide (Team.createdBy team = uid)) as [Heq | Hne].
  - rewrite bool_decide_eq_true_2 by congruence. done.
  - rewrite bool_decide_eq_false_2 by congruence. simpl. split; [done |].
    intros Heq. done.
Qed.

(** C1. Whoever holds a login token — the creator of the team
    included — is answered 403 by the gate of Team.Update: the gate
    compares [createdBy] with [req.user._id], and the token carries the
    user's id under [id]. *)
Theorem authorizeTeamEdit_forbids_login_identity
    (authorization id : string) (body : jsobject) (s : Store)
    (team : Team.t) (owner : User.t) (iat : Z) :
  authorization <> EmptyString ->
  jwt_verify (substring_from 7 authorization)
    = Some (claims (login_payload owner) iat) ->
  findById Team_lookup (JStr id) s = inr (Some team) ->
  Team.createdBy team = User._id owner ->
  app_put_teams_id (Some authorization) id body s
  = respond 403 (JsonText "You are not authorized to edit this team") s [].
Proof.
  intros Hne Hverify Hteam _.
  unfold app_put_teams_id.
  rewrite (sharedMiddleware_decodes _ _ Hne Hverify). simpl.
  unfold put_teams_id, guarded_by, authorizeTeamEdit.
  by rewrite Hteam, login_identity_has_no__id.
Qed.

(** Nothing [POST /teams] does for a login identity reaches the store. *)
Lemma post_teams_login_identity_creates_nothing
    (newId : ObjectId) (body : jsobject) (s : Store) (caller : User.t) (iat : Z) :
  db (post_teams newId (claims (login_payload caller) iat) body s) = s
  /\ forall res, reply (post_teams newId (claims (login_payload caller) iat) body s)
                 = Responds res -> statusCode res <> 201.
Proof.
  unfold post_teams. rewrite login_identity_has_no__id.
  unfold catch_post_teams, duplicate_key_answer. run.
  destruct (falsy (get body "name") || falsy (get body "memberEmails")); simpl.
  { split; [done |]. by intros res [= <-]. }
  destruct (User_find_by_emails (get body "memberEmails") s) as [err | members];
    simpl.
  { destruct (bool_decide (err_code err = Some 11000)); simpl;
      (split; [done |]); [done |]. by intros res [= <-]. }
  destruct (length_differs members (get body "memberEmails")); simpl;
    (split; [done |]); by intros res [= <-].
Qed.

(** C2. For a caller authenticated by a login token, a Create with a
    name and member emails that all resolve is answered 400 "Created by
    cannot be blank" and stores no team: [createdBy] is read from
    [req.user._id], which the token does not carry. *)
Theorem post_teams_rejects_login_identity
    (authorization : string) (newId : ObjectId) (body : jsobject) (s : Store)
    (caller : User.t) (iat : Z) (members : list User.t) :
  authorization <> EmptyString ->
  jwt_verify (substring_from 7 authorization)
    = Some (claims (login_payload caller) iat) ->
  truthy (get body "name") = true ->
  User_find_by_emails (get body "memberEmails") s = inr members ->
  length_differs members (get body "memberEmails") = false ->
  app_post_teams (Some authorization) newId body s
  = respond 400 (JsonText "Created by cannot be blank") s [].
Proof.
  intros Hne Hverify Hname Hfind Hlen.
  unfold app_post_teams.
  rewrite (sharedMiddleware_decodes _ _ Hne Hverify). simpl.
  unfold post_teams. rewrite login_identity_has_no__id.
  unfold falsy. rewrite Hname. simpl.
  assert (Htruthy : truthy (get body "memberEmails") = true).
  { destruct (truthy (get body "memberEmails")) eqn:E; [done |].
    unfold User_find_by_emails, in_values in Hfind.
    destruct (get body "memberEmails");
      try (by rewrite E in Hfind); by simpl in E. }
  rewrite Htruthy. run. by rewrite Hfind, Hlen.
Qed.

(** ** Resolving member emails *)

Lemma Qeq_bool_inject_Z (a b : Z) :
  Qeq_bool (inject_Z a) (inject_Z b) = true <-> a = b.
Proof.
  rewrite Qeq_bool_iff. split.
  - apply inject_Z_injective.
  - by intros ->.
Qed.

Lemma cast_emails_strings (emails : list string) :
  cast_emails (map JStr emails) = inr (map Some emails).
Proof.
  induction emails as [| e emails IH]; [done |].
  simpl. rewrite IH. done.
Qed.

Abbreviation resolved emails us := (with_email_in (map Some emails) us).

Lemma resolved_email (emails : list string) (us : list User.t) (u : User.t) :
  u ∈ resolved emails us -> u ∈ us /\ User.email u ∈ emails.
Proof.
  unfold with_email_in. rewrite !list_elem_of_In, filter_In.
  intros [Hin Hmem]. split; [done |].
  apply bool_decide_eq_true in Hmem.
  apply list_elem_of_fmap in Hmem as (e & Heq & He).
  injection Heq as ->. by apply list_elem_of_In.
Qed.

Lemma resolved_NoDup (emails : list string) (us : list User.t) :
  NoDup (map User.email us) -> NoDup (map User.email (resolved emails us)).
Proof.
  induction us as [| u us IH]; [done |].
  simpl. rewrite NoDup_cons. intros [Hnotin Hnodup].
  destruct (bool_decide _); [| by apply IH].
  simpl. apply NoDup_cons. split; [| by apply IH].
  intros Hin. apply Hnotin.
  apply list_elem_of_fmap in Hin as (u' & -> & Hu').
  apply list_elem_of_fmap. exists u'. split; [done |].
  by apply resolved_email in Hu' as [? _].
Qed.



(** ** Creating and updating tasks *)

Lemma validateTask_Answer (body : jsobject) (res : Response) :
  validateTask body = Answer res -> exists message, res = {| statusCode := 400; payload := Text message |}.
Proof.
  unfold validateTask, bad_request, answer.
  repeat match goal with
         | |- context [if ?c then _ else _] => destruct c eqn:?
         | |- context [match ?x with _ => _ end] => destruct x eqn:?
         end;
    try discriminate; intros [= <-]; eauto.
Qed.

Lemma nonblank_truthy (s : string) :
  isEmpty (JStr s) = false -> truthy (JStr s) = true.
Proof. destruct s; [discriminate | done]. Qed.

Lemma nonblank_nonempty (s : string) :
  isEmpty (JStr s) = false -> String.eqb s EmptyString = false.
Proof. destruct s; [discriminate | done]. Qed.

Section Validated.

Variable body : jsobject.
Hypothesis Hvalid : validateTask body = Next tt.

Lemma validated_title (t : string) :
  get body "title" = JStr t ->
  truthy (get body "title") = true
  /\ required_string "title" title_valid (castString (get body "title")) = inr t.
Proof using Hvalid.
  intros Ht.
  destruct (validateTask_Next body Hvalid)
    as (Hne & (len & Hlen & Hlo & Hhi) & _).
  rewrite Ht in Hne, Hlen |- *. simpl in Hlen. injection Hlen as <-.
  rewrite less_str_length in Hlo. rewrite greater_str_length in Hhi.
  apply Z.ltb_ge in Hlo, Hhi.
  split; [by apply nonblank_truthy |]. simpl.
  rewrite (nonblank_nonempty _ Hne). simpl.
  unfold title_valid, length_between.
  rewrite (proj2 (Nat.leb_le 5 _)), (proj2 (Nat.leb_le _ 100)) by lia.
  done.
Qed.

Lemma validated_description (d : string) :
  get body "description" = JStr d ->
  truthy (get body "description") = true
  /\ required_string "description" description_valid
       (castString (get body "description")) = inr d.
Proof using Hvalid.
  intros Hd.
  destruct (validateTask_Next body Hvalid)
    as (_ & _ & Hne & (len & Hlen & Hhi) & _).
  rewrite Hd in Hne, Hlen |- *. simpl in Hlen. injection Hlen as <-.
  rewrite greater_str_length in Hhi. apply Z.ltb_ge in Hhi.
  split; [by apply nonblank_truthy |]. simpl.
  rewrite (nonblank_nonempty _ Hne). simpl.
  unfold description_valid, length_between.
  rewrite (proj2 (Nat.leb_le _ 1000)) by lia.
  done.
Qed.

Lemma validated_status :
  exists st, get body "status" = JStr st
    /\ truthy (get body "status") = true
    /\ required_string "status" status_valid (castString (get body "status")) = inr st.
Proof using Hvalid.
  destruct (validateTask_Next body Hvalid) as (_ & _ & _ & _ & Hin & _).
  destruct (includes_status _ Hin) as [-> | ->]; eexists; by repeat split.
Qed.

Lemma validated_dueDate :
  (exists due, get body "dueDate" = JStr due
     /\ parsedDueDate (get body "dueDate") = inr (Some (parseDate due)))
  \/ (truthy (get body "dueDate") = false
      /\ parsedDueDate (get body "dueDate") = inr None).
Proof using Hvalid.
  destruct (validateTask_Next body Hvalid) as (_ & _ & _ & _ & _ & Hne & Hstr).
  unfold parsedDueDate.
  destruct (truthy (get body "dueDate")) eqn:Htruthy; [| by right].
  left. destruct (Hstr eq_refl) as [due Hdue]. exists due.
  by rewrite Hdue.
Qed.

End Validated.

Lemma title_taken (ts : list Task.t) (existing : Task.t) :
  existing ∈ ts ->
  existsb (fun t' => String.eqb (Task.title t') (Task.title existing)) ts = true.
Proof.
  intros Hin. apply existsb_exists. exists existing.
  split; [by apply list_elem_of_In | by apply String.eqb_eq].
Qed.

(** A due date that passed the validator without being truthy is no
    string. *)
Lemma falsy_dueDate_no_string (body : jsobject) :
  validateTask body = Next tt ->
  truthy (get body "dueDate") = false ->
  forall due, get body "dueDate" <> JStr due.
Proof.
  intros Hvalid Hfalsy due Hdue.
  destruct (validateTask_Next body Hvalid) as (_ & _ & _ & _ & _ & Hne & _).
  rewrite Hdue in Hne, Hfalsy. apply nonblank_truthy in Hne. congruence.
Qed.

(** A Create with a taken title, by the date that [parseDate] built. *)
Lemma post_tasks_taken (newId : ObjectId) (body : jsobject) (s : Store)
    (existing : Task.t) (d : string) (parsed : option jsdate) :
  validateTask body = Next tt ->
  get body "title" = JStr (Task.title existing) ->
  existing ∈ tasks s ->
  get body "description" = JStr d ->
  existsb (fun t' => N.eqb (Task._id t') newId) (tasks s) = false ->
  parsedDueDate (get body "dueDate") = inr parsed ->
  let err := match castDate "dueDate" parsed with
             | inl err => err
             | inr _ => E11000 "title_1"
             end in
  post_tasks newId body s
  = respond 500 (Errmsg (err_errmsg err)) s [ConsoleLogError "Error logged: " err].
Proof.
  intros Hvalid Htitle Hin Hd Hfresh Hparsed err. unfold err.
  destruct (validated_title body Hvalid _ Htitle) as [_ Ht].
  destruct (validated_description body Hvalid _ Hd) as [_ Hdv].
  destruct (validated_status body Hvalid) as (st & _ & _ & Hst).
  pose proof (title_taken _ _ Hin) as Htaken.
  unfold post_tasks, guarded. rewrite Hvalid. run.
  rewrite Hparsed. simpl. unfold Task_create. run.
  rewrite Ht, Hdv, Hst. simpl.
  destruct (castDate "dueDate" parsed) as [e | date]; simpl; [done |].
  by rewrite Hfresh, Htaken.
Qed.

(** C9. A Create that passes validation with the title of a stored task
    is answered by the generic [catch] of the route: status 500, the
    constant [INTERNAL_SERVER_ERROR], with [err.errmsg] as body, and the
    store unchanged. With a string description and a fresh id the error
    is the duplicate-key error of the unique index on [title], unless
    the due date is an Invalid Date, which fails the validation of the
    document before the insert; the route has no answer of its own for
    either. *)
Theorem post_tasks_duplicate_title_is_internal_error
    (newId : ObjectId) (body : jsobject) (s : Store) (existing : Task.t) :
  validateTask body = Next tt ->
  get body "title" = JStr (Task.title existing) ->
  existing ∈ tasks s ->
  (exists err,
      post_tasks newId body s
      = respond HTTP_STATUS_CODES.INTERNAL_SERVER_ERROR (Errmsg (err_errmsg err)) s
          [ConsoleLogError "Error logged: " err])
  /\ (forall d, get body "description" = JStr d ->
       existsb (fun t' => N.eqb (Task._id t') newId) (tasks s) = false ->
       let err := match get body "dueDate" with
                  | JStr due =>
                      if Date_isValid (parseDate due) then E11000 "title_1"
                      else ValidationError "dueDate"
                  | _ => E11000 "title_1"
                  end in
       post_tasks newId body s
       = respond 500 (Errmsg (err_errmsg err)) s
           [ConsoleLogError "Error logged: " err]).
Proof.
  intros Hvalid Htitle Hin.
  destruct (validated_title body Hvalid _ Htitle) as [_ Ht].
  destruct (validated_status body Hvalid) as (st & _ & _ & Hst).
  assert (Hdue : exists parsed, parsedDueDate (get body "dueDate") = inr parsed).
  { destruct (validated_dueDate body Hvalid) as [(due & _ & H) | [_ H]]; eauto. }
  destruct Hdue as [parsed Hdue].
  pose proof (title_taken _ _ Hin) as Htaken.
  split.
  - unfold post_tasks, guarded. rewrite Hvalid. run.
    rewrite Hdue. simpl. unfold Task_create. run.
    rewrite Ht, Hst. simpl.
    destruct (required_string "description" _ _) as [err | d]; simpl; [eauto |].
    destruct (castDate "dueDate" parsed) as [err | date]; simpl; [eauto |].
    destruct (existsb (fun t' => N.eqb (Task._id t') newId) (tasks s));
      [by exists (E11000 "_id_") |].
    rewrite Htaken. by exists (E11000 "title_1").
  - intros d Hd Hfresh err.
    rewrite (post_tasks_taken newId body s existing d parsed) by done.
    unfold err.
    destruct (validated_dueDate body Hvalid)
      as [(due & Hstr & Hparsed) | [Hfalsy Hparsed]];
      rewrite Hparsed in Hdue; injection Hdue as <-.
    + rewrite Hstr. unfold castDate.
      by destruct (Date_isValid (parseDate due)).
    + pose proof (falsy_dueDate_no_string body Hvalid Hfalsy) as Hnot.
      by destruct (get body "dueDate") as [| | | | due |]; try done;
        exfalso; apply (Hnot due).
Qed.

(** A mail built for an ObjectId has no recipient. *)
Lemma populateEmailForAssignee_Id (task : Task.t) (oid : ObjectId)
    (isUpdate : bool) (m : MailOptions) :
  populateEmailForAssignee task (Id oid) isUpdate = inr m ->
  to m = None
  /\ subject m = (if isUpdate then "Task Update Notification"
                  else "Task Assignment Notification").
Proof.
  unfold populateEmailForAssignee.
  destruct (Task.dueDate task); [| discriminate].
  intros [= <-]. done.
Qed.

(** C5. Every Update that succeeds on a task with an assignee hands
    exactly one payload to the transport, the "updated" notification
    built by [populateEmailForAssignee] from the task and the ObjectId in
    [assignedTo]; its recipient is [undefined], so it is the email of no
    user. *)
Theorem put_tasks_id_notifies_no_recipient
    (sendMail : MailOptions -> transport_result)
    (id : string) (body : jsobject) (s : Store)
    (updatedTask : Task.t) (assignee : ObjectId) :
  reply (put_tasks_id sendMail id body s)
    = Responds {| statusCode := 200; payload := JsonTask updatedTask |} ->
  Task.assignedTo updatedTask = Some assignee ->
  exists m,
    sent_mails (events (put_tasks_id sendMail id body s)) = [m]
    /\ populateEmailForAssignee updatedTask (Id assignee) true = inr m
    /\ subject m = "Task Update Notification"
    /\ to m = None
    /\ forall u : User.t, to m <> Some (User.email u).
Proof.
  intros H Hassigned. revert H.
  unfold put_tasks_id, guarded.
  destruct (validateTask body) as [res | [] | err] eqn:Hv; [| | done].
  { apply validateTask_Answer in Hv as [message ->]. done. }
  unfold or_task. run.
  destruct (parsedDueDate (get body "dueDate")); [done |]. simpl.
  destruct (findById Task_lookup (JStr id) s) as [| [taskfromDB |]]; [done | | done].
  simpl.
  destruct (truthy (get body "title")); [| done]. simpl.
  destruct (truthy (get body "description")); [| done]. simpl.
  destruct (truthy (get body "status")); [| done]. simpl.
  destruct (bool_decide (is_Some o)); [| done]. simpl.
  destruct (Task_save _ _ _ _ _ _) as [| [saved s']]; [done |]. simpl.
  destruct (Task.assignedTo saved) as [assignedTo |] eqn:Hsaved; simpl.
  - destruct (populateEmailForAssignee saved (Id assignedTo) true) as [| m] eqn:Hm;
      [done |].
    simpl. rewrite sendEmail_resolves. simpl.
    intros [= ->]. rewrite Hassigned in Hsaved. injection Hsaved as <-.
    exists m. destruct (populateEmailForAssignee_Id _ _ _ _ Hm) as [Hto Hsubject].
    repeat split; try done.
    + by destruct (sendMail m).
    + rewrite Hto. done.
  - intros [= ->]. congruence.
Qed.

Lemma title_free (ts : list Task.t) (oid : ObjectId) (t : string) :
  (forall t', t' ∈ ts -> Task.title t' = t -> Task._id t' = oid) ->
  existsb (fun t' => negb (N.eqb (Task._id t') oid) && String.eqb (Task.title t') t) ts
  = false.
Proof.
  intros Hfree. apply not_true_is_false. intros H.
  apply existsb_exists in H as (t' & Hin & Ht').
  apply andb_true_iff in Ht' as [Hid Htitle].
  apply String.eqb_eq in Htitle. apply list_elem_of_In in Hin.
  rewrite (Hfree t' Hin Htitle), N.eqb_refl in Hid. done.
Qed.

(** An Update whose payload is rejected by the validator. *)
Lemma put_tasks_id_empty_field (sendMail : MailOptions -> transport_result)
    (id : string) (body : jsobject) (s : Store) :
  isEmpty (get body "title") = true \/ isEmpty (get body "description") = true
  \/ isEmpty (get body "status") = true \/ isEmpty (get body "dueDate") = true ->
  exists message,
    put_tasks_id sendMail id body s = respond 400 (Text message) s [].
Proof.
  intros H. destruct (validateTask_empty_field body H) as [message Hv].
  exists message. unfold put_tasks_id, guarded. by rewrite Hv.
Qed.

(** An Update with four valid strings on a stored task. *)
Lemma put_tasks_id_valid (sendMail : MailOptions -> transport_result)
    (id : string) (body : jsobject) (s : Store)
    (oid : ObjectId) (task : Task.t) (t d st due : string) :
  validateTask body = Next tt ->
  get body "title" = JStr t ->
  get body "description" = JStr d ->
  get body "status" = JStr st ->
  get body "dueDate" = JStr due ->
  Date_isValid (parseDate due) = true ->
  castObjectId (JStr id) = Some oid ->
  Task_lookup oid s = Some task ->
  (forall t', t' ∈ tasks s -> Task.title t' = t -> Task._id t' = oid) ->
  let updated :=
    {| Task._id := oid; Task.title := t; Task.description := d;
       Task.status := st; Task.dueDate := Some (parseDate due);
       Task.assignedTo := Task.assignedTo task;
       Task.comments := Task.comments task |} in
  reply (put_tasks_id sendMail id body s)
    = Responds {| statusCode := 200; payload := JsonTask updated |}
  /\ db (put_tasks_id sendMail id body s)
     = set_tasks s (map (fun t' => if N.eqb (Task._id t') oid then updated else t')
                      (tasks s)).
Proof.
  intros Hvalid Ht Hd Hst Hdue Hdate Hcast Hfind Hfree updated.
  destruct (validated_title body Hvalid _ Ht) as [Htt Htv].
  destruct (validated_description body Hvalid _ Hd) as [Hdt Hdv].
  destruct (validated_status body Hvalid) as (st' & Hst' & Hstt & Hstv).
  assert (st' = st) as -> by congruence.
  destruct (validated_dueDate body Hvalid) as [(due' & Hdue' & Hparsed) | [Hfalsy _]].
  2: { destruct (validateTask_Next body Hvalid) as (_ & _ & _ & _ & _ & Hne & _).
       rewrite Hdue in Hne, Hfalsy. apply nonblank_truthy in Hne. congruence. }
  assert (due' = due) as -> by congruence.
  pose proof (Task_lookup_id _ _ _ Hfind) as Hid.
  pose proof (title_free _ _ _ Hfree) as Hnone.
  unfold put_tasks_id, guarded. rewrite Hvalid.
  unfold or_task. run. rewrite Hparsed. simpl.
  unfold findById, castId. rewrite Hcast, Hfind. simpl.
  rewrite Htt, Hdt, Hstt. simpl.
  unfold Task_save, castDate. run. rewrite Htv, Hdv, Hstv, Hdate. simpl.
  rewrite Hid, Hnone. simpl. fold updated.
  destruct (Task.assignedTo task) as [assignedTo |]; simpl; [| done].
  rewrite sendEmail_resolves. done.
Qed.

(** An Update whose due date is no valid Date: the save fails the
    validation of the document and writes nothing. *)
Lemma put_tasks_id_invalid_date (sendMail : MailOptions -> transport_result)
    (id : string) (body : jsobject) (s : Store)
    (oid : ObjectId) (task : Task.t) (t d due : string) :
  validateTask body = Next tt ->
  get body "title" = JStr t ->
  get body "description" = JStr d ->
  get body "dueDate" = JStr due ->
  Date_isValid (parseDate due) = false ->
  castObjectId (JStr id) = Some oid ->
  Task_lookup oid s = Some task ->
  put_tasks_id sendMail id body s
  = respond 500 (Errmsg None) s
      [ConsoleLogError "Error logged: " (ValidationError "dueDate")].
Proof.
  intros Hvalid Ht Hd Hdue Hdate Hcast Hfind.
  destruct (validated_title body Hvalid _ Ht) as [Htt Htv].
  destruct (validated_description body Hvalid _ Hd) as [Hdt Hdv].
  destruct (validated_status body Hvalid) as (st & Hst & Hstt & Hstv).
  destruct (validated_dueDate body Hvalid) as [(due' & Hdue' & Hparsed) | [Hfalsy _]].
  2: { by destruct (falsy_dueDate_no_string body Hvalid Hfalsy due). }
  assert (due' = due) as -> by congruence.
  unfold put_tasks_id, guarded. rewrite Hvalid.
  unfold or_task. run. rewrite Hparsed. simpl.
  unfold findById, castId. rewrite Hcast, Hfind. simpl.
  rewrite Htt, Hdt, Hstt. simpl.
  unfold Task_save, castDate. run. by rewrite Htv, Hdv, Hstv, Hdate.
Qed.

(** C3, as amended. An Update whose title, description, status or due
    date is empty is rejected by the validator with 400 and the store
    stays as it was: an Update carrying only status "closed" does not
    succeed, and does not blank the title. An Update that passes the
    validator with four strings, whose due date is a valid Date and whose
    title no other task carries, answers 200 and replaces the stored
    title, description and status by those of the payload and the due
    date by the parsed date. When the due date passes the validator but
    is no valid Date (a year out of the range of dates), the save is
    refused: the Update is answered 500 and the store stays as it was. *)
Theorem put_tasks_id_replaces_or_rejects
    (sendMail : MailOptions -> transport_result)
    (id : string) (body : jsobject) (s : Store)
    (oid : ObjectId) (task : Task.t) :
  castObjectId (JStr id) = Some oid ->
  Task_lookup oid s = Some task ->
  (isEmpty (get body "title") = true \/ isEmpty (get body "description") = true
   \/ isEmpty (get body "status") = true \/ isEmpty (get body "dueDate") = true ->
   exists message,
     put_tasks_id sendMail id body s = respond 400 (Text message) s [])
  /\ (get body "title" = JUndefined -> get body "status" = JStr "closed" ->
      put_tasks_id sendMail id body s
      = respond 400 (Text "Bad Request : Title cannot be blank") s [])
  /\ (forall t d st due,
        validateTask body = Next tt ->
        get body "title" = JStr t ->
        get body "description" = JStr d ->
        get body "status" = JStr st ->
        get body "dueDate" = JStr due ->
        Date_isValid (parseDate due) = true ->
        (forall t', t' ∈ tasks s -> Task.title t' = t -> Task._id t' = oid) ->
        let updated :=
          {| Task._id := oid; Task.title := t; Task.description := d;
             Task.status := st; Task.dueDate := Some (parseDate due);
             Task.assignedTo := Task.assignedTo task;
             Task.comments := Task.comments task |} in
        reply (put_tasks_id sendMail id body s)
          = Responds {| statusCode := 200; payload := JsonTask updated |}
        /\ Task_lookup oid (db (put_tasks_id sendMail id body s)) = Some updated)
  /\ (forall t d due,
        validateTask body = Next tt ->
        get body "title" = JStr t ->
        get body "description" = JStr d ->
        get body "dueDate" = JStr due ->
        Date_isValid (parseDate due) = false ->
        put_tasks_id sendMail id body s
        = respond 500 (Errmsg None) s
            [ConsoleLogError "Error logged: " (ValidationError "dueDate")]).
Proof.
  intros Hcast Hfind. split; [| split; [| split]].
  - apply put_tasks_id_empty_field.
  - intros Htitle _. unfold put_tasks_id, guarded, validateTask.
    by rewrite Htitle.
  - intros t d st due Hvalid Ht Hd Hst Hdue Hdate Hfree updated.
    destruct (put_tasks_id_valid sendMail id body s oid task t d st due
                Hvalid Ht Hd Hst Hdue Hdate Hcast Hfind Hfree) as [Hreply Hdb].
    split; [done |]. rewrite Hdb.
    unfold Task_lookup in Hfind |- *. simpl.
    rewrite (lookup_after_update (fun _ => updated)) by done.
    by rewrite Hfind.
  - intros t d due Hvalid Ht Hd Hdue Hdate.
    by apply (put_tasks_id_invalid_date sendMail id body s oid task t d due).
Qed.

(** * Further properties of the controllers *)

(** ** The validator on strings *)

Lemma isEmpty_JStr (s : string) :
  isEmpty (JStr s) = false <-> trim s <> EmptyString.
Proof.
  simpl. split.
  - intros H. by apply bool_decide_eq_false in H.
  - intros H. by apply bool_decide_eq_false.
Qed.

Lemma less_greater_length (s : string) (lo hi : Z) :
  less (str_length s) lo || greater (str_length s) hi = false
  <-> (lo <= Z.of_nat (String.length s) <= hi)%Z.
Proof.
  rewrite less_str_length, greater_str_length, orb_false_iff.
  rewrite !Z.ltb_ge. lia.
Qed.

Lemma status_included (st : string) :
  includes TaskStatus_values (JStr st) = true <-> st = "open" \/ st = "closed".
Proof.
  split.
  - intros H. destruct (includes_status _ H) as [[= ->] | [= ->]]; auto.
  - by intros [-> | ->].
Qed.

Lemma three_parts (l : list string) :
  (List.length l =? 3)%nat = true <-> exists dd mm yy, l = [dd; mm; yy].
Proof.
  split.
  - intros H. apply Nat.eqb_eq in H.
    destruct l as [| dd [| mm [| yy [| ? ?]]]]; try discriminate. eauto.
  - by intros (dd & mm & yy & ->).
Qed.

(** X1. For a payload whose four fields are strings, [validateTask] calls
    [next()] exactly when the title is not blank and 5 to 100 characters
    long, the description is not blank and at most 1000 characters long,
    the status is "open" or "closed", and the due date is not blank and
    splits at "-" into exactly three parts that [Number] reads as a day
    from 1 to 31, a month from 1 to 12 and a year that is not [NaN]; the
    day is not checked against the month. *)
Theorem validateTask_accepts_exactly (body : jsobject) (t d st due : string) :
  get body "title" = JStr t ->
  get body "description" = JStr d ->
  get body "status" = JStr st ->
  get body "dueDate" = JStr due ->
  validateTask body = Next tt
  <-> (trim t <> EmptyString /\ (5 <= String.length t <= 100)%nat
       /\ trim d <> EmptyString /\ (String.length d <= 1000)%nat
       /\ (st = "open" \/ st = "closed")
       /\ trim due <> EmptyString
       /\ exists dd mm yy,
            split "-" due = [dd; mm; yy] /\ date_parts_ok dd mm yy = true).
Proof.
  intros Ht Hd Hst Hdue. unfold validateTask.
  rewrite Ht, Hd, Hst, Hdue. cbn [prop_length].
  destruct (isEmpty (JStr t)) eqn:Et.
  { split; [discriminate |]. intros (H & _). apply isEmpty_JStr in H. congruence. }
  apply isEmpty_JStr in Et.
  destruct (less (str_length t) 5 || greater (str_length t) 100) eqn:Elen.
  { split; [discriminate |]. intros (_ & H & _).
    assert (less (str_length t) 5 || greater (str_length t) 100 = false)
      by (apply less_greater_length; lia).
    congruence. }
  apply less_greater_length in Elen.
  destruct (isEmpty (JStr d)) eqn:Ed.
  { split; [discriminate |]. intros (_ & _ & H & _).
    apply isEmpty_JStr in H. congruence. }
  apply isEmpty_JStr in Ed.
  destruct (greater (str_length d) 1000) eqn:Edlen.
  { split; [discriminate |]. intros (_ & _ & _ & H & _).
    rewrite greater_str_length in Edlen. apply Z.ltb_lt in Edlen. lia. }
  rewrite greater_str_length in Edlen. apply Z.ltb_ge in Edlen.
  destruct (includes TaskStatus_values (JStr st)) eqn:Est; simpl negb; cbv iota.
  2: { split; [discriminate |]. intros (_ & _ & _ & _ & H & _).
       apply status_included in H. congruence. }
  rewrite (includes_not_empty _ Est).
  apply status_included in Est.
  destruct (isEmpty (JStr due)) eqn:Edue.
  { split; [discriminate |]. intros (_ & _ & _ & _ & _ & H & _).
    apply isEmpty_JStr in H. congruence. }
  rewrite (nonblank_truthy _ Edue). apply isEmpty_JStr in Edue.
  destruct (List.length (split "-" due) =? 3)%nat eqn:Eparts; simpl negb; cbv iota.
  2: { split; [discriminate |].
       intros (_ & _ & _ & _ & _ & _ & dd & mm & yy & Hsplit & _).
       rewrite Hsplit in Eparts. discriminate. }
  apply three_parts in Eparts as (dd & mm & yy & Hsplit).
  rewrite Hsplit. cbn [map nth].
  destruct (date_parts_ok dd mm yy) eqn:Eok.
  - unfold date_parts_ok in Eok. apply negb_true_iff in Eok. rewrite Eok.
    split; [| done]. intros _. repeat split; try done; try lia.
    exists dd, mm, yy. split; [done |].
    unfold date_parts_ok. by rewrite Eok.
  - unfold date_parts_ok in Eok. apply negb_false_iff in Eok. rewrite Eok.
    split; [discriminate |].
    intros (_ & _ & _ & _ & _ & _ & dd' & mm' & yy' & [= <- <- <-] & Hok).
    unfold date_parts_ok in Hok. rewrite Eok in Hok. discriminate.
Qed.

Lemma validateTask_Next_date (body : jsobject) (due : string) :
  validateTask body = Next tt ->
  get body "dueDate" = JStr due ->
  exists dd mm yy, split "-" due = [dd; mm; yy] /\ date_parts_ok dd mm yy = true.
Proof.
  intros Hvalid Hdue. revert Hvalid. unfold validateTask. rewrite Hdue.
  repeat match goal with
         | |- context [if ?c then _ else _] => destruct c eqn:?
         | |- context [match ?x with _ => _ end] => destruct x eqn:?
         end;
    try discriminate; intros _.
  - match goal with
    | H : negb (_ =? 3)%nat = false |- _ =>
        apply negb_false_iff, three_parts in H as (dd & mm & yy & Hsplit)
    end.
    exists dd, mm, yy. split; [done |].
    match goal with
    | H : _ || _ = false |- _ => rewrite Hsplit in H; cbn [map nth] in H
    end.
    unfold date_parts_ok. apply negb_true_iff. done.
  - match goal with
    | H : isEmpty (JStr due) = false |- _ => apply nonblank_truthy in H
    end.
    congruence.
Qed.

Lemma day_in_range (n : jsnum) (lo hi : Z) :
  isNaN n = false -> num_lt n lo = false -> num_gt n hi = false ->
  exists q, n = Num q /\ (inject_Z lo <= q <= inject_Z hi)%Q.
Proof.
  destruct n as [| q | negative]; simpl; [discriminate | | by destruct negative].
  intros _ Hlo Hhi. apply negb_false_iff in Hlo, Hhi.
  apply Qle_bool_iff in Hlo, Hhi. eauto.
Qed.

(** X2. The due date of a payload that passed [validateTask] is parsed
    into [new Date(year, month - 1, day)] with a day from 1 to 31, a month
    from 1 to 12 and a year that is not [NaN]. *)
Theorem validated_dueDate_is_bounded (body : jsobject) (due : string) :
  validateTask body = Next tt ->
  get body "dueDate" = JStr due ->
  exists (day month : Q) (year : jsnum),
    parsedDueDate (get body "dueDate")
      = inr (Some (new_Date year (Num (month - 1)) (Num day)))
    /\ (1 <= day <= 31)%Q /\ (1 <= month <= 12)%Q /\ year <> NaN.
Proof.
  intros Hvalid Hdue.
  destruct (validateTask_Next_date body due Hvalid Hdue)
    as (dd & mm & yy & Hsplit & Hok).
  destruct (validateTask_Next body Hvalid) as (_ & _ & _ & _ & _ & Hne & _).
  rewrite Hdue in Hne. apply nonblank_truthy in Hne.
  unfold date_parts_ok in Hok. apply negb_true_iff in Hok.
  repeat (apply orb_false_iff in Hok as [Hok ?]).
  destruct (day_in_range (Number dd) 1 31) as (day & Hday & Hdr);
    [assumption .. |].
  destruct (day_in_range (Number mm) 1 12) as (month & Hmonth & Hmr);
    [assumption .. |].
  exists day, month, (Number yy).
  unfold parsedDueDate. rewrite Hdue, Hne.
  unfold parseDate. rewrite Hsplit. cbn [map nth].
  rewrite Hday, Hmonth. simpl.
  split; [reflexivity |]. split; [exact Hdr |]. split; [exact Hmr |].
  intros Hnan.
  match goal with
  | H : isNaN (Number yy) = false |- _ => rewrite Hnan in H; discriminate H
  end.
Qed.

(** X3. [validateTask] throws only a TypeError, and only when the status
    is one of the enumerated values and the due date is truthy without
    being a string (a number, [true], a non-empty array); the exception
    then escapes the middleware: the handlers of [POST /tasks] and [PUT
    /tasks/:id] do not run, nothing is logged and the store is as it
    was. *)
Theorem validateTask_throws_on_non_string_date
    (sendMail : MailOptions -> transport_result) (newId : ObjectId)
    (id : string) (body : jsobject) (s : Store) (err : jserror) :
  validateTask body = Throw err ->
  err = TypeError "dueDate.split is not a function"
  /\ truthy (get body "dueDate") = true
  /\ (forall due, get body "dueDate" <> JStr due)
  /\ includes TaskStatus_values (get body "status") = true
  /\ post_tasks newId body s = {| reply := Escapes err; db := s; events := [] |}
  /\ put_tasks_id sendMail id body s
     = {| reply := Escapes err; db := s; events := [] |}.
Proof.
  intros Hthrow. unfold post_tasks, put_tasks_id, guarded. rewrite Hthrow.
  revert Hthrow. unfold validateTask.
  repeat match goal with
         | |- context [if ?c then _ else _] => destruct c eqn:?
         | |- context [match ?x with _ => _ end] => destruct x eqn:?
         end;
    try discriminate;
    try (destruct (get body "title"); discriminate);
    try (destruct (get body "description"); discriminate);
    intros [= <-]; tests; repeat split; try done.
Qed.

(** ** Properties of the store that the routes keep *)

Section Keeps.

Variable P : Store -> Prop.

Lemma keeps_ret {A} (a : A) : keeps P (mret a).
Proof. by intros s Hs. Qed.

Lemma keeps_throw {A} (err : jserror) : keeps P (@throw A err).
Proof. by intros s Hs. Qed.

Lemma keeps_emit (ev : Event) : keeps P (emit ev).
Proof. by intros s Hs. Qed.

Lemma keeps_send (status : Z) (b : body) : keeps P (send status b).
Proof. by intros s Hs. Qed.

Lemma keeps_reply_with (status : Z) (c : json) : keeps P (reply_with status c).
Proof. by intros s Hs. Qed.

Lemma keeps_reading {A} (op : Store -> jserror + A) : keeps P (reading op).
Proof. by intros s Hs. Qed.

Lemma keeps_writing {A} (op : Store -> jserror + (A * Store)) :
  (forall s a s', P s -> op s = inr (a, s') -> P s') ->
  keeps P (writing op).
Proof.
  intros Hop s Hs. unfold writing.
  destruct (op s) as [err | [a s']] eqn:E; simpl; [done |].
  by apply (Hop s a s').
Qed.

Lemma keeps_bind {A B} (m : M A) (f : A -> M B) :
  keeps P m -> (forall a, keeps P (f a)) -> keeps P (m ≫= f).
Proof.
  intros Hm Hf s Hs. unfold mbind, M_bind.
  specialize (Hm s Hs).
  destruct (m s) as [[[err | a] s'] evs]; simpl in *; [done |].
  specialize (Hf a s' Hm).
  by destruct (f a s') as [[r s''] evs'].
Qed.

Lemma keeps_sendEmail (sendMail : MailOptions -> transport_result)
    (m : MailOptions) : keeps P (sendEmail sendMail m).
Proof. intros s Hs. by rewrite sendEmail_resolves. Qed.

Lemma keeps_or_task {A} (value : A) (is_truthy : A -> bool) :
  keeps P (or_task value is_truthy).
Proof. unfold or_task. destruct (is_truthy value); by intros s Hs. Qed.

Lemma try_catch_keeps (block : M Response) (handler : jserror -> M Response) :
  keeps P block -> (forall err, keeps P (handler err)) ->
  forall s, P s -> P (db (try_catch block handler s)).
Proof.
  intros Hblock Hhandler s Hs. unfold try_catch.
  specialize (Hblock s Hs).
  destruct (block s) as [[[err | res] s'] evs]; simpl in *; [| done].
  specialize (Hhandler err s' Hblock).
  by destruct (handler err s') as [[[err' | res] s''] evs'].
Qed.

Lemma trying_keeps (block : M Sent) (handler : jserror -> M Sent) :
  keeps P block -> (forall err, keeps P (handler err)) ->
  forall s, P s -> P (state (trying block handler s)).
Proof.
  intros Hblock Hhandler s Hs. unfold trying.
  specialize (Hblock s Hs).
  destruct (block s) as [[[err | res] s'] evs]; simpl in *; [| done].
  specialize (Hhandler err s' Hblock).
  by destruct (handler err s') as [[[err' | res] s''] evs'].
Qed.

Lemma unguarded_keeps (block : M Sent) :
  keeps P block -> forall s, P s -> P (state (unguarded block s)).
Proof.
  intros Hblock s Hs. unfold unguarded.
  specialize (Hblock s Hs).
  by destruct (block s) as [[[err | res] s'] evs].
Qed.

Lemma guarded_keeps {A} (mw : Middleware A) (route : A -> Store -> Outcome) :
  (forall a s, P s -> P (db (route a s))) ->
  forall s, P s -> P (db (guarded mw route s)).
Proof. intros Hroute s Hs. unfold guarded. destruct mw; simpl; auto. Qed.

Lemma guarded_by_keeps {A} (mw : Store -> Middleware A * list Event)
    (route : A -> Store -> Outcome) :
  (forall a s, P s -> P (db (route a s))) ->
  forall s, P s -> P (db (guarded_by mw route s)).
Proof.
  intros Hroute s Hs. unfold guarded_by.
  destruct (mw s) as [[res | a | err] evs]; simpl; auto.
Qed.

Lemma keeps_log_and_500 (err : jserror) : keeps P (log_and_500 err).
Proof. by intros s Hs. Qed.

Lemma keeps_log_and_500' (err : jserror) : keeps P (log_and_500' err).
Proof. by intros s Hs. Qed.

End Keeps.

(** Walks through a handler, leaving its writes. *)
Ltac keep :=
  repeat first
    [ apply keeps_ret | apply keeps_throw | apply keeps_emit | apply keeps_send
    | apply keeps_reply_with | apply keeps_reading | apply keeps_sendEmail
    | apply keeps_or_task | apply keeps_log_and_500 | apply keeps_log_and_500'
    | apply keeps_bind; [| intros ?]
    | match goal with
      | |- keeps _ (match ?x with _ => _ end) => destruct x
      | |- keeps _ (if ?c then _ else _) => destruct c
      end ].

(** ** The task collection stays valid *)

Lemma required_string_inr (path : string) (valid : string -> bool)
    (c : cast string) (s : string) :
  required_string path valid c = inr s ->
  c = Cast s /\ String.eqb s EmptyString = false /\ valid s = true.
Proof.
  unfold required_string. destruct c as [| s' |]; [done | | done].
  destruct (negb (String.eqb s' EmptyString) && valid s') eqn:E; [| done].
  intros [= ->]. apply andb_true_iff in E as [E1 E2].
  by apply negb_true_iff in E1.
Qed.

Lemma existsb_false_notin {A B} (f : A -> B) (eqb : B -> B -> bool)
    (l : list A) (b : B) :
  (forall x, eqb x x = true) ->
  existsb (fun a => eqb (f a) b) l = false -> b ∉ map f l.
Proof.
  intros Hrefl Hex Hin.
  apply list_elem_of_In, in_map_iff in Hin as (a & <- & Ha).
  assert (existsb (fun a' => eqb (f a') (f a)) l = true) as Htrue.
  { apply existsb_exists. exists a. split; [done | apply Hrefl]. }
  by rewrite Htrue in Hex.
Qed.

Lemma NoDup_map_inj {A B} (f : A -> B) (l : list A) (x y : A) :
  NoDup (map f l) -> x ∈ l -> y ∈ l -> f x = f y -> x = y.
Proof.
  induction l as [| a l IH]; simpl; intros Hnd Hx Hy Hf.
  - by apply elem_of_nil in Hx.
  - apply NoDup_cons in Hnd as [Ha Hnd].
    apply elem_of_cons in Hx as [-> | Hx]; apply elem_of_cons in Hy as [-> | Hy].
    + done.
    + exfalso. apply Ha. rewrite Hf.
      apply list_elem_of_In, in_map. by apply list_elem_of_In.
    + exfalso. apply Ha. rewrite <- Hf.
      apply list_elem_of_In, in_map. by apply list_elem_of_In.
    + by apply IH.
Qed.

Lemma tasks_ok_insert (s : Store) (task : Task.t) :
  tasks_ok s ->
  existsb (fun t' => N.eqb (Task._id t') (Task._id task)) (tasks s) = false ->
  existsb (fun t' => String.eqb (Task.title t') (Task.title task)) (tasks s) = false ->
  schema_valid task = true ->
  tasks_ok (set_tasks s (tasks s ++ [task])).
Proof.
  intros (Hid & Hti & Hv) E1 E2 Hok. unfold tasks_ok; simpl.
  rewrite !map_app; simpl. split; [| split].
  - apply NoDup_app. split; [done | split; [| apply NoDup_singleton]].
    intros x Hx Hx'. apply list_elem_of_singleton in Hx' as ->.
    by apply (existsb_false_notin _ _ _ _ N.eqb_refl) in E1.
  - apply NoDup_app. split; [done | split; [| apply NoDup_singleton]].
    intros x Hx Hx'. apply list_elem_of_singleton in Hx' as ->.
    by apply (existsb_false_notin _ _ _ _ String.eqb_refl) in E2.
  - apply Forall_app. split; [done | by constructor].
Qed.

Lemma tasks_ok_update (s : Store) (oid : ObjectId) (update : Task.t -> Task.t) :
  (forall t, Task._id (update t) = Task._id t
             /\ Task.title (update t) = Task.title t
             /\ (schema_valid t = true -> schema_valid (update t) = true)) ->
  tasks_ok s ->
  tasks_ok (set_tasks s (map (fun t' => if N.eqb (Task._id t') oid
                                        then update t' else t') (tasks s))).
Proof.
  intros Hupd (Hid & Hti & Hv). unfold tasks_ok; simpl.
  rewrite !map_map. split; [| split].
  - erewrite map_ext; [exact Hid |].
    intros t. destruct (N.eqb (Task._id t) oid); [apply Hupd | done].
  - erewrite map_ext; [exact Hti |].
    intros t. destruct (N.eqb (Task._id t) oid); [apply Hupd | done].
  - apply Forall_map. eapply Forall_impl; [exact Hv |].
    intros t Ht. simpl. destruct (N.eqb (Task._id t) oid); [by apply Hupd | done].
Qed.

Lemma tasks_ok_replace (s : Store) (task' : Task.t) :
  tasks_ok s ->
  schema_valid task' = true ->
  existsb (fun t' => negb (N.eqb (Task._id t') (Task._id task'))
                     && String.eqb (Task.title t') (Task.title task')) (tasks s)
  = false ->
  tasks_ok (set_tasks s (map (fun t' => if N.eqb (Task._id t') (Task._id task')
                                        then task' else t') (tasks s))).
Proof.
  intros (Hid & Hti & Hv) Hok Hfree. unfold tasks_ok; simpl.
  split; [| split].
  - rewrite map_map. erewrite map_ext; [exact Hid |].
    intros t. simpl. destruct (N.eqb (Task._id t) (Task._id task')) eqn:E; [| done].
    symmetry. by apply N.eqb_eq.
  - clear Hv. induction (tasks s) as [| h rest IH]; simpl in *; [constructor |].
    apply NoDup_cons in Hid as [Hh Hid]. apply NoDup_cons in Hti as [Hh' Hti].
    apply orb_false_iff in Hfree as [Hhead Hfree].
    specialize (IH Hid Hti Hfree).
    apply NoDup_cons. split; [| exact IH].
    intros Hin. apply list_elem_of_In, in_map_iff in Hin as (x & Hx & Hin).
    apply in_map_iff in Hin as (y & <- & Hy).
    assert (existsb (fun t' => negb (N.eqb (Task._id t') (Task._id task'))
                               && String.eqb (Task.title t') (Task.title task')) rest
            = false -> negb (N.eqb (Task._id y) (Task._id task'))
                       && String.eqb (Task.title y) (Task.title task') = false)
      as Hy'.
    { intros Hex. apply not_true_is_false. intros E.
      assert (existsb (fun t' => negb (N.eqb (Task._id t') (Task._id task'))
                && String.eqb (Task.title t') (Task.title task')) rest = true)
        as Htrue by (apply existsb_exists; by exists y).
      by rewrite Htrue in Hex. }
    specialize (Hy' Hfree).
    destruct (N.eqb (Task._id y) (Task._id task')) eqn:Ey;
      destruct (N.eqb (Task._id h) (Task._id task')) eqn:Eh; simpl in *.
    + apply Hh. apply N.eqb_eq in Ey, Eh. rewrite Eh, <- Ey.
      apply list_elem_of_In, in_map. exact Hy.
    + apply String.eqb_neq in Hhead. by rewrite Hx in Hhead.
    + apply String.eqb_neq in Hy'. by rewrite Hx in Hy'.
    + apply Hh'. rewrite <- Hx. apply list_elem_of_In, in_map. exact Hy.
  - apply Forall_map. eapply Forall_impl; [exact Hv |].
    intros t Ht. simpl. by destruct (N.eqb (Task._id t) (Task._id task')).
Qed.

Lemma without_task_sublist (oid : ObjectId) (ts : list Task.t) :
  without_task oid ts `sublist_of` ts.
Proof.
  induction ts as [| t ts IH]; simpl; [constructor |].
  destruct (N.eqb (Task._id t) oid).
  - by apply sublist_cons.
  - by apply sublist_skip.
Qed.

Lemma map_sublist {A B} (f : A -> B) (l k : list A) :
  l `sublist_of` k -> map f l `sublist_of` map f k.
Proof. induction 1; simpl; by constructor. Qed.

Lemma tasks_ok_delete (s : Store) (oid : ObjectId) :
  tasks_ok s -> tasks_ok (set_tasks s (without_task oid (tasks s))).
Proof.
  intros (Hid & Hti & Hv). unfold tasks_ok; simpl.
  pose proof (without_task_sublist oid (tasks s)) as Hsub.
  split; [| split].
  - eapply sublist_NoDup; [exact Hid | by apply map_sublist].
  - eapply sublist_NoDup; [exact Hti | by apply map_sublist].
  - rewrite Forall_forall in Hv. apply Forall_forall. intros t Ht.
    apply Hv. by eapply elem_of_sublist.
Qed.

Lemma Task_lookup_In (oid : ObjectId) (s : Store) (task : Task.t) :
  Task_lookup oid s = Some task -> task ∈ tasks s.
Proof.
  unfold Task_lookup. intros H. apply find_some in H as [H _].
  by apply list_elem_of_In.
Qed.

Lemma findById_In (id : jsval) (s : Store) (task : Task.t) :
  findById Task_lookup id s = inr (Some task) -> task ∈ tasks s.
Proof.
  unfold findById. destruct (castId id) as [| oid |]; [done | | done].
  intros [= H]. by apply Task_lookup_In in H.
Qed.

Lemma stored_valid (s : Store) (task : Task.t) :
  tasks_ok s -> task ∈ tasks s -> schema_valid task = true.
Proof.
  intros (_ & _ & Hv) Hin. rewrite Forall_forall in Hv. by apply Hv.
Qed.

Lemma keeps_bind_with {A B} (P : Store -> Prop) (Q : A -> Prop)
    (m : M A) (f : A -> M B) :
  (forall s a, P s -> (m s).1.1 = inr a -> Q a) ->
  keeps P m -> (forall a, Q a -> keeps P (f a)) -> keeps P (m ≫= f).
Proof.
  intros HQ Hm Hf s Hs. unfold mbind, M_bind.
  specialize (Hm s Hs). specialize (HQ s).
  destruct (m s) as [[[err | a] s'] evs]; simpl in *; [done |].
  specialize (Hf a (HQ a Hs eq_refl) s' Hm).
  by destruct (f a s') as [[r s''] evs'].
Qed.

Lemma Task_create_ok (newId : ObjectId) (title description status : jsval)
    (dueDate : option jsdate) (s s' : Store) (task : Task.t) :
  tasks_ok s ->
  Task_create newId title description status dueDate s = inr (task, s') ->
  tasks_ok s'.
Proof.
  intros Hs. unfold Task_create, mbind, sum_bind.
  destruct (required_string "title" _ _) as [| t] eqn:Et; [done |].
  destruct (required_string "description" _ _) as [| d] eqn:Ed; [done |].
  destruct (required_string "status" _ _) as [| st] eqn:Est; [done |].
  destruct (castDate "dueDate" dueDate) as [| date]; [done |].
  destruct (existsb _ (tasks s)) eqn:E1; [done |].
  destruct (existsb (fun t' => String.eqb (Task.title t') t) (tasks s)) eqn:E2;
    [done |].
  intros [= <- <-].
  apply required_string_inr in Et as (_ & Et & Et').
  apply required_string_inr in Ed as (_ & Ed & Ed').
  apply required_string_inr in Est as (_ & Est & Est').
  apply tasks_ok_insert; [done | done | done |].
  unfold schema_valid; simpl. by rewrite Et, Et', Ed, Ed', Est'.
Qed.

Lemma Task_save_ok (task : Task.t) (title description status : jsval)
    (dueDate : option jsdate) (s s' : Store) (task' : Task.t) :
  schema_valid task = true ->
  tasks_ok s ->
  Task_save task title description status dueDate s = inr (task', s') ->
  tasks_ok s'.
Proof.
  intros Hv Hs. unfold Task_save, mbind, sum_bind.
  destruct (required_string "title" _ _) as [| t] eqn:Et; [done |].
  destruct (required_string "description" _ _) as [| d] eqn:Ed; [done |].
  destruct (required_string "status" _ _) as [| st] eqn:Est; [done |].
  destruct (castDate "dueDate" dueDate) as [| date]; [done |].
  destruct (existsb _ (tasks s)) eqn:E1; [done |].
  intros [= <- <-].
  apply required_string_inr in Et as (_ & Et & Et').
  apply required_string_inr in Ed as (_ & Ed & Ed').
  apply required_string_inr in Est as (_ & Est & Est').
  match goal with
  | |- tasks_ok (set_tasks s (map (fun t' => if _ then ?new else t') _)) =>
      apply (tasks_ok_replace s new)
  end; [done | | done].
  unfold schema_valid in *; simpl. rewrite Et, Et', Ed, Ed', Est'. simpl.
  apply andb_true_iff in Hv as [_ Hv]. exact Hv.
Qed.

Lemma Task_findByIdAndUpdate_ok (id : jsval) (update : Task.t -> Task.t)
    (s s' : Store) (found : option Task.t) :
  (forall t, Task._id (update t) = Task._id t
             /\ Task.title (update t) = Task.title t
             /\ (schema_valid t = true -> schema_valid (update t) = true)) ->
  tasks_ok s ->
  Task_findByIdAndUpdate id update s = inr (found, s') ->
  tasks_ok s'.
Proof.
  intros Hupd Hs. unfold Task_findByIdAndUpdate, mbind, sum_bind.
  destruct (findById Task_lookup id s) as [| [task |]]; [done | |].
  - intros [= <- <-]. by apply tasks_ok_update.
  - by intros [= <- <-].
Qed.

Lemma Task_findByIdAndDelete_ok (id : jsval) (s s' : Store)
    (found : option Task.t) :
  tasks_ok s -> Task_findByIdAndDelete id s = inr (found, s') -> tasks_ok s'.
Proof.
  intros Hs. unfold Task_findByIdAndDelete, mbind, sum_bind.
  destruct (findById Task_lookup id s) as [| [task |]]; [done | |].
  - intros [= <- <-]. by apply tasks_ok_delete.
  - by intros [= <- <-].
Qed.

Lemma Task_save_comments_ok (task : Task.t) (comments : list Comment.t)
    (s s' : Store) (task' : Task.t) :
  task ∈ tasks s ->
  tasks_ok s ->
  Task_save_comments task comments s = inr (task', s') ->
  tasks_ok s'.
Proof.
  intros Hin Hs. unfold Task_save_comments, mbind, sum_bind.
  destruct (required_string "title" _ _) as [| t] eqn:Et; [done |].
  destruct (required_string "description" _ _) as [| d] eqn:Ed; [done |].
  destruct (required_string "status" _ _) as [| st] eqn:Est; [done |].
  destruct (forallb comment_valid comments) eqn:Ec; [| done].
  intros [= <- <-].
  apply required_string_inr in Et as ([= <-] & Et & Et').
  apply required_string_inr in Ed as ([= <-] & Ed & Ed').
  apply required_string_inr in Est as ([= <-] & Est & Est').
  apply (tasks_ok_replace s (with_comments comments task)); [done | |].
  - unfold schema_valid; simpl. by rewrite Et, Et', Ed, Ed', Est', Ec.
  - simpl. destruct (existsb _ (tasks s)) eqn:E; [| done].
    apply existsb_exists in E as (other & Hother & E).
    apply andb_true_iff in E as [Eid Etitle].
    apply negb_true_iff, N.eqb_neq in Eid. apply String.eqb_eq in Etitle.
    destruct Hs as (_ & Hti & _). exfalso. apply Eid. f_equal.
    apply (NoDup_map_inj Task.title (tasks s)); [done | | done | done].
    by apply list_elem_of_In.
Qed.

Lemma assignedTo_update_keeps (assignedTo : jsval) (update : Task.t -> Task.t) :
  assignedTo_update assignedTo = inr update ->
  forall t, Task._id (update t) = Task._id t
            /\ Task.title (update t) = Task.title t
            /\ (schema_valid t = true -> schema_valid (update t) = true).
Proof.
  unfold assignedTo_update. intros H t.
  destruct assignedTo; try destruct (castObjectId _); by simplify_eq.
Qed.

Lemma post_tasks_keeps (newId : ObjectId) (body : jsobject) (s : Store) :
  tasks_ok s -> tasks_ok (db (post_tasks newId body s)).
Proof.
  revert s. unfold post_tasks. apply (guarded_keeps tasks_ok). intros _.
  apply try_catch_keeps; [| apply keeps_log_and_500]. keep.
  apply keeps_writing. intros s t s' Hs H. by apply Task_create_ok in H.
Qed.

Lemma put_tasks_id_keeps (sendMail : MailOptions -> transport_result)
    (id : string) (body : jsobject) (s : Store) :
  tasks_ok s -> tasks_ok (db (put_tasks_id sendMail id body s)).
Proof.
  revert s. unfold put_tasks_id. apply (guarded_keeps tasks_ok). intros _.
  apply try_catch_keeps; [| apply keeps_log_and_500].
  apply keeps_bind; [apply keeps_reading | intros parsed].
  apply (keeps_bind_with _
           (fun found => forall t, found = Some t -> schema_valid t = true)).
  - intros s found Hs Hfound t ->. simpl in Hfound.
    apply findById_In in Hfound. by apply (stored_valid s).
  - apply keeps_reading.
  - intros [task |] Hvalid; [| apply keeps_throw].
    specialize (Hvalid task eq_refl). keep.
    apply keeps_writing. intros s t s' Hs H. by apply Task_save_ok in H.
Qed.

Lemma put_tasks_id_assign_keeps (sendMail : MailOptions -> transport_result)
    (id : string) (body : jsobject) (s : Store) :
  tasks_ok s -> tasks_ok (db (put_tasks_id_assign sendMail id body s)).
Proof.
  revert s. unfold put_tasks_id_assign.
  apply (guarded_by_keeps tasks_ok). intros user.
  apply (guarded_by_keeps tasks_ok). intros _.
  apply try_catch_keeps; [| apply keeps_log_and_500].
  apply (keeps_bind_with _
           (fun update => forall t, Task._id (update t) = Task._id t
              /\ Task.title (update t) = Task.title t
              /\ (schema_valid t = true -> schema_valid (update t) = true))).
  - intros s update _ H. simpl in H. exact (assignedTo_update_keeps _ _ H).
  - apply keeps_reading.
  - intros update Hupdate. keep.
    apply keeps_writing. intros s t s' Hs H.
    by apply Task_findByIdAndUpdate_ok in H.
Qed.

Lemma patch_tasks_id_complete_keeps (id : string) (s : Store) :
  tasks_ok s -> tasks_ok (db (patch_tasks_id_complete id s)).
Proof.
  revert s. unfold patch_tasks_id_complete.
  apply try_catch_keeps; [| apply keeps_log_and_500]. keep.
  apply keeps_writing. intros s t s' Hs H.
  apply Task_findByIdAndUpdate_ok in H; [done | | done].
  intros task. unfold schema_valid; simpl. split; [done | split; [done |]].
  intros Hv. apply andb_true_iff in Hv as [Hv Hc].
  apply andb_true_iff in Hv as [Hv _]. by rewrite Hv, Hc.
Qed.

Lemma post_tasks_taskId_comments_keeps (now : Z) (user : jsobject)
    (taskId : string) (body : jsobject) (s : Store) :
  tasks_ok s -> tasks_ok (db (post_tasks_taskId_comments now user taskId body s)).
Proof.
  intros Hs. unfold post_tasks_taskId_comments. run.
  destruct (findById Task_lookup (JStr taskId) s) as [err | [task |]] eqn:Hfind;
    simpl; [done | | done].
  apply findById_In in Hfind.
  destruct (new_comment now _ _) as [err | comment]; simpl; [done |].
  destruct (Task_save_comments task _ s) as [err | [task' s']] eqn:Hsave;
    simpl; [done |].
  by apply Task_save_comments_ok in Hsave.
Qed.

Lemma delete_tasks_id_keeps (id : string) (s : Store) :
  tasks_ok s -> tasks_ok (state (delete_tasks_id id s)).
Proof.
  revert s. unfold delete_tasks_id.
  apply trying_keeps; [| apply keeps_log_and_500']. keep.
  apply keeps_writing. intros s deleted s' Hs H.
  by apply Task_findByIdAndDelete_ok in H.
Qed.

(** X4. Every route that writes tasks leaves the collection as the
    schema and its unique indexes want it: if no two stored tasks share an
    [_id] or a title and each one passes the validators of the schema,
    the same holds of the store after [POST /tasks], [PUT /tasks/:id],
    [PUT /tasks/:id/assign], [PATCH /tasks/:id/complete],
    [POST /tasks/:taskId/comments] and [DELETE /tasks/:id], whatever the
    request and whether it is answered or fails. *)
Theorem task_routes_keep_the_collection_valid (s : Store) :
  tasks_ok s ->
  (forall newId body, tasks_ok (db (post_tasks newId body s)))
  /\ (forall sendMail id body, tasks_ok (db (put_tasks_id sendMail id body s)))
  /\ (forall sendMail id body,
        tasks_ok (db (put_tasks_id_assign sendMail id body s)))
  /\ (forall id, tasks_ok (db (patch_tasks_id_complete id s)))
  /\ (forall now user taskId body,
        tasks_ok (db (post_tasks_taskId_comments now user taskId body s)))
  /\ (forall id, tasks_ok (state (delete_tasks_id id s))).
Proof.
  intros Hs. split_and!; intros.
  - by apply post_tasks_keeps.
  - by apply put_tasks_id_keeps.
  - by apply put_tasks_id_assign_keeps.
  - by apply patch_tasks_id_complete_keeps.
  - by apply post_tasks_taskId_comments_keeps.
  - by apply delete_tasks_id_keeps.
Qed.

(** ** Round trips of the task routes *)

Lemma notin_existsb_false {A B} (f : A -> B) (eqb : B -> B -> bool)
    (l : list A) (b : B) :
  (forall x y, eqb x y = true -> x = y) ->
  b ∉ map f l -> existsb (fun a => eqb (f a) b) l = false.
Proof.
  intros Heq Hnotin. apply not_true_is_false. intros H.
  apply existsb_exists in H as (a & Ha & E). apply Hnotin.
  apply Heq in E as <-. by apply list_elem_of_In, in_map.
Qed.

Lemma lookup_inserted (ts : list Task.t) (task : Task.t) :
  existsb (fun t' => N.eqb (Task._id t') (Task._id task)) ts = false ->
  List.find (fun t => N.eqb (Task._id t) (Task._id task)) (ts ++ [task])
  = Some task.
Proof.
  induction ts as [| h ts IH]; simpl.
  - by rewrite N.eqb_refl.
  - intros H. apply orb_false_iff in H as [-> H]. by apply IH.
Qed.

Lemma lookup_absent (ts : list Task.t) (oid : ObjectId) :
  oid ∉ map Task._id ts ->
  List.find (fun t => N.eqb (Task._id t) oid) ts = None.
Proof.
  intros Hnotin. destruct (List.find _ ts) as [t |] eqn:E; [| done].
  apply find_some in E as [Hin E]. apply N.eqb_eq in E. exfalso.
  apply Hnotin. rewrite <- E. by apply list_elem_of_In, in_map.
Qed.

Lemma lookup_without_same (ts : list Task.t) (oid : ObjectId) :
  NoDup (map Task._id ts) ->
  List.find (fun t => N.eqb (Task._id t) oid) (without_task oid ts) = None.
Proof.
  induction ts as [| h ts IH]; simpl; [done |].
  intros Hnd. apply NoDup_cons in Hnd as [Hh Hnd].
  destruct (N.eqb (Task._id h) oid) eqn:E; simpl.
  - apply N.eqb_eq in E as <-. by apply lookup_absent.
  - rewrite E. by apply IH.
Qed.

Lemma lookup_without_other (ts : list Task.t) (oid oid' : ObjectId) :
  oid' <> oid ->
  List.find (fun t => N.eqb (Task._id t) oid') (without_task oid ts)
  = List.find (fun t => N.eqb (Task._id t) oid') ts.
Proof.
  intros Hne. induction ts as [| h ts IH]; simpl; [done |].
  destruct (N.eqb (Task._id h) oid) eqn:E; simpl.
  - apply N.eqb_eq in E. rewrite E.
    by rewrite (proj2 (N.eqb_neq oid oid')).
  - by rewrite IH.
Qed.

(** X5. A task that was created can be read back. Take a Create whose
    four fields are strings that pass the validator, with a title that no
    stored task carries and a fresh [_id]. When the due date is a valid
    Date, it answers 201 with the new task: the payload's title,
    description and status, the parsed due date, no assignee and no
    comment; it appends the task to the collection, and [GET /tasks/:id]
    with the id of that task, on the store that the Create leaves,
    answers 200 with the same task. When the due date is no valid Date
    (a year out of the range of dates passes the validator), the save is
    refused: the Create is answered 500 with an undefined body and
    stores nothing. *)
Theorem post_tasks_then_get_tasks_id
    (newId : ObjectId) (id : string) (body : jsobject) (s : Store)
    (t d st due : string) :
  validateTask body = Next tt ->
  get body "title" = JStr t ->
  get body "description" = JStr d ->
  get body "status" = JStr st ->
  get body "dueDate" = JStr due ->
  newId ∉ map Task._id (tasks s) ->
  t ∉ map Task.title (tasks s) ->
  castObjectId (JStr id) = Some newId ->
  (Date_isValid (parseDate due) = true ->
   let created :=
     {| Task._id := newId; Task.title := t; Task.description := d;
        Task.status := st; Task.dueDate := Some (parseDate due);
        Task.assignedTo := None; Task.comments := [] |} in
   post_tasks newId body s
   = respond 201 (JsonTask created) (set_tasks s (tasks s ++ [created])) []
   /\ get_tasks_id id (db (post_tasks newId body s))
      = respond 200 (JsonTask created) (db (post_tasks newId body s)) [])
  /\ (Date_isValid (parseDate due) = false ->
      post_tasks newId body s
      = respond 500 (Errmsg None) s
          [ConsoleLogError "Error logged: " (ValidationError "dueDate")]).
Proof.
  intros Hvalid Ht Hd Hst Hdue Hfresh Hfree Hcast.
  destruct (validated_title body Hvalid _ Ht) as [_ Htv].
  destruct (validated_description body Hvalid _ Hd) as [_ Hdv].
  destruct (validated_status body Hvalid) as (st' & Hst' & _ & Hstv).
  assert (st' = st) as -> by congruence.
  destruct (validated_dueDate body Hvalid) as [(due' & Hdue' & Hparsed) | [Hfalsy _]].
  2: { by destruct (falsy_dueDate_no_string body Hvalid Hfalsy due). }
  assert (due' = due) as -> by congruence.
  apply (notin_existsb_false _ N.eqb _ _ (fun x y => proj1 (N.eqb_eq x y)))
    in Hfresh.
  apply (notin_existsb_false _ String.eqb _ _ (fun x y => proj1 (String.eqb_eq x y)))
    in Hfree.
  split.
  - intros Hdate created.
    assert (post_tasks newId body s
            = respond 201 (JsonTask created) (set_tasks s (tasks s ++ [created])) [])
      as Hpost.
    { unfold post_tasks, guarded. rewrite Hvalid. run. rewrite Hparsed. simpl.
      unfold Task_create, castDate. run. rewrite Htv, Hdv, Hstv, Hdate. simpl.
      by rewrite Hfresh, Hfree. }
    split; [exact Hpost |]. rewrite Hpost. simpl.
    unfold get_tasks_id, findById, castId. rewrite Hcast. run.
    unfold Task_lookup. simpl.
    pose proof (lookup_inserted (tasks s) created Hfresh) as Hlookup.
    simpl in Hlookup. by rewrite Hlookup.
  - intros Hdate.
    unfold post_tasks, guarded. rewrite Hvalid. run. rewrite Hparsed. simpl.
    unfold Task_create, castDate. run. by rewrite Htv, Hdv, Hstv, Hdate.
Qed.

(** X6. An Update cannot take the title of another task. When the
    payload passes the validator with strings for title, description and
    due date, the task exists, and another stored task carries the
    payload's title, [PUT /tasks/:id] is answered 500 by the [catch] of
    the route, stores nothing and sends no mail: with the duplicate-key
    message of the index on [title] when the due date is a valid Date,
    and with an undefined body when it is not, because the validation of
    the document then fails before the write. *)
Theorem put_tasks_id_title_of_another_task
    (sendMail : MailOptions -> transport_result)
    (id : string) (body : jsobject) (s : Store)
    (oid : ObjectId) (task other : Task.t) (t d due : string) :
  validateTask body = Next tt ->
  get body "title" = JStr t ->
  get body "description" = JStr d ->
  get body "dueDate" = JStr due ->
  castObjectId (JStr id) = Some oid ->
  Task_lookup oid s = Some task ->
  other ∈ tasks s ->
  Task.title other = t ->
  Task._id other <> oid ->
  let err := if Date_isValid (parseDate due) then E11000 "title_1"
             else ValidationError "dueDate" in
  put_tasks_id sendMail id body s
  = respond 500 (Errmsg (err_errmsg err)) s
      [ConsoleLogError "Error logged: " err].
Proof.
  intros Hvalid Ht Hd Hdue Hcast Hfind Hin Htitle Hother err. unfold err.
  destruct (validated_title body Hvalid _ Ht) as [Htt Htv].
  destruct (validated_description body Hvalid _ Hd) as [Hdt Hdv].
  destruct (validated_status body Hvalid) as (st & Hst & Hstt & Hstv).
  destruct (validated_dueDate body Hvalid) as [(due' & Hdue' & Hparsed) | [Hfalsy _]].
  2: { by destruct (falsy_dueDate_no_string body Hvalid Hfalsy due). }
  assert (due' = due) as -> by congruence.
  pose proof (Task_lookup_id _ _ _ Hfind) as Hid.
  assert (existsb (fun t' => negb (N.eqb (Task._id t') oid)
                             && String.eqb (Task.title t') t) (tasks s) = true)
    as Htaken.
  { apply existsb_exists. exists other. split; [by apply list_elem_of_In |].
    apply andb_true_iff. split.
    - by apply negb_true_iff, N.eqb_neq.
    - by apply String.eqb_eq. }
  unfold put_tasks_id, guarded. rewrite Hvalid.
  unfold or_task. run. rewrite Hparsed. simpl.
  unfold findById, castId. rewrite Hcast, Hfind. simpl.
  rewrite Htt, Hdt, Hstt. simpl.
  unfold Task_save, castDate. run. rewrite Htv, Hdv, Hstv. simpl.
  destruct (Date_isValid (parseDate due)); simpl; [| done].
  by rewrite Hid, Htaken.
Qed.

(** X7. A deleted task is gone, and only that one. When the stored ids
    are distinct and a task has the id of the request, [DELETE
    /tasks/:id] answers 200 with that task; afterwards no task has that
    id, every other id finds what it found before, [GET /tasks/:id]
    answers 404 with the message that names the id, and so does a second
    [DELETE], which leaves the store as it is. *)
Theorem delete_tasks_id_then_gone (id : string) (oid : ObjectId)
    (s : Store) (task : Task.t) :
  castObjectId (JStr id) = Some oid ->
  NoDup (map Task._id (tasks s)) ->
  Task_lookup oid s = Some task ->
  let after := state (delete_tasks_id id s) in
  result (delete_tasks_id id s)
    = Replies {| code := 200; content := Plain (JsonTask task) |}
  /\ Task_lookup oid after = None
  /\ (forall oid', oid' <> oid -> Task_lookup oid' after = Task_lookup oid' s)
  /\ get_tasks_id id after
     = respond 404 (Text ("The task with id " ++ id ++ " not found !")) after []
  /\ delete_tasks_id id after
     = {| result := Replies
            {| code := 404;
               content := Plain (Text ("The task with id " ++ id ++ " not found !")) |};
          state := after; trace := [] |}.
Proof.
  intros Hcast Hnd Hfind after.
  pose proof (Task_lookup_id _ _ _ Hfind) as Hid.
  assert (delete_tasks_id id s
          = {| result := Replies {| code := 200; content := Plain (JsonTask task) |};
               state := set_tasks s (without_task oid (tasks s)); trace := [] |})
    as Hdelete.
  { unfold delete_tasks_id, trying, Task_findByIdAndDelete, findById, castId.
    rewrite Hcast. run. rewrite Hfind. simpl. rewrite Hfind. simpl.
    by rewrite Hid. }
  assert (Task_lookup oid after = None) as Hgone.
  { unfold after. rewrite Hdelete. unfold Task_lookup. simpl.
    by apply lookup_without_same. }
  split; [by rewrite Hdelete |]. split; [exact Hgone |]. split; [| split].
  - intros oid' Hne. unfold after. rewrite Hdelete. unfold Task_lookup. simpl.
    by apply lookup_without_other.
  - unfold get_tasks_id, findById, castId. rewrite Hcast. run.
    by rewrite Hgone.
  - unfold delete_tasks_id, trying, findById, castId. rewrite Hcast. run.
    by rewrite Hgone.
Qed.

(** ** Assignment *)

Lemma castId_Cast (v : jsval) (oid : ObjectId) :
  castId v = Cast oid ->
  castObjectId v = Some oid /\ assignedTo_update v = inr (with_assignedTo (Some oid)).
Proof.
  unfold castId, assignedTo_update.
  destruct v; try done; destruct (castObjectId _); try done;
    by intros [= ->].
Qed.

Lemma put_tasks_id_assign_found
    (sendMail : MailOptions -> transport_result)
    (id : string) (body : jsobject) (s : Store)
    (uid oid : ObjectId) (user : User.t) (task : Task.t) :
  castId (get body "assignedTo") = Cast uid ->
  User_lookup uid s = Some user ->
  castObjectId (JStr id) = Some oid ->
  Task_lookup oid s = Some task ->
  let updated := with_assignedTo (Some uid) task in
  let s' := set_tasks s (map (fun t' => if N.eqb (Task._id t') oid
                                        then with_assignedTo (Some uid) t'
                                        else t') (tasks s)) in
  put_tasks_id_assign sendMail id body s
  = match populateEmailForAssignee updated (UserDoc user) false with
    | inr m =>
        {| reply := Responds {| statusCode := 200; payload := JsonTask updated |};
           db := s';
           events := [ConsoleLogMail m; SendMail m;
                      match sendMail m with
                      | Delivered response => ConsoleLog ("Email sent: " ++ response)
                      | Failed error => ConsoleErrorMail error
                      end] |}
    | inl err =>
        {| reply := Responds {| statusCode := 500; payload := Errmsg (err_errmsg err) |};
           db := s';
           events := [ConsoleLogError "Error logged: " err] |}
    end.
Proof.
  intros Hv Huser Hcast Hfind updated s'.
  pose proof (Task_lookup_id _ _ _ Hfind) as Hid.
  destruct (castId_Cast _ _ Hv) as [_ Hupdate].
  unfold put_tasks_id_assign, guarded_by, userExists, taskExists, findById.
  rewrite Hv, Huser. unfold castId at 1. rewrite Hcast, Hfind.
  run. rewrite Hupdate. simpl.
  unfold Task_findByIdAndUpdate, findById, castId. rewrite Hcast. run.
  rewrite Hfind. simpl. rewrite Hid. fold updated. fold s'.
  destruct (populateEmailForAssignee updated (UserDoc user) false) as [err | m];
    simpl; [done |].
  unfold sendEmail. run. by destruct (sendMail m).
Qed.

(** X8. An assignment notifies the assignee. When [assignedTo] is the id
    of a stored user and the task exists and has a due date, [PUT
    /tasks/:id/assign] answers 200 with the task carrying the new
    assignee, stores it, and hands exactly one payload to the transport:
    the "assigned" notification, addressed to the email of that user and
    sent from the configured address. *)
Theorem put_tasks_id_assign_notifies_the_assignee
    (sendMail : MailOptions -> transport_result)
    (id : string) (body : jsobject) (s : Store)
    (uid oid : ObjectId) (user : User.t) (task : Task.t) (due : jsdate) :
  castId (get body "assignedTo") = Cast uid ->
  User_lookup uid s = Some user ->
  castObjectId (JStr id) = Some oid ->
  Task_lookup oid s = Some task ->
  Task.dueDate task = Some due ->
  let out := put_tasks_id_assign sendMail id body s in
  reply out
    = Responds {| statusCode := 200;
                  payload := JsonTask (with_assignedTo (Some uid) task) |}
  /\ Task_lookup oid (db out) = Some (with_assignedTo (Some uid) task)
  /\ exists m, sent_mails (events out) = [m]
       /\ to m = Some (User.email user)
       /\ from m = EMAIL_USER
       /\ subject m = "Task Assignment Notification".
Proof.
  intros Hv Huser Hcast Hfind Hdue out. unfold out.
  rewrite (put_tasks_id_assign_found sendMail id body s uid oid user task)
    by done.
  unfold populateEmailForAssignee. simpl. rewrite Hdue. simpl.
  split; [done |]. split.
  - unfold Task_lookup in Hfind |- *. simpl.
    rewrite (lookup_after_update (with_assignedTo (Some uid))) by done.
    by rewrite Hfind.
  - destruct (sendMail _); simpl; eexists; (split; [reflexivity | done]).
Qed.

(** X9. An assignment of a task without a due date is stored although
    the request fails. With [assignedTo] the id of a stored user and a
    stored task whose [dueDate] is not set, [PUT /tasks/:id/assign]
    answers 500 with an undefined body, because building the mail throws
    after the update was written: the stored task carries the new
    assignee, and nothing is handed to the transport. *)
Theorem put_tasks_id_assign_without_due_date
    (sendMail : MailOptions -> transport_result)
    (id : string) (body : jsobject) (s : Store)
    (uid oid : ObjectId) (user : User.t) (task : Task.t) :
  castId (get body "assignedTo") = Cast uid ->
  User_lookup uid s = Some user ->
  castObjectId (JStr id) = Some oid ->
  Task_lookup oid s = Some task ->
  Task.dueDate task = None ->
  let out := put_tasks_id_assign sendMail id body s in
  reply out = Responds {| statusCode := 500; payload := Errmsg None |}
  /\ Task_lookup oid (db out) = Some (with_assignedTo (Some uid) task)
  /\ sent_mails (events out) = [].
Proof.
  intros Hv Huser Hcast Hfind Hdue out. unfold out.
  rewrite (put_tasks_id_assign_found sendMail id body s uid oid user task)
    by done.
  unfold populateEmailForAssignee. simpl. rewrite Hdue. simpl.
  split; [done |]. split; [| done].
  unfold Task_lookup in Hfind |- *. simpl.
  rewrite (lookup_after_update (with_assignedTo (Some uid))) by done.
  by rewrite Hfind.
Qed.

(** ** Assignees are stored users *)

Lemma guarded_by_keeps_next {A} (P : Store -> Prop)
    (mw : Store -> Middleware A * list Event) (route : A -> Store -> Outcome) :
  (forall a s, P s -> (mw s).1 = Next a -> P (db (route a s))) ->
  forall s, P s -> P (db (guarded_by mw route s)).
Proof.
  intros Hroute s Hs. unfold guarded_by.
  pose proof (fun a => Hroute a s Hs) as Hnext.
  destruct (mw s) as [[res | a | err] evs]; simpl in *; auto.
Qed.

Lemma assignees_in_map (us : list User.t) (ts : list Task.t)
    (p : Task.t -> bool) (f : Task.t -> Task.t) :
  (forall t uid, Task.assignedTo (f t) = Some uid ->
                 Task.assignedTo t = Some uid \/ uid ∈ map User._id us) ->
  assignees_in us ts ->
  assignees_in us (map (fun t' => if p t' then f t' else t') ts).
Proof.
  intros Hf Hts. apply Forall_map. eapply Forall_impl; [exact Hts |].
  intros t Ht uid. simpl. destruct (p t); [| apply Ht].
  intros H. destruct (Hf t uid H) as [H' | H']; [by apply Ht | done].
Qed.

Lemma found_assigned (us : list User.t) (id : jsval) (s : Store) (task : Task.t) :
  assigned_within us s ->
  findById Task_lookup id s = inr (Some task) ->
  forall uid, Task.assignedTo task = Some uid -> uid ∈ map User._id us.
Proof.
  intros [_ Hts] Hfind. apply findById_In in Hfind.
  unfold assignees_in in Hts. rewrite Forall_forall in Hts. by apply Hts.
Qed.

Lemma Task_create_assigned (us : list User.t) (newId : ObjectId)
    (title description status : jsval) (dueDate : option jsdate)
    (s s' : Store) (task : Task.t) :
  assigned_within us s ->
  Task_create newId title description status dueDate s = inr (task, s') ->
  assigned_within us s'.
Proof.
  intros [Hus Hts]. unfold Task_create, mbind, sum_bind.
  destruct (required_string "title" _ _) as [| t]; [done |].
  destruct (required_string "description" _ _) as [| d]; [done |].
  destruct (required_string "status" _ _) as [| st]; [done |].
  destruct (castDate "dueDate" dueDate) as [| date]; [done |].
  destruct (existsb _ (tasks s)); [done |].
  destruct (existsb _ (tasks s)); [done |].
  intros [= <- <-]. split; [done |]. simpl.
  apply Forall_app. split; [done |]. by constructor.
Qed.

Lemma Task_save_assigned (us : list User.t) (task : Task.t)
    (title description status : jsval) (dueDate : option jsdate)
    (s s' : Store) (task' : Task.t) :
  (forall uid, Task.assignedTo task = Some uid -> uid ∈ map User._id us) ->
  assigned_within us s ->
  Task_save task title description status dueDate s = inr (task', s') ->
  assigned_within us s'.
Proof.
  intros Htask [Hus Hts]. unfold Task_save, mbind, sum_bind.
  destruct (required_string "title" _ _) as [| t]; [done |].
  destruct (required_string "description" _ _) as [| d]; [done |].
  destruct (required_string "status" _ _) as [| st]; [done |].
  destruct (castDate "dueDate" dueDate) as [| date]; [done |].
  destruct (existsb _ (tasks s)); [done |].
  intros [= <- <-]. split; [done |]. simpl.
  apply (assignees_in_map us (tasks s) _ (fun _ => _)); [| done].
  intros other uid H. right. by apply Htask.
Qed.

Lemma Task_save_comments_assigned (us : list User.t) (task : Task.t)
    (comments : list Comment.t) (s s' : Store) (task' : Task.t) :
  (forall uid, Task.assignedTo task = Some uid -> uid ∈ map User._id us) ->
  assigned_within us s ->
  Task_save_comments task comments s = inr (task', s') ->
  assigned_within us s'.
Proof.
  intros Htask [Hus Hts]. unfold Task_save_comments, mbind, sum_bind.
  destruct (required_string "title" _ _) as [| t]; [done |].
  destruct (required_string "description" _ _) as [| d]; [done |].
  destruct (required_string "status" _ _) as [| st]; [done |].
  destruct (forallb comment_valid comments); [| done].
  intros [= <- <-]. split; [done |]. simpl.
  apply (assignees_in_map us (tasks s) _ (fun _ => _)); [| done].
  intros other uid H. right. by apply Htask.
Qed.

Lemma Task_findByIdAndUpdate_assigned (us : list User.t) (id : jsval)
    (update : Task.t -> Task.t) (s s' : Store) (found : option Task.t) :
  (forall t uid, Task.assignedTo (update t) = Some uid ->
                 Task.assignedTo t = Some uid \/ uid ∈ map User._id us) ->
  assigned_within us s ->
  Task_findByIdAndUpdate id update s = inr (found, s') ->
  assigned_within us s'.
Proof.
  intros Hupd [Hus Hts]. unfold Task_findByIdAndUpdate, mbind, sum_bind.
  destruct (findById Task_lookup id s) as [| [task |]]; [done | |].
  - intros [= <- <-]. split; [done |]. simpl. by apply assignees_in_map.
  - by intros [= <- <-].
Qed.

Lemma Task_findByIdAndDelete_assigned (us : list User.t) (id : jsval)
    (s s' : Store) (found : option Task.t) :
  assigned_within us s ->
  Task_findByIdAndDelete id s = inr (found, s') ->
  assigned_within us s'.
Proof.
  intros [Hus Hts]. unfold Task_findByIdAndDelete, mbind, sum_bind.
  destruct (findById Task_lookup id s) as [| [task |]]; [done | |].
  - intros [= <- <-]. split; [done |]. simpl.
    unfold assignees_in in *. rewrite Forall_forall in Hts.
    apply Forall_forall. intros t Ht. apply Hts.
    eapply elem_of_sublist; [exact Ht | apply without_task_sublist].
  - by intros [= <- <-].
Qed.

Lemma userExists_Next (body : jsobject) (s : Store) (user : User.t) :
  (userExists body s).1 = Next user ->
  exists uid, castId (get body "assignedTo") = Cast uid
              /\ User_lookup uid s = Some user.
Proof.
  unfold userExists, findById.
  destruct (castId (get body "assignedTo")) as [| uid |]; simpl; [done | | done].
  destruct (User_lookup uid s) as [u |] eqn:E; simpl; [| done].
  intros [= ->]. by exists uid.
Qed.

Lemma User_lookup_In (uid : ObjectId) (s : Store) (user : User.t) :
  User_lookup uid s = Some user -> uid ∈ map User._id (users s).
Proof.
  unfold User_lookup. intros H. apply find_some in H as [Hin H].
  apply N.eqb_eq in H as <-. by apply list_elem_of_In, in_map.
Qed.

Section Assigned.

Variable us : list User.t.

Lemma post_tasks_assigned (newId : ObjectId) (body : jsobject) (s : Store) :
  assigned_within us s -> assigned_within us (db (post_tasks newId body s)).
Proof.
  revert s. unfold post_tasks. apply (guarded_keeps (assigned_within us)).
  intros _. apply try_catch_keeps; [| apply keeps_log_and_500]. keep.
  apply keeps_writing. intros s t s' Hs H. by apply (Task_create_assigned us) in H.
Qed.

Lemma put_tasks_id_assigned (sendMail : MailOptions -> transport_result)
    (id : string) (body : jsobject) (s : Store) :
  assigned_within us s ->
  assigned_within us (db (put_tasks_id sendMail id body s)).
Proof.
  revert s. unfold put_tasks_id. apply (guarded_keeps (assigned_within us)).
  intros _. apply try_catch_keeps; [| apply keeps_log_and_500].
  apply keeps_bind; [apply keeps_reading | intros parsed].
  apply (keeps_bind_with _
           (fun found => forall t, found = Some t ->
              forall uid, Task.assignedTo t = Some uid -> uid ∈ map User._id us)).
  - intros s found Hs Hfound t ->. simpl in Hfound.
    by eapply (found_assigned us).
  - apply keeps_reading.
  - intros [task |] Htask; [| apply keeps_throw].
    specialize (Htask task eq_refl). keep.
    apply keeps_writing. intros s t s' Hs H. by apply (Task_save_assigned us) in H.
Qed.

Lemma put_tasks_id_assign_assigned (sendMail : MailOptions -> transport_result)
    (id : string) (body : jsobject) (s : Store) :
  assigned_within us s ->
  assigned_within us (db (put_tasks_id_assign sendMail id body s)).
Proof.
  revert s. unfold put_tasks_id_assign.
  apply (guarded_by_keeps_next (assigned_within us)). intros user s Hs Hnext.
  apply userExists_Next in Hnext as (uid & Hv & Huser).
  apply User_lookup_In in Huser. destruct Hs as [Hus Hts].
  rewrite Hus in Huser. assert (assigned_within us s) as Hs by done.
  destruct (castId_Cast _ _ Hv) as [_ Hupdate].
  clear Hus Hts. revert s Hs.
  apply (guarded_by_keeps (assigned_within us)). intros _.
  apply try_catch_keeps; [| apply keeps_log_and_500].
  apply (keeps_bind_with _
           (fun update => forall t uid', Task.assignedTo (update t) = Some uid' ->
              Task.assignedTo t = Some uid' \/ uid' ∈ map User._id us)).
  - intros s update _ H. simpl in H. rewrite Hupdate in H. injection H as <-.
    intros task uid'. simpl. intros [= <-]. by right.
  - apply keeps_reading.
  - intros update Hupd. keep.
    apply keeps_writing. intros s t s' Hs H.
    by apply (Task_findByIdAndUpdate_assigned us) in H.
Qed.

Lemma patch_tasks_id_complete_assigned (id : string) (s : Store) :
  assigned_within us s ->
  assigned_within us (db (patch_tasks_id_complete id s)).
Proof.
  revert s. unfold patch_tasks_id_complete.
  apply try_catch_keeps; [| apply keeps_log_and_500]. keep.
  apply keeps_writing. intros s t s' Hs H.
  apply (Task_findByIdAndUpdate_assigned us) in H; [done | | done].
  intros task uid. simpl. by left.
Qed.

Lemma post_tasks_taskId_comments_assigned (now : Z) (user : jsobject)
    (taskId : string) (body : jsobject) (s : Store) :
  assigned_within us s ->
  assigned_within us (db (post_tasks_taskId_comments now user taskId body s)).
Proof.
  revert s. unfold post_tasks_taskId_comments.
  apply try_catch_keeps; [| intros err; apply keeps_send].
  apply (keeps_bind_with _
           (fun found => forall t, found = Some t ->
              forall uid, Task.assignedTo t = Some uid -> uid ∈ map User._id us)).
  - intros s found Hs Hfound t ->. simpl in Hfound.
    by eapply (found_assigned us).
  - apply keeps_reading.
  - intros [task |] Htask; [| apply keeps_send].
    specialize (Htask task eq_refl). keep.
    apply keeps_writing. intros s t s' Hs H.
    by apply (Task_save_comments_assigned us) in H.
Qed.

Lemma delete_tasks_id_assigned (id : string) (s : Store) :
  assigned_within us s -> assigned_within us (state (delete_tasks_id id s)).
Proof.
  revert s. unfold delete_tasks_id.
  apply trying_keeps; [| apply keeps_log_and_500']. keep.
  apply keeps_writing. intros s deleted s' Hs H.
  by apply (Task_findByIdAndDelete_assigned us) in H.
Qed.

End Assigned.

Lemma assigned_within_ok (s s' : Store) :
  assigned_within (users s) s' -> assignees_ok s' /\ users s' = users s.
Proof. intros [Hus Hts]. unfold assignees_ok. by rewrite Hus. Qed.

(** X10. No task route leaves a task assigned to somebody who is not a
    stored user. If every assignee in the store is a stored user, the
    same holds after [PUT /tasks/:id/assign], which sets the assignee
    only once [userExists] has found the user, and after [POST /tasks],
    [PUT /tasks/:id], [PATCH /tasks/:id/complete], [POST
    /tasks/:taskId/comments] and [DELETE /tasks/:id], which keep or drop
    the assignee they find; none of them changes the users. *)
Theorem task_routes_keep_assignees_registered (s : Store) :
  assignees_ok s ->
  (forall sendMail id body,
     assignees_ok (db (put_tasks_id_assign sendMail id body s))
     /\ users (db (put_tasks_id_assign sendMail id body s)) = users s)
  /\ (forall newId body,
        assignees_ok (db (post_tasks newId body s))
        /\ users (db (post_tasks newId body s)) = users s)
  /\ (forall sendMail id body,
        assignees_ok (db (put_tasks_id sendMail id body s))
        /\ users (db (put_tasks_id sendMail id body s)) = users s)
  /\ (forall id,
        assignees_ok (db (patch_tasks_id_complete id s))
        /\ users (db (patch_tasks_id_complete id s)) = users s)
  /\ (forall now user taskId body,
        assignees_ok (db (post_tasks_taskId_comments now user taskId body s))
        /\ users (db (post_tasks_taskId_comments now user taskId body s)) = users s)
  /\ (forall id,
        assignees_ok (state (delete_tasks_id id s))
        /\ users (state (delete_tasks_id id s)) = users s).
Proof.
  intros Hs. assert (assigned_within (users s) s) as Hwithin by done.
  split_and!; intros; apply assigned_within_ok.
  - by apply put_tasks_id_assign_assigned.
  - by apply post_tasks_assigned.
  - by apply put_tasks_id_assigned.
  - by apply patch_tasks_id_complete_assigned.
  - by apply post_tasks_taskId_comments_assigned.
  - by apply delete_tasks_id_assigned.
Qed.

(** ** Comments *)

Lemma schema_valid_paths (task : Task.t) :
  schema_valid task = true ->
  required_string "title" title_valid (Cast (Task.title task)) = inr (Task.title task)
  /\ required_string "description" description_valid (Cast (Task.description task))
     = inr (Task.description task)
  /\ required_string "status" status_valid (Cast (Task.status task))
     = inr (Task.status task)
  /\ forallb comment_valid (Task.comments task) = true.
Proof.
  unfold schema_valid. intros H.
  apply andb_true_iff in H as [H Hc]. apply andb_true_iff in H as [H Hst].
  apply andb_true_iff in H as [H Hd']. apply andb_true_iff in H as [H Hd].
  apply andb_true_iff in H as [Ht Ht'].
  assert (negb (String.eqb (Task.status task) EmptyString) = true) as Hst'.
  { pose proof Hst as Hin. apply bool_decide_eq_true in Hin.
    unfold TaskStatus_values in Hin.
    apply elem_of_cons in Hin as [-> | Hin]; [done |].
    apply elem_of_cons in Hin as [-> | Hin]; [done |].
    by apply elem_of_nil in Hin. }
  unfold required_string. rewrite Ht, Ht', Hd, Hd', Hst, Hst'. simpl.
  by split_and!.
Qed.

(** X11. A logged-in user can comment, and the comment is theirs. For
    the identity that [sharedMiddleware] decodes from a login token, a
    stored task that passes the validators of the schema, and a text of 1
    to 1000 characters, [POST /tasks/:taskId/comments] answers 201 with
    the task whose comments are the earlier ones followed by the new one,
    written by the user of the token at the time of the request, and
    stores that task. *)
Theorem post_tasks_taskId_comments_by_login_identity
    (now iat : Z) (u : User.t) (taskId : string) (body : jsobject) (s : Store)
    (oid : ObjectId) (task : Task.t) (text : string) :
  castObjectId (JStr (toHexString (User._id u))) = Some (User._id u) ->
  castObjectId (JStr taskId) = Some oid ->
  Task_lookup oid s = Some task ->
  schema_valid task = true ->
  get body "text" = JStr text ->
  text <> EmptyString ->
  (String.length text <= 1000)%nat ->
  let comment := {| Comment.user := User._id u; Comment.text := text;
                    Comment.createdAt := now |} in
  let commented := with_comments (Task.comments task ++ [comment]) task in
  let out := post_tasks_taskId_comments now (claims (login_payload u) iat)
               taskId body s in
  reply out = Responds {| statusCode := 201; payload := JsonTask commented |}
  /\ Task_lookup oid (db out) = Some commented.
Proof.
  intros Huid Hcast Hfind Hvalid Htext Hne Hlen comment commented out.
  pose proof (Task_lookup_id _ _ _ Hfind) as Hid.
  destruct (schema_valid_paths task Hvalid) as (Ht & Hd & Hst & Hcs).
  assert (comment_valid comment = true) as Hc.
  { unfold comment_valid, length_between. simpl.
    rewrite (proj2 (String.eqb_neq text EmptyString) Hne). simpl.
    by apply Nat.leb_le. }
  assert (out = respond 201 (JsonTask commented)
                  (set_tasks s (map (fun t' => if N.eqb (Task._id t') oid
                                               then commented else t') (tasks s)))
                  []) as ->.
  { unfold out, post_tasks_taskId_comments, findById, castId.
    rewrite Hcast, login_identity_id, Htext. run. rewrite Hfind. simpl.
    unfold new_comment, castId. rewrite Huid. run.
    rewrite (proj2 (String.eqb_neq text EmptyString) Hne). simpl.
    unfold length_between. simpl.
    rewrite (proj2 (Nat.leb_le _ 1000) Hlen). simpl.
    unfold Task_save_comments. rewrite Ht, Hd, Hst. run.
    rewrite forallb_app, Hcs. simpl. fold comment. rewrite Hc. simpl.
    by rewrite Hid. }
  split; [done |]. simpl. unfold Task_lookup in Hfind |- *. simpl.
  rewrite (lookup_after_update (fun _ => commented)) by done.
  by rewrite Hfind.
Qed.

(** X12. A comment without text is answered 500, not 400. When the task
    exists and [req.user.id] is an id, a request whose [text] is absent,
    empty or longer than 1000 characters is answered by the [catch] of
    the route with status 500 and the message of the validation error on
    the text of the comment; the store is unchanged. *)
Theorem post_tasks_taskId_comments_without_text
    (now : Z) (user : jsobject) (taskId : string) (body : jsobject) (s : Store)
    (oid uid : ObjectId) (task : Task.t) :
  castObjectId (JStr taskId) = Some oid ->
  Task_lookup oid s = Some task ->
  castId (get user "id") = Cast uid ->
  get body "text" = JUndefined
  \/ (exists text, get body "text" = JStr text
        /\ (text = EmptyString \/ (1000 < String.length text)%nat)) ->
  post_tasks_taskId_comments now user taskId body s
  = respond 500 (ErrMessage (ValidationError "comments.text")) s [].
Proof.
  intros Hcast Hfind Huid Htext.
  unfold post_tasks_taskId_comments, findById. unfold castId at 1.
  rewrite Hcast. run. rewrite Hfind. simpl.
  unfold new_comment. rewrite Huid. run.
  destruct Htext as [-> | (text & -> & [-> | Hlong])]; simpl; [done | done |].
  unfold length_between. simpl.
  rewrite (proj2 (Nat.leb_gt _ 1000) Hlong).
  by rewrite andb_false_r.
Qed.

(** ** Members of a team *)

Lemma resolved_complete (emails : list string) (us : list User.t) (u : User.t) :
  u ∈ us -> User.email u ∈ emails -> u ∈ resolved emails us.
Proof.
  unfold with_email_in. rewrite !list_elem_of_In, filter_In.
  intros Hin He. split; [done |].
  apply bool_decide_eq_true. apply list_elem_of_fmap.
  exists (User.email u). split; [done | by apply list_elem_of_In].
Qed.

Lemma resolved_length_iff (emails : list string) (us : list User.t) :
  NoDup (map User.email us) ->
  List.length (resolved emails us) = List.length emails
  <-> NoDup emails /\ forall e, e ∈ emails -> exists u, u ∈ us /\ User.email u = e.
Proof.
  intros Hnodup.
  assert (Hsub : map User.email (resolved emails us) ⊆+ emails).
  { apply NoDup_submseteq; [by apply resolved_NoDup |].
    intros x Hx. apply list_elem_of_fmap in Hx as (u & -> & Hu).
    by apply resolved_email in Hu as [_ ?]. }
  split.
  - intros Hlen.
    assert (Hperm : map User.email (resolved emails us) ≡ₚ emails).
    { apply submseteq_length_Permutation; [done |]. rewrite length_map. lia. }
    split.
    + rewrite <- Hperm. by apply resolved_NoDup.
    + intros e He. rewrite <- Hperm in He.
      apply list_elem_of_fmap in He as (u & -> & Hu).
      exists u. split; [| done]. by apply resolved_email in Hu as [? _].
  - intros [Hnd Hall].
    apply submseteq_length in Hsub. rewrite length_map in Hsub.
    assert (Hsup : emails ⊆+ map User.email (resolved emails us)).
    { apply NoDup_submseteq; [done |]. intros e He.
      destruct (Hall e He) as (u & Hu & <-).
      apply list_elem_of_fmap. exists u. split; [done |].
      by apply resolved_complete. }
    apply submseteq_length in Hsup. rewrite length_map in Hsup. lia.
Qed.

(** X13. The members of a new team are taken all or none, and each can
    be named once. With a non-empty name, a list of email strings, and
    user emails that are unique, [POST /teams] answers 404 "Some members
    not found" exactly when the list names an email twice or names an
    email that belongs to no user; the store is then unchanged. *)
Theorem post_teams_members_all_or_nothing
    (newId : ObjectId) (user : jsobject) (body : jsobject) (s : Store)
    (emails : list string) :
  truthy (get body "name") = true ->
  get body "memberEmails" = JArr (map JStr emails) ->
  NoDup (map User.email (users s)) ->
  post_teams newId user body s
    = respond 404 (JsonText "Some members not found") s []
  <-> ~ (NoDup emails
         /\ forall e, e ∈ emails -> exists u, u ∈ users s /\ User.email u = e).
Proof.
  intros Hname Hemails Hnodup.
  rewrite <- (resolved_length_iff emails (users s) Hnodup).
  unfold post_teams. rewrite Hemails. unfold falsy. rewrite Hname. simpl.
  unfold User_find_by_emails, in_values. run.
  rewrite cast_emails_strings. simpl.
  unfold length_differs. simpl. rewrite length_map.
  destruct (Qeq_bool _ _) eqn:Heq; simpl.
  - apply Qeq_bool_inject_Z in Heq. apply Nat2Z.inj in Heq.
    split; [| by intros H].
    destruct (castId (get user "_id")); simpl; try done.
    destruct (Team_save true _ s) as [err | [saved s']]; simpl; [| done].
    unfold catch_post_teams, duplicate_key_answer.
    destruct (bool_decide (err_code err = Some 11000)); by run.
  - split; [| done]. intros _ Hlen.
    rewrite Hlen in Heq.
    assert (Qeq_bool (inject_Z (Z.of_nat (List.length emails)))
                     (inject_Z (Z.of_nat (List.length emails))) = true) as Hrefl
      by by apply Qeq_bool_inject_Z.
    by rewrite Hrefl in Heq.
Qed.

(** ** The team collection *)

Lemma replace_keeps_unique {A} (ident : A -> ObjectId) (key : A -> string)
    (new : A) (l : list A) :
  NoDup (map ident l) ->
  NoDup (map key l) ->
  existsb (fun x => negb (N.eqb (ident x) (ident new))
                    && String.eqb (key x) (key new)) l = false ->
  NoDup (map ident (map (fun x => if N.eqb (ident x) (ident new) then new else x) l))
  /\ NoDup (map key (map (fun x => if N.eqb (ident x) (ident new) then new else x) l)).
Proof.
  intros Hid Hkey Hfree. split.
  - rewrite map_map. erewrite map_ext; [exact Hid |].
    intros x. simpl. destruct (N.eqb (ident x) (ident new)) eqn:E; [| done].
    symmetry. by apply N.eqb_eq.
  - induction l as [| h rest IH]; simpl in *; [constructor |].
    apply NoDup_cons in Hid as [Hh Hid]. apply NoDup_cons in Hkey as [Hh' Hkey].
    apply orb_false_iff in Hfree as [Hhead Hfree].
    specialize (IH Hid Hkey Hfree).
    apply NoDup_cons. split; [| exact IH].
    intros Hin. apply list_elem_of_In, in_map_iff in Hin as (x & Hx & Hin).
    apply in_map_iff in Hin as (y & <- & Hy).
    assert (negb (N.eqb (ident y) (ident new))
            && String.eqb (key y) (key new) = false) as Hy'.
    { apply not_true_is_false. intros E.
      assert (existsb (fun x => negb (N.eqb (ident x) (ident new))
                && String.eqb (key x) (key new)) rest = true)
        as Htrue by (apply existsb_exists; by exists y).
      by rewrite Htrue in Hfree. }
    destruct (N.eqb (ident y) (ident new)) eqn:Ey;
      destruct (N.eqb (ident h) (ident new)) eqn:Eh; simpl in *.
    + apply Hh. apply N.eqb_eq in Ey, Eh. rewrite Eh, <- Ey.
      apply list_elem_of_In, in_map. exact Hy.
    + apply String.eqb_neq in Hhead. by rewrite Hx in Hhead.
    + apply String.eqb_neq in Hy'. by rewrite Hx in Hy'.
    + apply Hh'. rewrite <- Hx. apply list_elem_of_In, in_map. exact Hy.
Qed.

Lemma Team_save_new_ok (team : TeamDraft) (s s' : Store) (saved : Team.t) :
  teams_ok s -> Team_save true team s = inr (saved, s') -> teams_ok s'.
Proof.
  intros [Hid Hname]. unfold Team_save, mbind, sum_bind.
  destruct (required_string "name" _ _) as [| name]; [done |].
  destruct (optional_string "description" _ _) as [| description]; [done |].
  destruct (draft_createdBy team) as [| createdBy |]; [done | | done].
  destruct (existsb _ (teams s)) eqn:E1; [done |].
  destruct (existsb (fun t' => String.eqb (Team.name t') name) (teams s)) eqn:E2;
    [done |].
  intros [= <- <-]. unfold teams_ok; simpl. rewrite !map_app; simpl. split.
  - apply NoDup_app. split; [done | split; [| apply NoDup_singleton]].
    intros x Hx Hx'. apply list_elem_of_singleton in Hx' as ->.
    by apply (existsb_false_notin _ _ _ _ N.eqb_refl) in E1.
  - apply NoDup_app. split; [done | split; [| apply NoDup_singleton]].
    intros x Hx Hx'. apply list_elem_of_singleton in Hx' as ->.
    by apply (existsb_false_notin _ _ _ _ String.eqb_refl) in E2.
Qed.

Lemma Team_save_update (team : TeamDraft) (s s' : Store) (saved : Team.t) :
  Team_save false team s = inr (saved, s') ->
  Team._id saved = draft_id team
  /\ draft_createdBy team = Cast (Team.createdBy saved)
  /\ existsb (fun t' => negb (N.eqb (Team._id t') (Team._id saved))
                        && String.eqb (Team.name t') (Team.name saved)) (teams s)
     = false
  /\ s' = set_teams s (map (fun t' => if N.eqb (Team._id t') (Team._id saved)
                                      then saved else t') (teams s)).
Proof.
  unfold Team_save, mbind, sum_bind.
  destruct (required_string "name" _ _) as [| name]; [done |].
  destruct (optional_string "description" _ _) as [| description]; [done |].
  destruct (draft_createdBy team) as [| createdBy |]; [done | | done].
  destruct (existsb _ (teams s)) eqn:E; [done |].
  by intros [= <- <-].
Qed.

Lemma Team_save_update_ok (team : TeamDraft) (s s' : Store) (saved : Team.t) :
  teams_ok s -> Team_save false team s = inr (saved, s') -> teams_ok s'.
Proof.
  intros [Hid Hname] H.
  apply Team_save_update in H as (_ & _ & Hfree & ->).
  apply (replace_keeps_unique Team._id Team.name saved (teams s)); done.
Qed.

Lemma owners_after_update (o : list (ObjectId * ObjectId)) (team : TeamDraft)
    (s s' : Store) (saved : Team.t) (createdBy : ObjectId) :
  NoDup (map Team._id (teams s)) ->
  owners s = o ->
  (draft_id team, createdBy) ∈ o ->
  draft_createdBy team = Cast createdBy ->
  Team_save false team s = inr (saved, s') ->
  owners s' = o.
Proof.
  intros Hnd <- Hin Hdraft H.
  apply Team_save_update in H as (Hid & Hcreated & _ & ->).
  rewrite Hdraft in Hcreated. injection Hcreated as ->.
  unfold owners in *. simpl. rewrite map_map. apply map_ext_in.
  intros t Ht. simpl.
  destruct (N.eqb (Team._id t) (Team._id saved)) eqn:E; [| done].
  apply N.eqb_eq in E. rewrite Hid in E.
  assert ((Team._id t, Team.createdBy t)
          ∈ map (fun t => (Team._id t, Team.createdBy t)) (teams s)) as Ht'.
  { apply list_elem_of_In. by apply (in_map (fun t => (Team._id t, Team.createdBy t))). }
  assert (NoDup (map fst (map (fun t => (Team._id t, Team.createdBy t)) (teams s))))
    as Hfst by (by rewrite map_map).
  rewrite <- E in Hin.
  pose proof (NoDup_map_inj fst _ _ _ Hfst Hin Ht' eq_refl) as Heq.
  injection Heq as Heq. by rewrite Hid, <- E, Heq.
Qed.

Lemma keeps_catch_post_teams (P : Store -> Prop) (err : jserror) :
  keeps P (catch_post_teams err).
Proof. unfold catch_post_teams, duplicate_key_answer. keep. Qed.

Lemma keeps_catch_put_teams (P : Store -> Prop) (err : jserror) :
  keeps P (catch_put_teams err).
Proof. unfold catch_put_teams, duplicate_key_answer. keep. Qed.

Lemma findById_team_In (id : jsval) (s : Store) (team : Team.t) :
  findById Team_lookup id s = inr (Some team) -> team ∈ teams s.
Proof.
  unfold findById, Team_lookup.
  destruct (castId id) as [| oid |]; [done | | done].
  intros [= H]. apply find_some in H as [H _]. by apply list_elem_of_In.
Qed.

Lemma post_teams_keeps (newId : ObjectId) (user body : jsobject) (s : Store) :
  teams_ok s -> teams_ok (db (post_teams newId user body s)).
Proof.
  revert s. unfold post_teams.
  apply try_catch_keeps; [| apply keeps_catch_post_teams]. keep.
  apply keeps_writing. intros s saved s' Hs H. by apply Team_save_new_ok in H.
Qed.

Lemma put_teams_id_keeps (o : list (ObjectId * ObjectId)) (id : string)
    (user body : jsobject) (s : Store) :
  teams_ok s /\ owners s = o ->
  teams_ok (db (put_teams_id id user body s))
  /\ owners (db (put_teams_id id user body s)) = o.
Proof.
  revert s. unfold put_teams_id.
  apply (guarded_by_keeps (fun s => teams_ok s /\ owners s = o)). intros _.
  apply (try_catch_keeps (fun s => teams_ok s /\ owners s = o));
    [| apply keeps_catch_put_teams].
  destruct (falsy _ && falsy _ && falsy _); [apply keeps_send |].
  apply keeps_bind; [keep | intros members].
  match goal with |- keeps _ (if ?c then _ else _) => destruct c end;
    [apply keeps_send |].
  apply (keeps_bind_with _
           (fun found => forall team, found = Some team ->
              (Team._id team, Team.createdBy team) ∈ o)).
  - intros s found [_ <-] Hfound team ->. simpl in Hfound.
    apply findById_team_In in Hfound. unfold owners.
    apply list_elem_of_In.
    apply (in_map (fun t => (Team._id t, Team.createdBy t))).
    by apply list_elem_of_In.
  - apply keeps_reading.
  - intros [team |] Hteam; [| apply keeps_send].
    specialize (Hteam team eq_refl).
    apply keeps_bind; [| intros; apply keeps_send].
    apply keeps_writing. intros s saved s' [[Hid Hname] Ho] H. split.
    + by apply Team_save_update_ok in H.
    + eapply (owners_after_update o _ s s' saved (Team.createdBy team));
        [exact Hid | exact Ho | | | exact H]; [exact Hteam | reflexivity].
Qed.

(** X14. The team routes keep names and ids unique, and an Update never
    changes who owns a team. If no two stored teams share an [_id] or a
    name, the same holds after [POST /teams] and after [PUT /teams/:id],
    whatever the request; and after [PUT /teams/:id] the stored teams have
    the ids and the creators they had, in the same order. *)
Theorem team_routes_keep_the_collection_valid (s : Store) :
  teams_ok s ->
  (forall newId user body, teams_ok (db (post_teams newId user body s)))
  /\ (forall id user body,
        teams_ok (db (put_teams_id id user body s))
        /\ owners (db (put_teams_id id user body s)) = owners s).
Proof.
  intros Hs. split; intros.
  - by apply post_teams_keeps.
  - by apply put_teams_id_keeps.
Qed.

(** X15. A team name that is taken is not answered at all. When the
    request would otherwise create the team (a name of 3 to 100
    characters, no description, distinct emails of stored users, an
    identity with an [_id]) but a stored team has that name, the
    duplicate-key branch of the [catch] of [POST /teams] throws while it
    builds its answer, because the controller does not import
    [RESPONSE_MESSAGES]: the [ReferenceError] escapes the handler, which
    sends no response, and the store is unchanged. *)
Theorem post_teams_duplicate_name_escapes
    (newId : ObjectId) (user body : jsobject) (s : Store)
    (n : string) (emails : list string) (uid : ObjectId) (existing : Team.t) :
  get body "name" = JStr n ->
  (3 <= String.length n <= 100)%nat ->
  get body "description" = JUndefined ->
  get body "memberEmails" = JArr (map JStr emails) ->
  NoDup (map User.email (users s)) ->
  NoDup emails ->
  (forall e, e ∈ emails -> exists u, u ∈ users s /\ User.email u = e) ->
  castId (get user "_id") = Cast uid ->
  existing ∈ teams s ->
  Team.name existing = n ->
  reply (post_teams newId user body s) = Escapes (ReferenceError "RESPONSE_MESSAGES")
  /\ db (post_teams newId user body s) = s.
Proof.
  intros Hname [Hlo Hhi] Hdesc Hemails Hnodup Hdistinct Hall Huid Hin Htaken.
  assert (n <> EmptyString) as Hne by (intros ->; simpl in Hlo; lia).
  pose proof (proj2 (resolved_length_iff emails (users s) Hnodup)
                (conj Hdistinct Hall)) as Hlen.
  assert (existsb (fun t' => String.eqb (Team.name t') n) (teams s) = true)
    as Hexists.
  { apply existsb_exists. exists existing.
    split; [by apply list_elem_of_In | by apply String.eqb_eq]. }
  unfold post_teams. rewrite Hname, Hdesc, Hemails, Huid. unfold falsy. simpl.
  rewrite (proj2 (String.eqb_neq n EmptyString) Hne). simpl.
  unfold User_find_by_emails, in_values. run.
  rewrite cast_emails_strings. simpl.
  unfold length_differs. simpl. rewrite length_map, Hlen.
  rewrite (proj2 (Qeq_bool_inject_Z _ _) eq_refl). simpl.
  unfold Team_save. run.
  rewrite (proj2 (String.eqb_neq n EmptyString) Hne). simpl.
  unfold name_valid, length_between.
  rewrite (proj2 (Nat.leb_le 3 _) Hlo), (proj2 (Nat.leb_le _ 100) Hhi). simpl.
  rewrite Hexists.
  destruct (existsb (fun t' => N.eqb (Team._id t') newId) (teams s)); simpl;
    unfold catch_post_teams, duplicate_key_answer; by run.
Qed.

(** ** Identity, registration and login *)

Lemma substring_from_app (scheme token : string) :
  substring_from (String.length scheme) (scheme ++ token)%string = token.
Proof. induction scheme as [| c scheme IH]; simpl; [by destruct token | done]. Qed.

(** X16. The shared middleware does not look at the authorization
    scheme. It drops the first seven characters of a header, whatever
    they are, and verifies the rest: a header made of any seven
    characters followed by a token is let through with the decoded token
    as identity when the token verifies, and answered 403 otherwise. *)
Theorem sharedMiddleware_ignores_the_scheme (scheme token : string) :
  String.length scheme = 7%nat ->
  sharedMiddleware (Some (scheme ++ token)%string)
  = match jwt_verify token with
    | Some decoded => Next decoded
    | None => answer 403 (JsonError "Forbidden: Invalid token")
    end.
Proof.
  intros Hlen. unfold sharedMiddleware.
  assert (String.eqb (scheme ++ token)%string EmptyString = false) as ->.
  { destruct scheme; [discriminate | done]. }
  rewrite <- Hlen, substring_from_app. by destruct (jwt_verify token).
Qed.

Lemma find_email_absent (us : list User.t) (e : string) :
  e ∉ map User.email us ->
  List.find (fun u => String.eqb (User.email u) e) us = None.
Proof.
  intros Hnotin. destruct (List.find _ us) as [u |] eqn:E; [| done].
  apply find_some in E as [Hin E]. apply String.eqb_eq in E. exfalso.
  apply Hnotin. rewrite <- E. by apply list_elem_of_In, in_map.
Qed.

Lemma find_email_unique (us : list User.t) (u : User.t) :
  NoDup (map User.email us) ->
  u ∈ us ->
  List.find (fun u' => String.eqb (User.email u') (User.email u)) us = Some u.
Proof.
  induction us as [| h us IH]; simpl; intros Hnd Hin.
  - by apply elem_of_nil in Hin.
  - apply NoDup_cons in Hnd as [Hh Hnd].
    apply elem_of_cons in Hin as [-> | Hin]; [by rewrite String.eqb_refl |].
    destruct (String.eqb (User.email h) (User.email u)) eqn:E; [| by apply IH].
    apply String.eqb_eq in E. exfalso. apply Hh. rewrite E.
    by apply list_elem_of_In, in_map, list_elem_of_In.
Qed.

Lemma login_identity_email (user : User.t) (iat : Z) :
  get (claims (login_payload user) iat) "email" = JStr (User.email user).
Proof. unfold get, claims, login_payload. by simplify_map_eq. Qed.

Lemma nonempty_truthy (s : string) :
  s <> EmptyString -> String.eqb s EmptyString = false.
Proof. by apply String.eqb_neq. Qed.

(** X17. Registration stores the hash, never the password. A request
    with non-empty strings for the names and the email, an email that
    passes the pattern and belongs to no user, and a password that
    [bcrypt] hashes, answers 201 and appends one user to the collection:
    the names and the email of the request, and the hash as [password].
    No other user is touched. *)
Theorem post_register_stores_the_hash
    (newId : ObjectId) (body : jsobject) (s : Store)
    (f l e h : string) :
  get body "firstName" = JStr f -> f <> EmptyString ->
  get body "lastName" = JStr l -> l <> EmptyString ->
  get body "email" = JStr e -> e <> EmptyString ->
  EMAIL_REGEX_test (JStr e) = true ->
  truthy (get body "password") = true ->
  hashSync (get body "password") = inr h -> h <> EmptyString ->
  newId ∉ map User._id (users s) ->
  e ∉ map User.email (users s) ->
  let user := {| User._id := newId; User.firstName := f; User.lastName := l;
                 User.email := e; User.password := h |} in
  post_register newId body s
  = {| result := Replies
         {| code := 201;
            content := json_body_status "User Registered Successfully" 201 |};
       state := set_users s (users s ++ [user]);
       trace := [] |}.
Proof.
  intros Hf Hfne Hl Hlne He Hene Hregex Hpw Hhash Hhne Hfresh Hfree user.
  apply nonempty_truthy in Hfne, Hlne, Hene, Hhne.
  apply (notin_existsb_false _ N.eqb _ _ (fun x y => proj1 (N.eqb_eq x y)))
    in Hfresh.
  pose proof (find_email_absent _ _ Hfree) as Hnone.
  apply (notin_existsb_false _ String.eqb _ _ (fun x y => proj1 (String.eqb_eq x y)))
    in Hfree.
  unfold post_register, validateRequestBodyForRegistration, falsy.
  rewrite Hf, Hl, He, Hpw, Hregex. simpl. rewrite Hfne, Hlne, Hene. simpl.
  unfold trying. run. rewrite Hnone. simpl. rewrite Hhash. simpl.
  unfold User_create. run. rewrite Hfne, Hlne, Hene, Hhne. simpl.
  by rewrite Hfresh, Hfree.
Qed.

(** X18. A stored user can log in and is then recognised. With unique
    emails in the collection, a login with the email of a stored user
    and a password that [bcrypt] accepts for the stored hash answers 200
    with that email and a token signed over the user's email, id and
    names, and changes nothing. When the token verifies to its claims,
    the shared middleware lets a request carrying ["Bearer "] and the
    token through with these claims as identity, and [GET /me] for that
    identity answers 200 with the stored document of the user. *)
Theorem login_then_me (now : Z) (body : jsobject) (s : Store) (u : User.t) :
  NoDup (map User.email (users s)) ->
  u ∈ users s ->
  get body "email" = JStr (User.email u) ->
  compareSync (get body "password") (User.password u) = inr true ->
  let token := jwt_sign (login_payload u) now in
  let identity := claims (login_payload u) now in
  jwt_verify token = Some identity ->
  post_login now body s
  = {| result := Replies
         {| code := 200;
            content := JsonObject {[ "email" := JStr (User.email u);
                                     "message" := JStr "Login Successful.";
                                     "token" := JStr token ]} |};
       state := s; trace := [] |}
  /\ sharedMiddleware (Some ("Bearer " ++ token)%string) = Next identity
  /\ get_me identity s
     = {| result := Replies {| code := 200; content := JsonUser u |};
          state := s; trace := [] |}.
Proof.
  intros Hnodup Hin Hemail Hpw token identity Hverify.
  pose proof (find_email_unique _ _ Hnodup Hin) as Hfind.
  split; [| split].
  - unfold post_login, unguarded, User_findOne_email. rewrite Hemail. run.
    rewrite Hfind. simpl. rewrite Hpw. done.
  - rewrite (sharedMiddleware_decodes _ identity); [done | done |].
    exact Hverify.
  - unfold get_me, trying, User_findOne_email, identity.
    rewrite login_identity_email. run. by rewrite Hfind.
Qed.


Lemma User_create_inr (newId : ObjectId) (firstName lastName email : jsval)
    (password : string) (s s' : Store) (u : User.t) :
  User_create newId firstName lastName email password s = inr (u, s') ->
  s' = set_users s (users s ++ [u])
  /\ (User._id u ∉ map User._id (users s))
  /\ (User.email u ∉ map User.email (users s)).
Proof.
  unfold User_create, mbind, sum_bind.
  destruct (required_string "firstName" _ _) as [| f]; [done |].
  destruct (required_string "lastName" _ _) as [| l]; [done |].
  destruct (required_string "email" _ _) as [| e]; [done |].
  destruct (required_string "password" _ _) as [| p]; [done |].
  destruct (existsb _ (users s)) eqn:E1; [done |].
  destruct (existsb (fun u => String.eqb (User.email u) e) (users s)) eqn:E2;
    [done |].
  intros [= <- <-]. simpl. split; [done |]. split.
  - by apply (existsb_false_notin _ _ _ _ N.eqb_refl) in E1.
  - by apply (existsb_false_notin _ _ _ _ String.eqb_refl) in E2.
Qed.

Lemma find_email_present (us : list User.t) (u : User.t) :
  u ∈ us ->
  exists u', List.find (fun u' => String.eqb (User.email u') (User.email u)) us
             = Some u'.
Proof.
  intros Hin.
  destruct (List.find _ us) as [u' |] eqn:E; [by exists u' |].
  apply list_elem_of_In in Hin.
  pose proof (find_none _ _ E u Hin) as H. simpl in H.
  by rewrite String.eqb_refl in H.
Qed.

(** X20. Registration never overwrites a user. If the stored users have
    distinct ids and distinct emails, they still have after [POST
    /register], whatever the request; the users that were stored are
    still there, unchanged and in the same order, followed by at most
    one new user; tasks and teams are not touched. A request that passes
    the checks on the body with the email of a stored user is answered
    400 with the "email exists" error and changes nothing. *)
Theorem post_register_never_overwrites
    (newId : ObjectId) (body : jsobject) (s : Store) :
  users_ok s ->
  let after := state (post_register newId body s) in
  users_ok after
  /\ (exists added, users after = users s ++ added
                    /\ (List.length added <= 1)%nat)
  /\ tasks after = tasks s
  /\ teams after = teams s
  /\ (forall u, u ∈ users s ->
        get body "email" = JStr (User.email u) ->
        validateRequestBodyForRegistration body = None ->
        post_register newId body s
        = {| result := Replies {| code := 400;
                                  content := json_error ERROR_EMAIL_EXISTS |};
             state := s; trace := [] |}).
Proof.
  intros [Hid Hemail] after.
  assert (users_ok s
          /\ (exists added, users s = users s ++ added
                            /\ (List.length added <= 1)%nat)
          /\ tasks s = tasks s /\ teams s = teams s) as Hsame.
  { split; [done |]. split; [| done]. exists [].
    split; [by rewrite app_nil_r | simpl; lia]. }
  assert (users_ok after
          /\ (exists added, users after = users s ++ added
                            /\ (List.length added <= 1)%nat)
          /\ tasks after = tasks s /\ teams after = teams s) as Hafter.
  { unfold after, post_register.
    destruct (validateRequestBodyForRegistration body); simpl; [exact Hsame |].
    unfold trying. run.
    destruct (User_findOne_email (get body "email") s) as [err | [found |]];
      simpl.
    - destruct (bool_decide (err_code err = Some 11000)); simpl; exact Hsame.
    - exact Hsame.
    - destruct (hashSync (get body "password")) as [err | hash]; simpl.
      { destruct (bool_decide (err_code err = Some 11000)); simpl; exact Hsame. }
      destruct (User_create newId _ _ _ hash s) as [err | [u s']] eqn:Hcreate;
        simpl.
      { destruct (bool_decide (err_code err = Some 11000)); simpl; exact Hsame. }
      apply User_create_inr in Hcreate as (-> & Hfresh & Hfree). simpl.
      split; [| split; [by exists [u] | done]].
      unfold users_ok. simpl. rewrite !map_app. simpl. split.
      + apply NoDup_app. split; [done | split; [| apply NoDup_singleton]].
        intros x Hx Hx'. by apply list_elem_of_singleton in Hx' as ->.
      + apply NoDup_app. split; [done | split; [| apply NoDup_singleton]].
        intros x Hx Hx'. by apply list_elem_of_singleton in Hx' as ->. }
  destruct Hafter as (H1 & H2 & H3 & H4). split_and!; try done.
  intros u Hin He Hvalid. unfold post_register. rewrite Hvalid, He.
  unfold trying, User_findOne_email. run.
  destruct (find_email_present _ _ Hin) as [u' ->]. done.
Qed.

(** ** Listings and malformed ids *)

Lemma Task_find_assignedTo_spec (oid : ObjectId) (s : Store) (t : Task.t) :
  t ∈ Task_find_assignedTo oid s <-> t ∈ tasks s /\ Task.assignedTo t = Some oid.
Proof.
  unfold Task_find_assignedTo. rewrite !list_elem_of_In, filter_In.
  by rewrite bool_decide_eq_true.
Qed.

(** X21. "Assigned to me" and "assigned to this user" list the same
    tasks. For the identity decoded from a login token of a user, [GET
    /tasks/assigned-to-me] and [GET /tasks/assigned-to/:userId] with the
    id of that user both answer 200 with the stored tasks whose assignee
    is that user, and only those, in the order of the store; when there
    is none both answer 404, each with its own message. Neither changes
    the store. *)
Theorem assigned_to_me_is_assigned_to
    (fresh : ObjectId) (iat : Z) (u : User.t) (s : Store) :
  ObjectId_from (JStr (toHexString (User._id u))) = Some (User._id u) ->
  castObjectId (JStr (toHexString (User._id u))) = Some (User._id u) ->
  let mine := Task_find_assignedTo (User._id u) s in
  let me := get_tasks_assigned_to_me fresh (claims (login_payload u) iat) s in
  let them := get_tasks_assigned_to (toHexString (User._id u)) s in
  (forall t, t ∈ mine <-> t ∈ tasks s /\ Task.assignedTo t = Some (User._id u))
  /\ db me = s /\ db them = s
  /\ reply me
     = Responds (match mine with
                 | [] => {| statusCode := 404; payload := Text "No tasks found." |}
                 | _ => {| statusCode := 200; payload := JsonTasks mine |}
                 end)
  /\ reply them
     = Responds (match mine with
                 | [] => {| statusCode := 404;
                            payload := Text "No tasks assigned to this user" |}
                 | _ => {| statusCode := 200; payload := JsonTasks mine |}
                 end).
Proof.
  intros Hfrom Hcast mine me them.
  split; [intros t; apply Task_find_assignedTo_spec |].
  assert (me = match mine with
               | [] => respond 404 (Text "No tasks found.") s []
               | _ => respond 200 (JsonTasks mine) s []
               end) as ->.
  { unfold me, get_tasks_assigned_to_me. rewrite login_identity_id.
    unfold new_ObjectId. rewrite Hfrom. run. fold mine. by destruct mine. }
  assert (them = match mine with
                 | [] => respond 404 (Text "No tasks assigned to this user") s []
                 | _ => respond 200 (JsonTasks mine) s []
                 end) as ->.
  { unfold them, get_tasks_assigned_to, isValid. rewrite Hcast.
    rewrite bool_decide_eq_true_2 by eauto. run. fold mine. by destruct mine. }
  by destruct mine.
Qed.

(** X22. A list of tasks is exact and never empty. With a status that is
    one of the enumerated values, [GET /tasks] answers 200 with the
    stored tasks that have this status, all of them and in the order of
    the store, or 404 "No tasks found" when there is none; without a
    status it does the same with all the stored tasks. The store is
    unchanged and nothing is logged. *)
Theorem get_tasks_lists_exactly (query : jsobject) (s : Store) :
  (forall st, get query "status" = JStr st -> st ∈ TaskStatus_values ->
     let found := List.filter (fun t => String.eqb (Task.status t) st) (tasks s) in
     (forall t, t ∈ found <-> t ∈ tasks s /\ Task.status t = st)
     /\ get_tasks query s
        = match found with
          | [] => respond 404 (Text "No tasks found") s []
          | _ => respond 200 (JsonTasks found) s []
          end)
  /\ (truthy (get query "status") = false ->
      get_tasks query s
      = match tasks s with
        | [] => respond 404 (Text "No tasks found") s []
        | _ => respond 200 (JsonTasks (tasks s)) s []
        end).
Proof.
  split.
  - intros st Hst Hin found. split.
    { intros t. unfold found. rewrite !list_elem_of_In, filter_In.
      by rewrite String.eqb_eq. }
    assert (truthy (JStr st) = true /\ includes TaskStatus_values (JStr st) = true)
      as [Htruthy Hincluded].
    { unfold TaskStatus_values in Hin.
      apply elem_of_cons in Hin as [-> | Hin]; [done |].
      apply elem_of_cons in Hin as [-> | Hin]; [done |].
      by apply elem_of_nil in Hin. }
    unfold get_tasks, tasks_filter. rewrite Hst, Htruthy, Hincluded. simpl.
    unfold Task_find. rewrite lookup_singleton. run. fold found.
    by destruct found.
  - intros Hfalsy. unfold get_tasks, tasks_filter. rewrite Hfalsy. simpl.
    unfold Task_find. rewrite lookup_empty. run. by destruct (tasks s).
Qed.

(** X23. A malformed id is a client error for two routes only. For an
    id that is no ObjectId, [PATCH /tasks/:id/complete] answers 400
    "Invalid task ID" and [GET /tasks/assigned-to/:userId] answers 400
    "Invalid user ID"; [GET /tasks/:id], [DELETE /tasks/:id], [PUT
    /tasks/:id] with a payload that passes the validator, and [POST
    /tasks/:taskId/comments] answer 500, the first three with an
    undefined body after logging the cast error, the last with its
    message. None of them changes the store. *)
Theorem malformed_id (id : string) (s : Store) :
  castObjectId (JStr id) = None ->
  patch_tasks_id_complete id s = respond 400 (Text "Invalid task ID") s []
  /\ get_tasks_assigned_to id s = respond 400 (Text "Invalid user ID") s []
  /\ get_tasks_id id s
     = respond 500 (Errmsg None) s [ConsoleLogError "Error logged: " (CastError "_id")]
  /\ delete_tasks_id id s
     = {| result := Replies {| code := 500; content := Plain (Errmsg None) |};
          state := s;
          trace := [ConsoleLogError "Error logged: " (CastError "_id")] |}
  /\ (forall sendMail body, validateTask body = Next tt ->
        put_tasks_id sendMail id body s
        = respond 500 (Errmsg None) s
            [ConsoleLogError "Error logged: " (CastError "_id")])
  /\ (forall now user body,
        post_tasks_taskId_comments now user id body s
        = respond 500 (ErrMessage (CastError "_id")) s []).
Proof.
  intros Hcast. split_and!.
  - rewrite complete_outcome. by rewrite Hcast.
  - unfold get_tasks_assigned_to, isValid. rewrite Hcast.
    rewrite bool_decide_eq_false_2 by (intros [? ?]; discriminate). done.
  - unfold get_tasks_id, findById, castId. rewrite Hcast. by run.
  - unfold delete_tasks_id, trying, findById, castId. rewrite Hcast. by run.
  - intros sendMail body Hvalid.
    assert (exists parsed, parsedDueDate (get body "dueDate") = inr parsed)
      as [parsed Hparsed].
    { destruct (validated_dueDate body Hvalid) as [(due & _ & H) | [_ H]];
        by eexists. }
    unfold put_tasks_id, guarded. rewrite Hvalid. run. rewrite Hparsed. simpl.
    unfold findById, castId. by rewrite Hcast.
  - intros now user body. unfold post_tasks_taskId_comments, findById, castId.
    rewrite Hcast. by run.
Qed.

(** X24. An assignment writes and mails only for a user and a task that
    it found. Whenever [PUT /tasks/:id/assign] leaves a store other than
    the one it started from, or hands anything to the transport,
    [assignedTo] is the id of a stored user and the id of the request is
    the id of a stored task: a request that fails [userExists] or
    [taskExists] has no effect. *)
Theorem put_tasks_id_assign_only_for_found_user_and_task
    (sendMail : MailOptions -> transport_result)
    (id : string) (body : jsobject) (s : Store) :
  let out := put_tasks_id_assign sendMail id body s in
  db out <> s \/ sent_mails (events out) <> [] ->
  exists uid user oid task,
    castId (get body "assignedTo") = Cast uid
    /\ User_lookup uid s = Some user
    /\ castObjectId (JStr id) = Some oid
    /\ Task_lookup oid s = Some task.
Proof.
  intros out. unfold out, put_tasks_id_assign, guarded_by, userExists, taskExists.
  unfold findById.
  destruct (castId (get body "assignedTo")) as [| uid |] eqn:Huid; simpl;
    try (intros [H | H]; exfalso; by apply H).
  destruct (User_lookup uid s) as [user |] eqn:Huser; simpl;
    try (intros [H | H]; exfalso; by apply H).
  destruct (castObjectId (JStr id)) as [oid |] eqn:Hoid; simpl;
    try (intros [H | H]; exfalso; by apply H).
  destruct (Task_lookup oid s) as [task |] eqn:Htask; simpl;
    try (intros [H | H]; exfalso; by apply H).
  intros _. by exists uid, user, oid, task.
Qed.
End Controllers.

(** * The controllers on the sample database *)

Import Sample.

Local Abbreviation PUT_task :=
  (put_tasks_id Number String_of_num castObjectId toLocaleString Date_isValid
     EMAIL_USER).
Local Abbreviation ASSIGN_task :=
  (put_tasks_id_assign castObjectId toLocaleString EMAIL_USER).
Local Abbreviation POST_task := (post_tasks Number String_of_num Date_isValid).
Local Abbreviation COMPLETE_task := (patch_tasks_id_complete castObjectId).
Local Abbreviation PUT_team :=
  (app_put_teams_id String_of_num castObjectId jwt_verify).
Local Abbreviation POST_team :=
  (app_post_teams String_of_num castObjectId jwt_verify).

Ltac compute_eq := vm_compute; reflexivity.

(** The token of John is the one [POST /login] issues for him. *)
Lemma john_token_is_login_token :
  jwt_verify (substring_from 7 "Bearer john.jwt")
  = Some (claims (login_payload toHexString john) 1700000000).
Proof. compute_eq. Qed.

(** John created the team "Core"; his update of it is answered 403. *)
Lemma owner_is_forbidden :
  Team.createdBy core_team = User._id john
  /\ PUT_team (Some "Bearer john.jwt") team_id rename_team store
     = respond 403 (JsonText "You are not authorized to edit this team") store [].
Proof.
  split; [reflexivity |].
  apply (authorizeTeamEdit_forbids_login_identity
           String_of_num castObjectId toHexString jwt_verify
           "Bearer john.jwt" team_id rename_team store core_team john 1700000000).
  - discriminate.
  - compute_eq.
  - compute_eq.
  - reflexivity.
Defined.

(** John creates a team of himself: 400, and no team is stored. *)
Lemma create_team_is_rejected :
  POST_team (Some "Bearer john.jwt") 9%N new_team store
  = respond 400 (JsonText "Created by cannot be blank") store [].
Proof.
  apply (post_teams_rejects_login_identity
           String_of_num castObjectId toHexString jwt_verify
           "Bearer john.jwt" 9%N new_team store john 1700000000 [john]).
  - discriminate.
  - compute_eq.
  - compute_eq.
  - compute_eq.
  - compute_eq.
Defined.

(** A payload without status gets the verdict of the membership test. *)
Lemma missing_status_is_reported_invalid :
  validateTask Number without_status = status_invalid
  /\ validateTask Number without_status <> status_blank.
Proof.
  apply (validateTask_blank_status_reported_invalid
           Number without_status "New Task" "This is a new task").
  - compute_eq.
  - vm_compute. discriminate.
  - simpl. lia.
  - compute_eq.
  - vm_compute. discriminate.
  - simpl. lia.
  - compute_eq.
Defined.

(** The title of the stored task again: the Create is answered 500. *)
Lemma duplicate_title_is_answered_500 :
  POST_task 9%N same_title store
  = respond HTTP_STATUS_CODES.INTERNAL_SERVER_ERROR
      (Errmsg (Some "E11000 duplicate key error index: title_1")) store
      [ConsoleLogError "Error logged: " (E11000 "title_1")].
Proof.
  destruct (post_tasks_duplicate_title_is_internal_error
              Number String_of_num Date_isValid 9%N same_title store test_task) as [_ H].
  - compute_eq.
  - compute_eq.
  - apply list_elem_of_In. left. reflexivity.
  - apply (H "Another description"); compute_eq.
Defined.

(** The task is assigned to John; the Update succeeds, and the one mail
    it sends has no recipient. *)
Lemma update_mail_has_no_recipient :
  Task.assignedTo test_task = Some (User._id john)
  /\ exists m,
       sent_mails (events (PUT_task smtp_up task_id updated_task store)) = [m]
       /\ to m = None
       /\ to m <> Some (User.email john).
Proof.
  split; [reflexivity |].
  destruct (put_tasks_id_notifies_no_recipient
              Number String_of_num castObjectId toLocaleString Date_isValid
              EMAIL_USER
              smtp_up task_id updated_task store
              {| Task._id := 2%N; Task.title := "Updated Task";
                 Task.description := "This is an updated task";
                 Task.status := "closed";
                 Task.dueDate := Some (parseDate Number "02-02-2025");
                 Task.assignedTo := Some 1%N; Task.comments := [] |}
              1%N)
    as (m & Hsent & _ & _ & Hto & Hnot).
  - compute_eq.
  - reflexivity.
  - exists m. repeat split; [exact Hsent | exact Hto | exact (Hnot john)].
Defined.

(** Completing the open task twice. *)
Lemma complete_twice :
  let first := COMPLETE_task task_id store in
  let second := COMPLETE_task task_id (db first) in
  let closed := with_status "closed" test_task in
  reply first = Responds {| statusCode := 200; payload := JsonTask closed |}
  /\ Task_lookup 2%N (db first) = Some closed
  /\ Task.status closed = "closed"
  /\ reply second = Responds {| statusCode := 200; payload := JsonTask closed |}
  /\ Task_lookup 2%N (db second) = Some closed.
Proof. exact (complete_is_idempotent castObjectId task_id store). Defined.

(** The SMTP server is down or up: same reply, same store. *)
Lemma smtp_down_changes_nothing :
  reply (PUT_task smtp_down task_id updated_task store)
  = reply (PUT_task smtp_up task_id updated_task store)
  /\ db (ASSIGN_task smtp_down task_id assign_to_john store)
     = db (ASSIGN_task smtp_up task_id assign_to_john store).
Proof.
  destruct (transport_failure_is_absorbed
              Number String_of_num castObjectId toLocaleString Date_isValid
              EMAIL_USER
              smtp_down smtp_up task_id updated_task store
              {| from := None; to := None; subject := EmptyString;
                 text := EmptyString; html := EmptyString |})
    as (_ & Hput & _).
  destruct (transport_failure_is_absorbed
              Number String_of_num castObjectId toLocaleString Date_isValid
              EMAIL_USER
              smtp_down smtp_up task_id assign_to_john store
              {| from := None; to := None; subject := EmptyString;
                 text := EmptyString; html := EmptyString |})
    as (_ & _ & _ & _ & Hassign).
  split; [exact Hput | exact Hassign].
Defined.

(** C3, counterexample. An Update of the stored task that carries only
    status "closed" is answered 400 "Title cannot be blank": it does not
    succeed. *)
Lemma update_with_only_status_is_rejected :
  Task_lookup 2%N store = Some test_task
  /\ reply (PUT_task smtp_up task_id only_status store)
     = Responds {| statusCode := 400;
                   payload := Text "Bad Request : Title cannot be blank" |}
  /\ forall updated,
       reply (PUT_task smtp_up task_id only_status store)
       <> Responds {| statusCode := 200; payload := JsonTask updated |}.
Proof.
  split; [reflexivity |]. split; [compute_eq |].
  intros updated. vm_compute. discriminate.
Qed.

(** A full payload replaces the four fields of the stored task. *)
Lemma update_replaces_the_fields :
  let updated :=
    {| Task._id := 2%N; Task.title := "Updated Task";
       Task.description := "This is an updated task";
       Task.status := "closed";
       Task.dueDate := Some (parseDate Number "02-02-2025");
       Task.assignedTo := Some 1%N; Task.comments := [] |} in
  reply (PUT_task smtp_up task_id updated_task store)
    = Responds {| statusCode := 200; payload := JsonTask updated |}
  /\ Task_lookup 2%N (db (PUT_task smtp_up task_id updated_task store))
     = Some updated.
Proof.
  destruct (put_tasks_id_replaces_or_rejects
              Number String_of_num castObjectId toLocaleString Date_isValid
              EMAIL_USER
              smtp_up task_id updated_task store 2%N test_task)
    as (_ & _ & H & _).
  - compute_eq.
  - reflexivity.
  - apply (H "Updated Task" "This is an updated task" "closed" "02-02-2025");
      try compute_eq.
    intros t' Hin Htitle.
    apply list_elem_of_In in Hin. destruct Hin as [<- | []]. reflexivity.
Defined.

(** The update of "Test Task" to the second of February 999999 passes the
    validator and is refused at the save: 500, and the store is as it
    was. *)
Lemma update_in_year_999999_is_refused :
  validateTask Number update_in_year_999999 = Next tt
  /\ PUT_task smtp_up task_id update_in_year_999999 store
     = respond 500 (Errmsg None) store
         [ConsoleLogError "Error logged: " (ValidationError "dueDate")].
Proof. split; compute_eq. Qed.



(** C10, counterexample. The filter [?status=] is a status that is not
    one of the two values, and the List answers 200 with every task. *)
Lemma empty_status_filter_lists_all :
  includes TaskStatus_values (get empty_filter "status") = false
  /\ get_tasks String_of_num empty_filter store
     = respond 200 (JsonTasks [test_task]) store [].
Proof. split; compute_eq. Qed.

(** The filter [?status=pending] is answered 400. *)
Lemma pending_filter_is_bad_request :
  get_tasks String_of_num pending_filter store
  = respond 400 (Text "Invalid task status") store [].
Proof.
  destruct (get_tasks_status_filter String_of_num pending_filter) as (H & _ & _).
  apply H; compute_eq.
Defined.

(** ** Examples for the further properties *)

Ltac decided :=
  match goal with
  | |- ?P => exact (bool_decide_unpack P ltac:(vm_compute; exact I))
  end.

Local Abbreviation COMMENT_task :=
  (post_tasks_taskId_comments String_of_num castObjectId).
Local Abbreviation REGISTER :=
  (post_register String_of_num EMAIL_REGEX_test hashSync ERROR_EMAIL_FORMAT
     ERROR_EMAIL_EXISTS ERROR_PASSWORD_MANDATORY).
Local Abbreviation LOGIN :=
  (post_login String_of_num toHexString compareSync jwt_sign
     ERROR_EMAIL_NOT_FOUND ERROR_INVALID_PASSWORD).

Lemma store_tasks_ok : tasks_ok store.
Proof. unfold tasks_ok. split_and!; decided. Qed.

(** X1, example. The payload "New Task" passes the validator. *)
Lemma new_task_is_accepted : validateTask Number new_task = Next tt.
Proof.
  apply (validateTask_accepts_exactly Number new_task
           "New Task" "This is a new task" "open" "01-01-2025");
    try compute_eq.
  split_and!; try decided.
  exists "01", "01", "2025". split; compute_eq.
Defined.

(** X2, example. The due date of "Updated Task" is the 2nd of the 2nd
    month. *)
Lemma updated_task_due_date_is_bounded :
  exists (day month : Q) (year : jsnum),
    parsedDueDate Number (get updated_task "dueDate")
      = inr (Some (new_Date year (Num (month - 1)) (Num day)))
    /\ (1 <= day <= 31)%Q /\ (1 <= month <= 12)%Q /\ year <> NaN.
Proof.
  apply (validated_dueDate_is_bounded Number updated_task "02-02-2025");
    compute_eq.
Defined.

(** X3, example. A due date that is the number 5 makes the validator
    throw, and the Create sends no reply. *)
Lemma number_as_due_date_escapes :
  validateTask Number dated_by_number
    = Throw (TypeError "dueDate.split is not a function")
  /\ POST_task 9%N dated_by_number store
     = {| reply := Escapes (TypeError "dueDate.split is not a function");
          db := store; events := [] |}.
Proof.
  split; [compute_eq |].
  apply (validateTask_throws_on_non_string_date
           Number String_of_num castObjectId toLocaleString Date_isValid
           EMAIL_USER
           smtp_up 9%N task_id dated_by_number store
           (TypeError "dueDate.split is not a function")).
  compute_eq.
Defined.

(** X4, example. The sample store is valid and stays so when "Test
    Task" is updated. *)
Lemma update_keeps_the_store_valid :
  tasks_ok store
  /\ tasks_ok (db (PUT_task smtp_up task_id updated_task store)).
Proof.
  split; [exact store_tasks_ok |].
  apply (task_routes_keep_the_collection_valid
           Number String_of_num castObjectId toLocaleString Date_isValid
           EMAIL_USER
           store store_tasks_ok).
Defined.

(** X5, example. "New Task" is created with id 5 and read back. *)
Lemma new_task_is_read_back :
  let created :=
    {| Task._id := 5%N; Task.title := "New Task";
       Task.description := "This is a new task"; Task.status := "open";
       Task.dueDate := Some (parseDate Number "01-01-2025");
       Task.assignedTo := None; Task.comments := [] |} in
  POST_task 5%N new_task store
  = respond 201 (JsonTask created) (set_tasks store [test_task; created]) []
  /\ get_tasks_id castObjectId new_task_id (db (POST_task 5%N new_task store))
     = respond 200 (JsonTask created) (db (POST_task 5%N new_task store)) [].
Proof.
  destruct (post_tasks_then_get_tasks_id
              Number String_of_num castObjectId Date_isValid 5%N new_task_id
              new_task store
              "New Task" "This is a new task" "open" "01-01-2025")
    as [H _];
    [compute_eq | compute_eq | compute_eq | compute_eq | compute_eq
    | decided | decided | compute_eq |].
  apply H. compute_eq.
Defined.

(** X6, example. "Test Task" cannot be renamed to "Undated Task". *)
Lemma rename_to_taken_title_is_answered_500 :
  PUT_task smtp_up task_id taken_title store_with_undated
  = respond 500 (Errmsg (Some "E11000 duplicate key error index: title_1"))
      store_with_undated
      [ConsoleLogError "Error logged: " (E11000 "title_1")].
Proof.
  apply (put_tasks_id_title_of_another_task
           Number String_of_num castObjectId toLocaleString Date_isValid
           EMAIL_USER
           smtp_up task_id taken_title store_with_undated 2%N test_task
           undated_task "Undated Task" "This is an updated task" "02-02-2025");
    try compute_eq; try decided.
  apply list_elem_of_In. right. left. reflexivity.
Defined.

(** X7, example. "Test Task" is deleted and cannot be read any more. *)
Lemma deleted_task_is_gone :
  let after := state (delete_tasks_id castObjectId task_id store) in
  result (delete_tasks_id castObjectId task_id store)
    = Replies {| code := 200; content := Plain (JsonTask test_task) |}
  /\ Task_lookup 2%N after = None
  /\ get_tasks_id castObjectId task_id after
     = respond 404 (Text "The task with id 000000000000000000000002 not found !")
         after [].
Proof.
  destruct (delete_tasks_id_then_gone castObjectId task_id 2%N store test_task)
    as (H1 & H2 & _ & H4 & _); [compute_eq | decided | compute_eq |].
  by split_and!.
Defined.

(** X8, example. Assigning "Test Task" to John sends him the
    notification. *)
Lemma assignment_mail_goes_to_john :
  exists m,
    sent_mails (events (ASSIGN_task smtp_up task_id assign_to_john store)) = [m]
    /\ to m = Some "john@example.com"
    /\ from m = Some "tracker@example.com"
    /\ subject m = "Task Assignment Notification".
Proof.
  destruct (put_tasks_id_assign_notifies_the_assignee
              castObjectId toLocaleString EMAIL_USER smtp_up task_id
              assign_to_john store 1%N 2%N john test_task
              (new_Date (Num 2025) (Num 0) (Num 1)))
    as (_ & _ & H); try compute_eq.
  exact H.
Defined.

(** X9, example. Assigning the undated task to John is answered 500,
    and John is its assignee afterwards. *)
Lemma undated_task_is_assigned_despite_500 :
  let out := ASSIGN_task smtp_up undated_task_id assign_to_john store_with_undated in
  reply out = Responds {| statusCode := 500; payload := Errmsg None |}
  /\ Task_lookup 4%N (db out) = Some (with_assignedTo (Some 1%N) undated_task)
  /\ sent_mails (events out) = [].
Proof.
  apply (put_tasks_id_assign_without_due_date
           castObjectId toLocaleString EMAIL_USER smtp_up undated_task_id
           assign_to_john store_with_undated 1%N 4%N john undated_task);
    compute_eq.
Defined.

Lemma store_assignees_ok : assignees_ok store.
Proof.
  unfold assignees_ok, assignees_in. simpl. constructor; [| constructor].
  intros uid [= <-]. decided.
Qed.

(** X10, example. After any assignment on the sample store the
    assignees are stored users. *)
Lemma assignment_keeps_assignees_registered :
  assignees_ok store
  /\ assignees_ok (db (ASSIGN_task smtp_up task_id assign_to_john store)).
Proof.
  split; [exact store_assignees_ok |].
  destruct (task_routes_keep_assignees_registered
              Number String_of_num castObjectId toLocaleString Date_isValid
              EMAIL_USER
              store store_assignees_ok) as [H _].
  apply (H smtp_up task_id assign_to_john).
Defined.

(** X11, example. John comments on "Test Task". *)
Lemma john_comments :
  let comment := {| Comment.user := 1%N; Comment.text := "Looks good";
                    Comment.createdAt := 1700000100 |} in
  reply (COMMENT_task 1700000100 john_token task_id looks_good store)
  = Responds {| statusCode := 201;
                payload := JsonTask (with_comments [comment] test_task) |}.
Proof.
  destruct (post_tasks_taskId_comments_by_login_identity
              String_of_num castObjectId toHexString 1700000100 1700000000
              john task_id looks_good store 2%N test_task "Looks good")
    as [H _];
    [compute_eq | compute_eq | compute_eq | compute_eq | compute_eq
    | decided | decided | exact H].
Defined.

(** X12, example. A comment without text is answered 500. *)
Lemma comment_without_text_is_answered_500 :
  COMMENT_task 1700000100 john_token task_id no_text store
  = respond 500 (ErrMessage (ValidationError "comments.text")) store [].
Proof.
  apply (post_tasks_taskId_comments_without_text
           String_of_num castObjectId 1700000100 john_token task_id no_text
           store 2%N 1%N test_task); try compute_eq.
  by left.
Defined.

(** X13, example. A team that names John twice is answered 404. *)
Lemma john_twice_is_not_found :
  post_teams String_of_num castObjectId 9%N john_token team_of_john_twice store
  = respond 404 (JsonText "Some members not found") store [].
Proof.
  apply (post_teams_members_all_or_nothing
           String_of_num castObjectId 9%N john_token team_of_john_twice store
           ["john@example.com"; "john@example.com"]);
    [compute_eq | compute_eq | decided |].
  intros [Hnodup _]. apply NoDup_cons in Hnodup as [Hnotin _].
  apply Hnotin. by left.
Defined.

Lemma store_teams_ok : teams_ok store.
Proof. unfold teams_ok. split; decided. Qed.

(** X14, example. Renaming "Core" leaves John its creator. *)
Lemma rename_keeps_the_owner :
  teams_ok store
  /\ owners (db (put_teams_id String_of_num castObjectId team_id john_with__id
                   rename_team store))
     = [(3%N, 1%N)].
Proof.
  split; [exact store_teams_ok |].
  destruct (team_routes_keep_the_collection_valid
              String_of_num castObjectId store store_teams_ok) as [_ H].
  exact (proj2 (H team_id john_with__id rename_team)).
Defined.

(** X15, example. A second team "Core" gets no answer. *)
Lemma second_core_team_escapes :
  reply (post_teams String_of_num castObjectId 9%N john_with__id
           second_core_team store)
    = Escapes (ReferenceError "RESPONSE_MESSAGES")
  /\ db (post_teams String_of_num castObjectId 9%N john_with__id
           second_core_team store) = store.
Proof.
  apply (post_teams_duplicate_name_escapes
           String_of_num castObjectId 9%N john_with__id second_core_team store
           "Core" ["john@example.com"] 1%N core_team);
    try compute_eq; try decided.
  - intros e He. apply list_elem_of_singleton in He as ->.
    exists john. split; [by left | reflexivity].
  - by left.
Defined.

(** X16, example. The header need not say "Bearer". *)
Lemma any_scheme_is_accepted :
  sharedMiddleware jwt_verify (Some "Tokens:john.jwt") = Next john_token.
Proof.
  exact (sharedMiddleware_ignores_the_scheme jwt_verify "Tokens:" "john.jwt"
           eq_refl).
Defined.

(** X17, example. Mary registers; her hash is stored. *)
Lemma mary_is_registered :
  REGISTER 4%N register_mary store
  = {| result := Replies
         {| code := 201;
            content := json_body_status "User Registered Successfully" 201 |};
       state := set_users store
                  (users store
                   ++ [{| User._id := 4%N; User.firstName := "Mary";
                          User.lastName := "Major";
                          User.email := "mary@example.com";
                          User.password := "$2b$08$secret" |}]);
       trace := [] |}.
Proof.
  apply (post_register_stores_the_hash
           String_of_num EMAIL_REGEX_test hashSync ERROR_EMAIL_FORMAT
           ERROR_EMAIL_EXISTS ERROR_PASSWORD_MANDATORY 4%N register_mary store
           "Mary" "Major" "mary@example.com" "$2b$08$secret");
    try compute_eq; decided.
Defined.

(** X18, example. John logs in and reads his profile. *)
Lemma john_logs_in_and_reads_his_profile :
  let identity := claims (login_payload toHexString john) 1700000000 in
  LOGIN 1700000000 login_john store
  = {| result := Replies
         {| code := 200;
            content := JsonObject {[ "email" := JStr "john@example.com";
                                     "message" := JStr "Login Successful.";
                                     "token" := JStr "john.jwt" ]} |};
       state := store; trace := [] |}
  /\ sharedMiddleware jwt_verify (Some "Bearer john.jwt") = Next identity
  /\ get_me String_of_num identity store
     = {| result := Replies {| code := 200; content := JsonUser john |};
          state := store; trace := [] |}.
Proof.
  apply (login_then_me
           String_of_num toHexString jwt_verify compareSync jwt_sign
           ERROR_EMAIL_NOT_FOUND ERROR_INVALID_PASSWORD 1700000000 login_john
           store john);
    [decided | by left | compute_eq | compute_eq | compute_eq].
Defined.


Lemma store_users_ok : users_ok store.
Proof. unfold users_ok. split; decided. Qed.

(** X20, example. The email of John cannot be registered again. *)
Lemma john_cannot_register_again :
  REGISTER 4%N register_john_again store
  = {| result := Replies {| code := 400;
                            content := json_error ERROR_EMAIL_EXISTS |};
       state := store; trace := [] |}.
Proof.
  destruct (post_register_never_overwrites
              String_of_num EMAIL_REGEX_test hashSync ERROR_EMAIL_FORMAT
              ERROR_EMAIL_EXISTS ERROR_PASSWORD_MANDATORY 4%N
              register_john_again store store_users_ok)
    as (_ & _ & _ & _ & H).
  apply (H john); [by left | compute_eq | compute_eq].
Defined.

(** X21, example. Both listings show John his task. *)
Lemma john_sees_his_task :
  reply (get_tasks_assigned_to_me ObjectId_from 9%N
           (claims (login_payload toHexString john) 1700000000) store)
    = Responds {| statusCode := 200; payload := JsonTasks [test_task] |}
  /\ reply (get_tasks_assigned_to castObjectId (toHexString 1%N) store)
     = Responds {| statusCode := 200; payload := JsonTasks [test_task] |}.
Proof.
  destruct (assigned_to_me_is_assigned_to
              castObjectId toHexString ObjectId_from 9%N 1700000000 john store)
    as (_ & _ & _ & H1 & H2); [compute_eq | compute_eq |].
  split; [exact H1 | exact H2].
Defined.

(** X22, example. The open tasks of the sample store. *)
Lemma open_tasks_are_listed :
  get_tasks String_of_num open_filter store
  = respond 200 (JsonTasks [test_task]) store [].
Proof.
  destruct (get_tasks_lists_exactly String_of_num open_filter store) as [H _].
  destruct (H "open") as [_ H']; [compute_eq | decided |].
  exact H'.
Defined.

(** X23, example. The id "42" is no ObjectId. *)
Lemma short_id_is_malformed :
  COMPLETE_task "42" store = respond 400 (Text "Invalid task ID") store []
  /\ get_tasks_id castObjectId "42" store
     = respond 500 (Errmsg None) store
         [ConsoleLogError "Error logged: " (CastError "_id")].
Proof.
  destruct (malformed_id
              Number String_of_num castObjectId toLocaleString Date_isValid
              EMAIL_USER
              "42" store) as (H1 & _ & H3 & _); [compute_eq |].
  by split.
Defined.

(** X24, example. The mail to John was sent for a stored user and a
    stored task. *)
Lemma mail_to_john_had_user_and_task :
  exists uid user oid task,
    castId castObjectId (get assign_to_john "assignedTo") = Cast ObjectId uid
    /\ User_lookup uid store = Some user
    /\ castObjectId (JStr task_id) = Some oid
    /\ Task_lookup oid store = Some task.
Proof.
  apply (put_tasks_id_assign_only_for_found_user_and_task
           castObjectId toLocaleString EMAIL_USER smtp_up task_id
           assign_to_john store).
  right. vm_compute. discriminate.
Defined.
